(** * 13F holdings processor: progress store, ingestion worker and CUSIP
    reconciliation, verified over a shallow embedding of [processor.py].

    Python strings are modelled as [string], a character being one of the
    first 256 code points: Python's own classification of them
    ([str.isalnum], [str.isdigit], [str.isspace], [int]) is followed on all
    256, and text with code points beyond them is not covered. Python sets
    are [gset], dicts [gmap], exceptions the [Raise] branch of [result], and
    the database connection a pair of a committed and a pending state. The
    columns of the tables are text: a NULL in them is not covered. *)

From Stdlib Require Import ZArith Ascii String DecimalString.
From Stdlib Require DecimalZ DecimalPos.
From stdpp Require Import gmap strings list fin_maps.

Open Scope Z_scope.

(** ** Exceptions *)

Inductive exn : Type :=
  | ValueError (msg : string)
  | DatabaseError
  | PolarsError.

Inductive result (A : Type) : Type :=
  | Ok (a : A)
  | Raise (e : exn).
Arguments Ok {A} a.
Arguments Raise {A} e.

#[global] Instance result_ret : MRet result := fun _ a => Ok a.
#[global] Instance result_bind : MBind result := fun _ _ f r =>
  match r with
  | Ok a => f a
  | Raise e => Raise e
  end.

Definition raises {A} (r : result A) : Prop :=
  match r with
  | Ok _ => False
  | Raise _ => True
  end.

(** [for x in xs: out.append(f(x))], stopping at the first exception. *)
Fixpoint map_elements {A B} (f : A → result B) (xs : list A) : result (list B) :=
  match xs with
  | [] => Ok []
  | x :: rest =>
      y ← f x;
      ys ← map_elements f rest;
      Ok (y :: ys)
  end.

(** ** Characters and strings *)

Module Py.

Definition ord (c : ascii) : Z := Z.of_N (N_of_ascii c).

Definition between (lo hi : Z) (c : ascii) : bool :=
  (lo <=? ord c) && (ord c <=? hi).

(** [c.isascii()] *)
Definition isascii (c : ascii) : bool := ord c <? 128.

(** [c.isdecimal()]: "0" to "9". *)
Definition isdecimal (c : ascii) : bool := between 48 57 c.

(** [c.isdigit()]: the decimal digits and the superscripts two, three
    (178, 179) and one (185). *)
Definition isdigit (c : ascii) : bool :=
  isdecimal c || between 178 179 c || between 185 185 c.

(** [c.isnumeric()]: the digits and the fractions (188 to 190). *)
Definition isnumeric (c : ascii) : bool := isdigit c || between 188 190 c.

(** [c.isalpha()]: the letters of ASCII, the ordinal indicators (170, 186),
    the micro sign (181) and the accented letters (192 to 255 without the
    signs 215 and 247). *)
Definition isalpha (c : ascii) : bool :=
  between 65 90 c || between 97 122 c || between 170 170 c
  || between 181 181 c || between 186 186 c || between 192 214 c
  || between 216 246 c || between 248 255 c.

(** [c.isalnum()] *)
Definition isalnum (c : ascii) : bool :=
  isalpha c || isdecimal c || isdigit c || isnumeric c.

(** [c.isspace()] *)
Definition isspace (c : ascii) : bool :=
  between 9 13 c || between 28 32 c || between 133 133 c
  || between 160 160 c.

Fixpoint all_chars (p : ascii → bool) (s : string) : bool :=
  match s with
  | EmptyString => true
  | String c rest => p c && all_chars p rest
  end.

(** [s.isalnum()]: false on the empty string. *)
Definition str_isalnum (s : string) : bool :=
  match s with
  | EmptyString => false
  | _ => all_chars isalnum s
  end.

Definition len (s : string) : Z := Z.of_nat (String.length s).

(** [str(n)] for an integer. *)
Definition str (n : Z) : string := NilZero.string_of_int (Z.to_int n).

(** [int(c)] for a one-character string: the decimal digits have a value,
    on anything else [int] raises. *)
Definition int_char (c : ascii) : result Z :=
  if isdecimal c then Ok (ord c - 48)
  else
    Raise (ValueError ("invalid literal for int() with base 10: '"
                       +:+ String c "'")).

(** [string.ascii_uppercase + string.digits] *)
Definition ascii_uppercase : string := "ABCDEFGHIJKLMNOPQRSTUVWXYZ".
Definition digits : string := "0123456789".

End Py.

(** ** Polars string expressions *)

Module Pl.

(** [strip_chars()] and [to_uppercase()] are given on ASCII text: white
    space is the six characters of ASCII, the letters a to z are
    upper-cased, and a character beyond ASCII is left as it is, where polars
    follows Unicode. The statements on stripped and upper-cased text keep to
    ASCII text. *)
Definition isspace (c : ascii) : bool :=
  Py.between 9 13 c || Py.between 32 32 c.

Definition upper_char (c : ascii) : ascii :=
  if Py.between 97 122 c then ascii_of_N (Z.to_N (Py.ord c - 32)) else c.

Fixpoint to_uppercase (s : string) : string :=
  match s with
  | EmptyString => EmptyString
  | String c rest => String (upper_char c) (to_uppercase rest)
  end.

Fixpoint lstrip (s : string) : string :=
  match s with
  | EmptyString => EmptyString
  | String c rest => if isspace c then lstrip rest else s
  end.

Fixpoint rstrip (s : string) : string :=
  match s with
  | EmptyString => EmptyString
  | String c rest =>
      match rstrip rest with
      | EmptyString => if isspace c then EmptyString else String c EmptyString
      | r => String c r
      end
  end.

Definition strip_chars (s : string) : string := rstrip (lstrip s).

Fixpoint repeat_char (c : ascii) (n : nat) : string :=
  match n with
  | O => EmptyString
  | S k => String c (repeat_char c k)
  end.

(** The length of [s] in bytes (UTF-8): two for a character beyond ASCII. *)
Fixpoint byte_length (s : string) : nat :=
  match s with
  | EmptyString => O
  | String c rest => ((if Py.isascii c then 1 else 2) + byte_length rest)%nat
  end.

(** [str.zfill(n)]: zeros up to [n] bytes, put in front of the text, or
    behind its sign when it starts with "-". *)
Definition zfill (n : nat) (s : string) : string :=
  let zeros := repeat_char "0" (n - byte_length s) in
  match s with
  | String "-" rest => String "-" (zeros +:+ rest)
  | _ => zeros +:+ s
  end.

(** [str.pad_end(n, c)]: [c] behind the text, up to [n] characters. *)
Definition pad_end (n : nat) (c : ascii) (s : string) : string :=
  s +:+ repeat_char c (n - String.length s).

End Pl.

(** ** The check digit (nested function of [clean_cusips]) *)

(** [int(c) if c.isdigit() else (ord(c) - ord("A") + 10)] *)
Definition char_value (c : ascii) : result Z :=
  if Py.isdigit c then Py.int_char c else Ok (Py.ord c - Py.ord "A" + 10).

(** [[... for c in cusip]] *)
Definition values (cusip : string) : result (list Z) :=
  map_elements char_value (list_ascii_of_string cusip).

(** The body of [for i, value in enumerate(values)], from index [i] on, with
    [sum(divmod(value, 10))] written out. *)
Fixpoint check_loop (i : Z) (vs : list Z) (total : Z) : Z :=
  match vs with
  | [] => total
  | value :: rest =>
      let value := if i mod 2 =? 1 then value * 2 else value in
      check_loop (i + 1) rest (total + (value / 10 + value mod 10))
  end.

Definition compute_check_digit (cusip : string) : result string :=
  if negb (Py.len cusip =? 8) || negb (Py.str_isalnum cusip) then
    Raise (ValueError "CUSIP must be length 8 and alphanumeric characters")
  else
    values ← values cusip;
    let total := check_loop 0 values 0 in
    let check_digit := (10 - (total mod 10)) mod 10 in
    Ok (Py.str check_digit).

(** The [for char in ...] loop of the 7-character branch: [Some] is an early
    [return], [None] means the loop ran to its end. *)
Fixpoint left_padding_loop (chars : list ascii) (cusip : string)
    (ftd_cusips : gset string) : result (option string) :=
  match chars with
  | [] => Ok None
  | char :: rest =>
      let left_padded := String char cusip in
      check_digit ← compute_check_digit left_padded;
      let full_cusip := left_padded +:+ check_digit in
      if decide (full_cusip ∈ ftd_cusips) then Ok (Some full_cusip)
      else left_padding_loop rest cusip ftd_cusips
  end.

Definition loop_chars : list ascii :=
  list_ascii_of_string (Py.ascii_uppercase +:+ Py.digits).

(** The value the loop variable [char] holds once the loop has finished. *)
Definition char_after_loop : ascii := List.last loop_chars "A"%char.

Definition find_valid_cusips (cusip : string) (ftd_cusips : gset string)
    : result (option string) :=
  if Py.len cusip =? 8 then
    check_digit ← compute_check_digit cusip;
    let full_cusip := cusip +:+ check_digit in
    Ok (if decide (full_cusip ∈ ftd_cusips) then Some full_cusip else None)
  else if Py.len cusip =? 7 then
    found ← left_padding_loop loop_chars cusip ftd_cusips;
    match found with
    | Some full_cusip => Ok (Some full_cusip)
    | None =>
        let right_padded := cusip +:+ String char_after_loop EmptyString in
        check_digit ← compute_check_digit right_padded;
        let full_cusip := right_padded +:+ check_digit in
        Ok (if decide (full_cusip ∈ ftd_cusips) then Some full_cusip else None)
    end
  else Ok None.


(** ** The database: tables, a connection and its transaction *)

(** A row of [holdings]; [position] stands for the nine columns after
    [cusip] (value, amounts, discretion, voting authority). *)
Record holding : Type := Holding {
  filing_id : Z;
  nameofissuer : string;
  titleofclass : string;
  cusip : string;
  position : list string
}.

(** A row of [filings]; [attributes] stands for the columns after
    [accession_number]. *)
Record filing : Type := Filing {
  id : Z;
  accession_number : string;
  attributes : list string
}.

Record database : Type := Database {
  filings : list filing;
  holdings : list holding;
  filings_id_seq : Z
}.

(** [committed] is what the server keeps, [pending] what the open
    transaction sees. *)
Record connection : Type := Connection {
  committed : database;
  pending : database
}.

Definition connect (db : database) : connection :=
  {| committed := db; pending := db |}.

(** The statements a fault can hit: constraint violations, lost
    connections and malformed statements are all a [DatabaseError] raised
    by [execute]. *)
Inductive statement : Type :=
  | PostProcessStep (n : nat)
  | InsertFiling
  | InsertHoldings
  | UpdateTitleofclass
  | UpdateNameofissuer
  | UpdateShortCusips.

#[global] Instance statement_eq_dec : EqDecision statement.
Proof. solve_decision. Defined.

Definition tx (A : Type) : Type := connection → result A * connection.

#[global] Instance tx_ret : MRet tx := fun _ a conn => (Ok a, conn).
#[global] Instance tx_bind : MBind tx := fun _ _ f m conn =>
  match m conn with
  | (Ok a, conn') => f a conn'
  | (Raise e, conn') => (Raise e, conn')
  end.

Definition raise {A} (e : exn) : tx A := fun conn => (Raise e, conn).

Definition lift {A} (r : result A) : tx A := fun conn => (r, conn).

(** [try: body except Exception as e: handler(e)] *)
Definition try_except {A} (body : tx A) (handler : exn → tx A) : tx A :=
  fun conn =>
    match body conn with
    | (Ok a, conn') => (Ok a, conn')
    | (Raise e, conn') => handler e conn'
    end.

Definition commit : tx unit := fun conn =>
  (Ok (), {| committed := pending conn; pending := pending conn |}).

Definition rollback : tx unit := fun conn =>
  (Ok (), {| committed := committed conn; pending := committed conn |}).

Definition query {A} (q : database → A) : tx A := fun conn =>
  (Ok (q (pending conn)), conn).

Section Faults.

Variable faults : statement → bool.

(** [cur.execute(...)] of a statement with effect [f] and answer [a]. *)
Definition execute_returning {A} (st : statement) (f : database → database * A)
    : tx A := fun conn =>
  if faults st then (Raise DatabaseError, conn)
  else
    let '(db, a) := f (pending conn) in
    (Ok a, {| committed := committed conn; pending := db |}).

Definition execute (st : statement) (f : database → database) : tx unit :=
  execute_returning st (fun db => (f db, ())).

(** [cur.execute("... IN %s", (targets,))]: psycopg2 writes an empty tuple
    as [()], and the server refuses [IN ()] as a syntax error. *)
Definition execute_in {A} (st : statement) (targets : list A)
    (f : database → database) : tx unit :=
  match targets with
  | [] => raise DatabaseError
  | _ => execute st f
  end.

Definition update_holdings (f : holding → holding) (db : database) : database :=
  {| filings := filings db;
     holdings := f <$> holdings db;
     filings_id_seq := filings_id_seq db |}.

(** ** Ingestion: the rows and the inserts *)

(** What [parse_xml_filing] hands over: the filing dict and the holding
    dicts, in column order. *)
Record filing_data : Type := FilingData {
  fd_accession_number : string;
  fd_attributes : list string
}.

Record holding_data : Type := HoldingData {
  hd_nameofissuer : string;
  hd_titleofclass : string;
  hd_cusip : string;
  hd_position : list string
}.

(** [INSERT INTO filings ... ON CONFLICT (accession_number) DO NOTHING
    RETURNING id] followed by [cur.fetchone()]. [filings_id_seq] stands for
    the ids not given out yet: the new row gets one that no row has.
    (PostgreSQL's sequence also moves on a conflict and is not set back by a
    rollback, which changes the unused id that comes next, not the rows.) *)
Definition insert_filing (fd : filing_data) (db : database)
    : database * option Z :=
  if decide (fd_accession_number fd ∈ accession_number <$> filings db) then
    (db, None)
  else
    let new_id := filings_id_seq db in
    ({| filings := filings db ++
          [ {| id := new_id;
               accession_number := fd_accession_number fd;
               attributes := fd_attributes fd |} ];
        holdings := holdings db;
        filings_id_seq := new_id + 1 |},
     Some new_id).

(** [(filing_id,) + tuple(holding.values())] *)
Definition holding_row (filing_id : Z) (h : holding_data) : holding :=
  {| filing_id := filing_id;
     nameofissuer := hd_nameofissuer h;
     titleofclass := hd_titleofclass h;
     cusip := hd_cusip h;
     position := hd_position h |}.

Definition insert_holdings (rows : list holding) (db : database) : database :=
  {| filings := filings db;
     holdings := holdings db ++ rows;
     filings_id_seq := filings_id_seq db |}.

(** ** Identifier reconciliation: [clean_cusips] *)

(** A row of the data frame [df]. *)
Record df_row : Type := DfRow {
  df_cusip : string;
  df_titleofclass : string;
  df_nameofissuer : string
}.

#[global] Instance df_row_eq_dec : EqDecision df_row.
Proof. solve_decision. Defined.

(** [.str.strip_chars().str.to_uppercase()] *)
Definition normalize (s : string) : string :=
  Pl.to_uppercase (Pl.strip_chars s).

(** The [cusip] column of [ftd_data.csv] as a set. *)
Definition load_ftd_cusips (ftd_data : list string) : gset string :=
  list_to_set (normalize <$> ftd_data).

(** [SELECT DISTINCT cusip, titleofclass, nameofissuer FROM holdings], then
    every column stripped and upper-cased. *)
Definition fetch_holdings (db : database) : list df_row :=
  (fun r => {| df_cusip := normalize (df_cusip r);
               df_titleofclass := normalize (df_titleofclass r);
               df_nameofissuer := normalize (df_nameofissuer r) |})
  <$> remove_dups
        ((fun h => {| df_cusip := cusip h;
                      df_titleofclass := titleofclass h;
                      df_nameofissuer := nameofissuer h |})
         <$> holdings db).

(** [SET cusip = titleofclass, titleofclass = cusip WHERE titleofclass IN
    targets]: the right-hand sides read the row as it was. *)
Definition fix_titleofclass (targets : list string) (h : holding) : holding :=
  if decide (titleofclass h ∈ targets) then
    {| filing_id := filing_id h;
       nameofissuer := nameofissuer h;
       titleofclass := cusip h;
       cusip := titleofclass h;
       position := position h |}
  else h.

(** [SET cusip = nameofissuer, nameofissuer = titleofclass, titleofclass =
    cusip WHERE nameofissuer IN targets] *)
Definition fix_nameofissuer (targets : list string) (h : holding) : holding :=
  if decide (nameofissuer h ∈ targets) then
    {| filing_id := filing_id h;
       nameofissuer := titleofclass h;
       titleofclass := cusip h;
       cusip := nameofissuer h;
       position := position h |}
  else h.

(** [tuple(cusips_in_titleofclass["titleofclass"])] *)
Definition cusips_in_titleofclass (ftd_cusips : gset string)
    (df : list df_row) : list string :=
  df_titleofclass <$> filter (fun r => df_titleofclass r ∈ ftd_cusips) df.

(** [tuple(cusips_in_nameofissuer["nameofissuer"])] *)
Definition cusips_in_nameofissuer (ftd_cusips : gset string)
    (df : list df_row) : list string :=
  df_nameofissuer <$> filter (fun r => df_nameofissuer r ∈ ftd_cusips) df.

(** The column-swap stage: the two filters on [df] and the two updates. *)
Definition column_swap_stage (ftd_cusips : gset string) (df : list df_row)
    : tx unit :=
  let cusips_in_titleofclass := cusips_in_titleofclass ftd_cusips df in
  let cusips_in_nameofissuer := cusips_in_nameofissuer ftd_cusips df in
  execute_in UpdateTitleofclass cusips_in_titleofclass
    (update_holdings (fix_titleofclass cusips_in_titleofclass));;
  execute_in UpdateNameofissuer cusips_in_nameofissuer
    (update_holdings (fix_nameofissuer cusips_in_nameofissuer)).

(** [dict(zip(keys, values))]: a later pair overwrites an earlier one. *)
Definition py_dict (pairs : list (string * string)) : gmap string string :=
  foldl (fun d kv => <[kv.1 := kv.2]> d) ∅ pairs.

(** [len(x)] for the [Int8] column [cusip_length]: a length above 127 does
    not fit. What polars does with it depends on its version; here it is an
    error, and the statements keep to codes of at most 127 characters. *)
Definition cusip_length (x : string) : result Z :=
  if Py.len x <=? 127 then Ok (Py.len x) else Raise PolarsError.

(** [df_remaining]: the rows the column-swap stage left alone. *)
Definition df_remaining (ftd_cusips : gset string) (df : list df_row)
    : list df_row :=
  filter (fun r => (df_titleofclass r ∉ ftd_cusips)
                   ∧ (df_nameofissuer r ∉ ftd_cusips)) df.

(** [df_cusips]: the distinct short codes of [df_remaining]. *)
Definition short_cusips (ftd_cusips : gset string) (df : list df_row)
    : result (list string) :=
  with_length ←
    map_elements
      (fun r => cusip_length ← cusip_length (df_cusip r);
                Ok (df_cusip r, cusip_length))
      (df_remaining ftd_cusips df);
  Ok (remove_dups (fst <$> filter (fun p => p.2 < 9) with_length)).

(** The four repairs of short codes, up to the dict [cusip_fixes]. An
    exception of the function given to [map_elements] ends the repair with
    that exception. *)
Definition cusip_fixes (ftd_cusips : gset string) (df : list df_row)
    : result (gmap string string) :=
  df_cusips ← short_cusips ftd_cusips df;
  (* 1. Check left padding *)
  let left_padded := (fun c => (c, Pl.zfill 9 c)) <$> df_cusips in
  let left_matched := filter (fun p => p.2 ∈ ftd_cusips) left_padded in
  let df_cusips_remaining :=
    fst <$> filter (fun p => p.2 ∉ ftd_cusips) left_padded in
  (* 2. Check right padding *)
  let right_padded :=
    (fun c => (c, Pl.pad_end 9 "0" c)) <$> df_cusips_remaining in
  let right_matched := filter (fun p => p.2 ∈ ftd_cusips) right_padded in
  let df_cusips_remaining :=
    fst <$> filter (fun p => p.2 ∉ ftd_cusips) right_padded in
  (* 3. Apply checksum fix *)
  with_fixed ←
    map_elements
      (fun c => fixed ← find_valid_cusips c ftd_cusips; Ok (c, fixed))
      df_cusips_remaining;
  let checksum_matched :=
    omap (fun p : string * option string => pair p.1 <$> p.2) with_fixed in
  let df_cusips_remaining :=
    fst <$> filter (fun p : string * option string => p.2 = None) with_fixed in
  (* lpad remaining to 9 chars *)
  let df_cusips_remaining :=
    (fun c => (c, Pl.zfill 9 c)) <$> df_cusips_remaining in
  let all_fixes :=
    left_matched ++ right_matched ++ checksum_matched ++ df_cusips_remaining in
  Ok (py_dict all_fixes).

(** [SET cusip = CASE cusip WHEN old THEN new ... ELSE cusip END WHERE cusip
    IN keys]. The [WHEN] lines are written into the statement as text, so
    this is its effect for codes without a quote or a percent sign. *)
Definition fix_short_cusip (fixes : gmap string string) (h : holding) : holding :=
  match fixes !! cusip h with
  | Some new =>
      {| filing_id := filing_id h;
         nameofissuer := nameofissuer h;
         titleofclass := titleofclass h;
         cusip := new;
         position := position h |}
  | None => h
  end.

Definition clean_cusips (ftd_data : list string) : tx unit :=
  try_except
    (let ftd_cusips := load_ftd_cusips ftd_data in
     df ← query fetch_holdings;
     column_swap_stage ftd_cusips df;;
     fixes ← lift (cusip_fixes ftd_cusips df);
     execute_in UpdateShortCusips (map_to_list fixes).*1
       (update_holdings (fix_short_cusip fixes));;
     commit)
    (fun e => rollback;; raise e).

(** Steps 1 to 6 of [post_process_data] are each some statements followed
    by [conn.commit()]; [steps] holds their effects, in order. *)
Fixpoint run_steps (n : nat) (steps : list (database → database)) : tx unit :=
  match steps with
  | [] => mret ()
  | step :: rest =>
      execute (PostProcessStep n) step;;
      commit;;
      run_steps (S n) rest
  end.

(** The result is the database once the connection is closed, and the
    error that was logged, if any. *)
Definition post_process_data (steps : list (database → database))
    (ftd_data : list string) (db : database) : database * option exn :=
  let body : tx (option exn) :=
    try_except
      (run_steps 1 steps;;
       clean_cusips ftd_data;;
       mret None)
      (fun e => rollback;; mret (Some e))
  in
  match body (connect db) with
  | (Ok logged, conn) => (committed conn, logged)
  | (Raise e, conn) => (committed conn, Some e)
  end.

End Faults.

(** ** The progress store: [ProgressTracker] *)

Inductive category : Type :=
  | structured_data
  | individual_filings.

(** What callers pass for [year] and [quarter]: the annotations say [int],
    the aggregator passes the strings it took from a folder name, and the
    defaults are [None]. *)
Inductive pyval : Type :=
  | PyNone
  | PyInt (n : Z)
  | PyStr (s : string).

(** How an f-string renders [{v}]. *)
Definition format (v : pyval) : string :=
  match v with
  | PyNone => "None"
  | PyInt n => Py.str n
  | PyStr s => s
  end.

(** [{"processed": [...], "failed": [...]}] *)
Record item_lists : Type := ItemLists {
  processed : list string;
  failed : list string
}.

(** [self.data] *)
Record progress : Type := Progress {
  structured : item_lists;
  individual : gmap string item_lists;
  last_updated : string
}.

(** The tracker object together with the file it writes: [disk] is the JSON
    document stored under [self.filename], when the file exists. *)
Record ProgressTracker : Type := Tracker {
  data : progress;
  disk : option progress
}.

(** [now] is [datetime.now().isoformat()]. *)
Definition _load_progress (now : string) (file : option progress) : progress :=
  match file with
  | Some stored => stored
  | None =>
      {| structured := {| processed := []; failed := [] |};
         individual := ∅;
         last_updated := now |}
  end.

(** [ProgressTracker()] *)
Definition init (now : string) (file : option progress) : ProgressTracker :=
  {| data := _load_progress now file; disk := file |}.

Definition save_progress (now : string) (self : ProgressTracker)
    : ProgressTracker :=
  let data :=
    {| structured := structured (data self);
       individual := individual (data self);
       last_updated := now |} in
  {| data := data; disk := Some data |}.

(** [if item not in xs: xs.append(item)] *)
Definition append_new (item : string) (xs : list string) : list string :=
  if decide (item ∈ xs) then xs else xs ++ [item].

Definition set_structured (l : item_lists) (self : ProgressTracker)
    : ProgressTracker :=
  {| data := {| structured := l;
                individual := individual (data self);
                last_updated := last_updated (data self) |};
     disk := disk self |}.

Definition set_individual (key : string) (l : item_lists)
    (self : ProgressTracker) : ProgressTracker :=
  {| data := {| structured := structured (data self);
                individual := <[key := l]> (individual (data self));
                last_updated := last_updated (data self) |};
     disk := disk self |}.

(** [self.data[category][key]] after the [if key not in ...] guard. *)
Definition period_lists (key : string) (self : ProgressTracker) : item_lists :=
  default {| processed := []; failed := [] |} (individual (data self) !! key).

Definition mark_processed (now : string) (category : category)
    (year quarter : pyval) (item : string) (self : ProgressTracker)
    : ProgressTracker :=
  let self :=
    match category with
    | structured_data =>
        let l := structured (data self) in
        set_structured
          {| processed := append_new item (processed l); failed := failed l |}
          self
    | individual_filings =>
        let key := format year +:+ "_" +:+ format quarter in
        let l := period_lists key self in
        set_individual key
          {| processed := append_new item (processed l); failed := failed l |}
          self
    end in
  save_progress now self.

Definition mark_failed (now : string) (category : category)
    (year quarter : pyval) (item : string) (self : ProgressTracker)
    : ProgressTracker :=
  let self :=
    match category with
    | structured_data =>
        let l := structured (data self) in
        set_structured
          {| processed := processed l; failed := append_new item (failed l) |}
          self
    | individual_filings =>
        let key := format year +:+ "_" +:+ format quarter in
        let l := period_lists key self in
        set_individual key
          {| processed := processed l; failed := append_new item (failed l) |}
          self
    end in
  save_progress now self.

Definition is_processed (category : category) (year quarter : pyval)
    (item : string) (self : ProgressTracker) : bool :=
  match category with
  | structured_data => bool_decide (item ∈ processed (structured (data self)))
  | individual_filings =>
      let key := format year +:+ "_Q" +:+ format quarter in
      match individual (data self) !! key with
      | Some l => bool_decide (item ∈ processed l)
      | None => false
      end
  end.

Definition get_processed_count (category : category) (year quarter : pyval)
    (self : ProgressTracker) : Z :=
  match category with
  | structured_data => Z.of_nat (length (processed (structured (data self))))
  | individual_filings =>
      let key := format year +:+ "_Q" +:+ format quarter in
      match individual (data self) !! key with
      | Some l => Z.of_nat (length (processed l))
      | None => 0
      end
  end.

(** A call that changes the store. *)
Inductive call : Type :=
  | MarkProcessed (now : string) (c : category) (year quarter : pyval)
      (item : string)
  | MarkFailed (now : string) (c : category) (year quarter : pyval)
      (item : string).

Definition run_call (k : call) (self : ProgressTracker) : ProgressTracker :=
  match k with
  | MarkProcessed now c y q item => mark_processed now c y q item self
  | MarkFailed now c y q item => mark_failed now c y q item self
  end.

Definition run_calls (ks : list call) (self : ProgressTracker)
    : ProgressTracker :=
  foldl (fun s k => run_call k s) self ks.

(** Every processed item of the store: the flat list of the structured
    category and the list of each period key. *)
Definition processed_items (p : progress) : list string * gmap string (list string) :=
  (processed (structured p), processed <$> individual p).

(** ** The specification's wording of the check digit and of the repair
    order, to compare the code with *)

Module Spec.

Fixpoint index_of (c : ascii) (s : string) : option Z :=
  match s with
  | EmptyString => None
  | String d rest => if Ascii.eqb c d then Some 0 else Z.succ <$> index_of c rest
  end.

(** The 36 alphanumeric characters. *)
Definition alphanumeric (c : ascii) : bool :=
  bool_decide (is_Some (index_of c "0123456789ABCDEFGHIJKLMNOPQRSTUVWXYZ")).

(** Digits to their numeric value, letters to 10 plus their position in the
    alphabet, A = 0. *)
Definition char_value (c : ascii) : Z :=
  match index_of c "0123456789" with
  | Some d => d
  | None => 10 + default 0 (index_of c "ABCDEFGHIJKLMNOPQRSTUVWXYZ")
  end.

Fixpoint uint_digit_sum (d : Decimal.uint) : Z :=
  match d with
  | Decimal.Nil => 0
  | Decimal.D0 r => 0 + uint_digit_sum r
  | Decimal.D1 r => 1 + uint_digit_sum r
  | Decimal.D2 r => 2 + uint_digit_sum r
  | Decimal.D3 r => 3 + uint_digit_sum r
  | Decimal.D4 r => 4 + uint_digit_sum r
  | Decimal.D5 r => 5 + uint_digit_sum r
  | Decimal.D6 r => 6 + uint_digit_sum r
  | Decimal.D7 r => 7 + uint_digit_sum r
  | Decimal.D8 r => 8 + uint_digit_sum r
  | Decimal.D9 r => 9 + uint_digit_sum r
  end.

(** The sum of the decimal digits of [v]. *)
Definition digit_sum (v : Z) : Z := uint_digit_sum (N.to_uint (Z.to_N v)).

(** The digit sum of every value, doubled first at odd indices; [i] is the
    index of the first character of [stem]. *)
Fixpoint digit_sums (i : nat) (stem : string) : list Z :=
  match stem with
  | EmptyString => []
  | String c rest =>
      digit_sum (if Nat.odd i then 2 * char_value c else char_value c)
      :: digit_sums (S i) rest
  end.

Definition total (stem : string) : Z := foldr Z.add 0 (digit_sums 0 stem).

(** [(10 - (total mod 10)) mod 10] as a one-character string. *)
Definition check_digit (stem : string) : string :=
  String (ascii_of_N (Z.to_N (48 + (10 - total stem mod 10) mod 10))) EmptyString.

(** The short-code repairs in their priority order, for one code: (a) the
    left-padded form if the reference set has it, else (b) the right-padded
    form if the reference set has it, else (c) what the checksum repair
    finds, else (d) the left-padded form. *)
Definition short_code_repair (ftd_cusips : gset string) (cusip : string)
    : string :=
  if decide (Pl.zfill 9 cusip ∈ ftd_cusips) then Pl.zfill 9 cusip
  else if decide (Pl.pad_end 9 "0" cusip ∈ ftd_cusips) then
    Pl.pad_end 9 "0" cusip
  else
    match find_valid_cusips cusip ftd_cusips with
    | Ok (Some fixed_cusip) => fixed_cusip
    | _ => Pl.zfill 9 cusip
    end.

End Spec.

(** ** Notions used in the statements *)

(** What the checksum stage leaves in the [fixed_cusip] column. *)
Definition checksum_column (ftd_cusips : gset string) (c : string)
    : option string :=
  match find_valid_cusips c ftd_cusips with
  | Ok fixed => fixed
  | Raise _ => None
  end.

(** Text that does not start with white space. *)
Definition lstripped (s : string) : Prop :=
  match s with
  | EmptyString => True
  | String c _ => Pl.isspace c = false
  end.

(** What the connection looks like after [conn.rollback()]. *)
Definition rolled_back (conn : connection) : connection :=
  {| committed := committed conn; pending := committed conn |}.

(** The effects of [steps], one after the other. *)
Definition apply_steps (steps : list (database → database)) (db : database)
    : database :=
  foldl (fun d step => step d) db steps.

(** The store [p'] holds every processed list of [p], possibly extended. *)
Definition progress_le (p p' : progress) : Prop :=
  processed (structured p) `prefix_of` processed (structured p')
  ∧ ∀ key l, individual p !! key = Some l →
      ∃ l', individual p' !! key = Some l'
            ∧ processed l `prefix_of` processed l'.

(** The characters [compute_check_digit] has a value for: those
    [str.isalnum] accepts, without the digits [int] refuses. *)
Definition valued (c : ascii) : bool :=
  Py.isalnum c && (Py.isdecimal c || negb (Py.isdigit c)).

(** The value of a valued character, and the values of a text of them. *)
Definition value_of (c : ascii) : Z :=
  if Py.isdecimal c then Py.ord c - 48 else Py.ord c - Py.ord "A" + 10.

Fixpoint values_of (cusip : string) : list Z :=
  match cusip with
  | EmptyString => []
  | String c rest => value_of c :: values_of rest
  end.

(** The distinct short codes of the rows the column-swap stage left alone,
    when every length fits the [cusip_length] column. *)
Definition short_codes (ftd_cusips : gset string) (df : list df_row)
    : list string :=
  remove_dups
    (df_cusip
     <$> filter (fun r => Py.len (df_cusip r) < 9)
           (df_remaining ftd_cusips df)).

(** No code of the rows the column-swap stage left alone is longer than
    the [cusip_length] column holds. *)
Definition lengths_fit (ftd_cusips : gset string) (df : list df_row) : bool :=
  forallb (fun r => Py.len (df_cusip r) <=? 127) (df_remaining ftd_cusips df).

(** The short codes the checksum stage computes a check digit for: those
    that neither padding matched and that are 7 or 8 characters long. *)
Definition checksum_codes (ftd_cusips : gset string) (df : list df_row)
    : list string :=
  filter
    (fun c => (Pl.zfill 9 c ∉ ftd_cusips)
              ∧ (Pl.pad_end 9 "0" c ∉ ftd_cusips)
              ∧ (String.length c = 7%nat ∨ String.length c = 8%nat))
    (short_codes ftd_cusips df).

(** Text of ASCII characters, and a table whose three text columns of
    [holdings] hold such text. *)
Definition ascii_text (s : string) : bool := Py.all_chars Py.isascii s.

Definition ascii_holdings (db : database) : bool :=
  forallb
    (fun h => ascii_text (nameofissuer h) && ascii_text (titleofclass h)
              && ascii_text (cusip h))
    (holdings db).

(** A code without a quote or a percent sign, which the short-code update
    can write into its statement as it is. *)
Definition plain_code (s : string) : bool :=
  Py.all_chars (fun c => negb (Ascii.eqb c "'") && negb (Ascii.eqb c "%")) s.

(** The 9-character code an 8-character [stem] of valued characters
    completes to. *)
Definition with_check_digit (stem : string) : string :=
  stem +:+ Py.str ((10 - check_loop 0 (values_of stem) 0 mod 10) mod 10).

(** ** The dispatcher [process_13f_data]: paths, messages, work lists *)

(** [os.path] on POSIX paths. *)
Module OsPath.

Definition sep : ascii := "/".

Fixpoint has_sep (p : string) : bool :=
  match p with
  | EmptyString => false
  | String c rest => Ascii.eqb c sep || has_sep rest
  end.

(** [p[p.rfind("/") + 1:]] *)
Fixpoint basename (p : string) : string :=
  match p with
  | EmptyString => EmptyString
  | String c rest =>
      if has_sep rest then basename rest
      else if Ascii.eqb c sep then rest else p
  end.

(** [p[:p.rfind("/") + 1]] *)
Fixpoint head (p : string) : string :=
  match p with
  | EmptyString => EmptyString
  | String c rest =>
      if has_sep rest then String c (head rest)
      else if Ascii.eqb c sep then String c EmptyString else EmptyString
  end.

(** [head.rstrip("/")] *)
Fixpoint rstrip_sep (p : string) : string :=
  match p with
  | EmptyString => EmptyString
  | String c rest =>
      match rstrip_sep rest with
      | EmptyString => if Ascii.eqb c sep then EmptyString else String c EmptyString
      | r => String c r
      end
  end.

Definition dirname (p : string) : string :=
  let head := head p in
  if negb (String.eqb head "") && negb (Py.all_chars (Ascii.eqb sep) head)
  then rstrip_sep head
  else head.

Definition startswith_sep (b : string) : bool :=
  match b with
  | EmptyString => false
  | String c _ => Ascii.eqb c sep
  end.

Fixpoint endswith_sep (p : string) : bool :=
  match p with
  | EmptyString => false
  | String c EmptyString => Ascii.eqb c sep
  | String _ rest => endswith_sep rest
  end.

(** One round of the loop of [join]. *)
Definition join_step (path b : string) : string :=
  if startswith_sep b then b
  else if String.eqb path "" || endswith_sep path then path +:+ b
  else path +:+ "/" +:+ b.

(** [os.path.join(a, *p)] *)
Definition join (a : string) (p : list string) : string := foldl join_step a p.

End OsPath.

(** More of [str] and [int]. *)
Module PyText.

(** [s.split(sep)] for a one-character separator. *)
Fixpoint split (sep : ascii) (s : string) : list string :=
  match s with
  | EmptyString => [EmptyString]
  | String c rest =>
      if Ascii.eqb c sep then EmptyString :: split sep rest
      else
        match split sep rest with
        | first :: others => String c first :: others
        | [] => [String c EmptyString]
        end
  end.

(** [s.endswith(suffix)] *)
Fixpoint endswith (suffix s : string) : bool :=
  String.eqb s suffix
  || match s with
     | EmptyString => false
     | String _ rest => endswith suffix rest
     end.

Fixpoint lstrip (s : string) : string :=
  match s with
  | EmptyString => EmptyString
  | String c rest => if Py.isspace c then lstrip rest else s
  end.

Fixpoint rstrip (s : string) : string :=
  match s with
  | EmptyString => EmptyString
  | String c rest =>
      match rstrip rest with
      | EmptyString =>
          if Py.isspace c then EmptyString else String c EmptyString
      | r => String c r
      end
  end.

(** Digits with single underscores between them, as an integer literal
    allows; [after_digit] tells whether the character before was a digit. *)
Fixpoint digits_ok (after_digit : bool) (s : string) : bool :=
  match s with
  | EmptyString => after_digit
  | String c rest =>
      if Py.isdecimal c then digits_ok true rest
      else if Ascii.eqb c "_" then after_digit && digits_ok false rest
      else false
  end.

Fixpoint remove_underscores (s : string) : string :=
  match s with
  | EmptyString => EmptyString
  | String c rest =>
      if Ascii.eqb c "_" then remove_underscores rest
      else String c (remove_underscores rest)
  end.

(** [int(s)]: white space around, an optional sign, decimal digits; [None]
    is [ValueError]. *)
Definition int (s : string) : option Z :=
  let s := rstrip (lstrip s) in
  let '(negative, body) :=
    match s with
    | String "-" rest => (true, rest)
    | String "+" rest => (false, rest)
    | _ => (false, s)
    end in
  if digits_ok false body then
    n ← NilZero.uint_of_string (remove_underscores body);
    Some (if negative then - Z.of_uint n else Z.of_uint n)
  else None.

End PyText.

(** A message as the aggregator unpacks it:
    [category, file_path, year, quarter, item]. *)
Definition progress_message : Type :=
  category * string * pyval * pyval * string.

(** [f"{year}_Q{quarter}"] *)
Definition quarter_folder (year quarter : Z) : string :=
  Py.str year +:+ "_Q" +:+ Py.str quarter.

(** What the per-document worker puts on the queue after its commit: the
    parts of [file_path]. [None]: the unpacking of the folder name raised,
    which the worker catches and logs. *)
Definition individual_filing_message (file_path : string)
    : option progress_message :=
  match PyText.split "_" (OsPath.basename (OsPath.dirname file_path)) with
  | [year; quarter] =>
      Some (individual_filings, file_path, PyStr year, PyStr quarter,
            OsPath.basename file_path)
  | _ => None
  end.

(** What the bulk worker puts on the queue after its commit. [None]: the
    unpacking, the index or a conversion raised, which the worker catches
    and logs. *)
Definition structured_data_message (folder_path : string)
    : option progress_message :=
  match PyText.split "_" (OsPath.basename folder_path) with
  | [year; quarter] =>
      y ← PyText.int year;
      c ← String.get 1 quarter;
      q ← PyText.int (String c EmptyString);
      Some (structured_data, folder_path, PyInt y, PyInt q,
            year +:+ "_Q" +:+ String c EmptyString)
  | _ => None
  end.

(** What one poll of the queue gives the aggregator: a message, with the
    time at which it is marked, or the [Empty] timeout, with what
    [ready()] answers for both result handles then. *)
Inductive queue_event : Type :=
  | Got (now : string) (m : progress_message)
  | Timeout (ready : bool).

(** The [while completed_tasks < total_tasks] loop over the polls of
    [trace]; [None]: the loop is still running when [trace] ends. *)
Fixpoint aggregator_loop (total_tasks completed_tasks : Z)
    (trace : list queue_event) (progress_tracker : ProgressTracker)
    : option ProgressTracker :=
  if completed_tasks <? total_tasks then
    match trace with
    | [] => None
    | Got now (category, _, year, quarter, item) :: rest =>
        aggregator_loop total_tasks (completed_tasks + 1) rest
          (mark_processed now category year quarter item progress_tracker)
    | Timeout ready :: rest =>
        if ready then Some progress_tracker
        else aggregator_loop total_tasks completed_tasks rest progress_tracker
    end
  else Some progress_tracker.

Section Enumeration.

(** [STRUCTURED_DATA_DIR] and [INDIVIDUAL_FILINGS_DIR] of [config], and the
    file system as [os.listdir] reads it ([None]: no such directory). *)
Variables STRUCTURED_DATA_DIR INDIVIDUAL_FILINGS_DIR : string.
Variable listdir : string → option (list string).

Definition structured_data_quarters (quarters : list (Z * Z)) : list (Z * Z) :=
  filter (fun yq => yq.1 < 2024) quarters.

Definition individual_filing_quarters (quarters : list (Z * Z)) : list (Z * Z) :=
  filter (fun yq => yq.1 >= 2024) quarters.

Definition remaining_structured_data (quarters : list (Z * Z))
    (progress_tracker : ProgressTracker) : list string :=
  (fun yq => OsPath.join STRUCTURED_DATA_DIR [quarter_folder yq.1 yq.2])
  <$> filter
        (fun yq =>
           is_processed structured_data (PyInt yq.1) (PyInt yq.2)
             (quarter_folder yq.1 yq.2) progress_tracker = false)
        (structured_data_quarters quarters).

(** The files of one quarter that are still to do. *)
Definition remaining_in_quarter (progress_tracker : ProgressTracker)
    (yq : Z * Z) : option (list string) :=
  match listdir (OsPath.join INDIVIDUAL_FILINGS_DIR
                   [quarter_folder yq.1 yq.2]) with
  | None => None
  | Some names =>
      Some ((fun filename =>
               OsPath.join INDIVIDUAL_FILINGS_DIR
                 [quarter_folder yq.1 yq.2; filename])
            <$> filter
                  (fun filename =>
                     PyText.endswith ".txt" filename = true
                     ∧ is_processed individual_filings (PyInt yq.1)
                         (PyInt yq.2) filename progress_tracker = false)
                  names)
  end.

(** [None]: [os.listdir] raised [FileNotFoundError]. *)
Definition remaining_individual_filings (quarters : list (Z * Z))
    (progress_tracker : ProgressTracker) : option (list string) :=
  mjoin <$> mapM (remaining_in_quarter progress_tracker)
               (individual_filing_quarters quarters).

End Enumeration.

(** ** The ingestion workers: [process_individual_filing] and
    [process_structured_data] *)

(** A row of [infotable_df]: its [ACCESSION_NUMBER], null or not, and the
    twelve columns that go into [holdings]. *)
Record infotable_row : Type := InfotableRow {
  it_accession_number : option string;
  it_holding : holding_data
}.

(** The rows of [INSERT INTO filings ... ON CONFLICT (accession_number) DO
    NOTHING], one after the other. *)
Definition insert_filings (rows : list filing_data) (db : database)
    : database :=
  foldl (fun db fd => (insert_filing fd db).1) db rows.

(** [SELECT accession_number, id FROM filings WHERE accession_number =
    ANY(%s)] *)
Definition select_ids (accession_numbers : list (option string))
    (db : database) : list (string * Z) :=
  (fun f => (accession_number f, id f))
  <$> filter (fun f => Some (accession_number f) ∈ accession_numbers)
        (filings db).

(** [dict(cur.fetchall())]: a later pair overwrites an earlier one. *)
Definition id_dict (pairs : list (string * Z)) : gmap string Z :=
  foldl (fun d kv => <[kv.1 := kv.2]> d) ∅ pairs.

(** The rows of [holdings_data]: those whose accession number the dict
    resolves. *)
Definition holdings_data (accession_to_id : gmap string Z)
    (infotable : list infotable_row) : list holding :=
  omap
    (fun row =>
       accession_number ← it_accession_number row;
       filing_id ← accession_to_id !! accession_number;
       Some (holding_row filing_id (it_holding row)))
    infotable.

Section Workers.

Variable faults : statement → bool.

(** [psycopg2.extras.execute_values]: the rows go out in pages, each page
    one statement of the same kind; for no rows nothing is sent. *)
Definition execute_values {A} (st : statement) (f : database → database)
    (rows : list A) : tx unit :=
  match rows with
  | [] => mret ()
  | _ => execute faults st f
  end.

(** [parsed] is the result of [parse_xml_filing(file_path)]. The result is
    the database after the connection is closed and what was put on the
    queue: the parts of [file_path] are taken after the commit, inside the
    [try]. *)
Definition process_individual_filing
    (parsed : option filing_data * list holding_data)
    (file_path : string) (db : database)
    : database * list progress_message :=
  match parsed with
  | (None, _) => (db, [])
  | (Some filing_data, holdings) =>
      let body : tx (list progress_message) :=
        try_except
          (filing_id ←
             execute_returning faults InsertFiling (insert_filing filing_data);
           match filing_id with
           | Some filing_id =>
               let rows := holding_row filing_id <$> holdings in
               execute_values InsertHoldings (insert_holdings rows) rows
           | None => mret ()
           end;;
           commit;;
           match individual_filing_message file_path with
           | Some m => mret [m]
           | None => raise (ValueError "folder name")
           end)
          (fun e => rollback;; mret [])
      in
      match body (connect db) with
      | (Ok put, conn) => (committed conn, put)
      | (Raise _, conn) => (committed conn, [])
      end
  end.

(** [loaded] is what the first part of the function hands to the second:
    the rows of [filings_df] and of [infotable_df], or [None] when reading,
    joining or converting the files, or connecting, raised. The result is
    the database after the connection is closed and what was put on the
    queue. *)
Definition process_structured_data
    (loaded : option (list filing_data * list infotable_row))
    (folder_path : string) (db : database)
    : database * list progress_message :=
  match loaded with
  | None => (db, [])
  | Some (filings_df, infotable_df) =>
      let body : tx (list progress_message) :=
        try_except
          (execute_values InsertFiling (insert_filings filings_df) filings_df;;
           let accession_numbers :=
             remove_dups (it_accession_number <$> infotable_df) in
           fetched ← query (select_ids accession_numbers);
           let accession_to_id := id_dict fetched in
           let holdings_data := holdings_data accession_to_id infotable_df in
           execute_values InsertHoldings (insert_holdings holdings_data)
             holdings_data;;
           commit;;
           match structured_data_message folder_path with
           | Some m => mret [m]
           | None => raise (ValueError "folder name")
           end)
          (fun e => rollback;; mret [])
      in
      match body (connect db) with
      | (Ok put, conn) => (committed conn, put)
      | (Raise _, conn) => (committed conn, [])
      end
  end.

End Workers.

(** How a call of [process_13f_data] goes. *)
Inductive dispatch_outcome : Type :=
  | Finished (progress_tracker : ProgressTracker)
  | ListdirRaised
  | StillPolling.

(** [process_13f_data(quarters)]: [file] is the progress file at the start,
    [now] and [now_end] the times of the first and of the last
    [datetime.now()], and [trace] what the polls of the queue give, which is
    up to the workers. The progress bars are left out. *)
Definition process_13f_data (STRUCTURED_DATA_DIR INDIVIDUAL_FILINGS_DIR : string)
    (listdir : string → option (list string)) (now now_end : string)
    (file : option progress) (quarters : list (Z * Z))
    (trace : list queue_event) : dispatch_outcome :=
  let progress_tracker := init now file in
  let remaining_structured_data :=
    remaining_structured_data STRUCTURED_DATA_DIR quarters progress_tracker in
  match remaining_individual_filings INDIVIDUAL_FILINGS_DIR listdir quarters
          progress_tracker with
  | None => ListdirRaised
  | Some remaining_individual_filings =>
      let total_tasks :=
        Z.of_nat (length remaining_structured_data)
        + Z.of_nat (length remaining_individual_filings) in
      match aggregator_loop total_tasks 0 trace progress_tracker with
      | None => StillPolling
      | Some progress_tracker => Finished (save_progress now_end progress_tracker)
      end
  end.

(** ** Notions used in the further properties *)

(** Every list of the store is free of duplicates. *)
Definition lists_nodup (p : progress) : Prop :=
  NoDup (processed (structured p)) ∧ NoDup (failed (structured p))
  ∧ ∀ key l, individual p !! key = Some l →
      NoDup (processed l) ∧ NoDup (failed l).

(** What the tables keep between transactions: accession numbers and ids
    are unique, every id came out of the sequence, and every holding points
    at a stored filing. *)
Definition db_ok (db : database) : Prop :=
  NoDup (accession_number <$> filings db)
  ∧ NoDup (id <$> filings db)
  ∧ (∀ f, f ∈ filings db → id f < filings_id_seq db)
  ∧ ∀ h, h ∈ holdings db → filing_id h ∈ id <$> filings db.

(** The aggregator's reaction to one message. *)
Definition mark_message (now : string) (m : progress_message)
    (progress_tracker : ProgressTracker) : ProgressTracker :=
  let '(category, _, year, quarter, item) := m in
  mark_processed now category year quarter item progress_tracker.

(** Marking messages one after the other, each with its time. *)
Definition mark_all (messages : list (string * progress_message))
    (progress_tracker : ProgressTracker) : ProgressTracker :=
  foldl (fun t nm => mark_message nm.1 nm.2 t) progress_tracker messages.

(** The messages of a trace up to the first timeout at which the pool is
    ready. *)
Fixpoint received (trace : list queue_event)
    : list (string * progress_message) :=
  match trace with
  | [] => []
  | Got now m :: rest => (now, m) :: received rest
  | Timeout true :: _ => []
  | Timeout false :: rest => received rest
  end.

(** [category] of a message. *)
Definition message_category (m : progress_message) : category :=
  let '(category, _, _, _, _) := m in category.

(** The holdings rows the bulk worker builds from [infotable_df] once the
    rows of [filings_df] are in. *)
Definition ingested_holdings (filings_df : list filing_data)
    (infotable_df : list infotable_row) (db : database) : list holding :=
  holdings_data
    (id_dict
       (select_ids (remove_dups (it_accession_number <$> infotable_df))
          (insert_filings filings_df db)))
    infotable_df.

(** The tables once both inserts of the bulk worker are in. *)
Definition ingested (filings_df : list filing_data)
    (infotable_df : list infotable_row) (db : database) : database :=
  insert_holdings (ingested_holdings filings_df infotable_df db)
    (insert_filings filings_df db).

(** * Theorems *)

(** Unfolds the transaction monad down to pairs of a result and a
    connection. *)
Ltac unfold_tx :=
  unfold try_except, mbind, tx_bind, mret, tx_ret, query, lift, rollback,
    raise, commit in *.

(** ** Check digit *)

Lemma value_of_alphanumeric c :
  Spec.alphanumeric c = true →
  value_of c = Spec.char_value c ∧ 0 ≤ value_of c ≤ 35 ∧ valued c = true.
Proof.
  destruct c as [[] [] [] [] [] [] [] []]; vm_compute;
    first [ discriminate | intros _; repeat split; congruence ].
Qed.

(** On a valued character the expression of the source has the value
    [value_of] gives; on another one that [isalnum] accepts, [int] raises. *)
Lemma char_value_valued c :
  valued c = true → char_value c = Ok (value_of c).
Proof. by destruct c as [[] [] [] [] [] [] [] []]. Qed.

Lemma char_value_refused c :
  Py.isalnum c = true → valued c = false →
  ∃ msg, char_value c = Raise (ValueError msg).
Proof.
  destruct c as [[] [] [] [] [] [] [] []]; try done; intros _ _;
    vm_compute; eauto.
Qed.

Lemma valued_isalnum c : valued c = true → Py.isalnum c = true.
Proof. unfold valued. by intros [? _]%andb_true_iff. Qed.

Lemma all_valued_isalnum s :
  Py.all_chars valued s = true → Py.all_chars Py.isalnum s = true.
Proof.
  induction s as [| c s IH]; simpl; [done |].
  intros [Hc Hs]%andb_true_iff. by rewrite (valued_isalnum c Hc), IH.
Qed.

Lemma values_cons c s :
  values (String c s)
  = (v ← char_value c; vs ← values s; Ok (v :: vs)).
Proof. reflexivity. Qed.

Lemma values_valued s :
  Py.all_chars valued s = true → values s = Ok (values_of s).
Proof.
  induction s as [| c s IH]; [done |]. simpl Py.all_chars.
  intros [Hc Hs]%andb_true_iff.
  by rewrite values_cons, (char_value_valued c Hc), (IH Hs).
Qed.

Lemma values_refused s :
  Py.all_chars Py.isalnum s = true → Py.all_chars valued s = false →
  ∃ msg, values s = Raise (ValueError msg).
Proof.
  induction s as [| c s IH]; [done |]. simpl Py.all_chars.
  intros [Hc Hs]%andb_true_iff Hv. rewrite values_cons.
  destruct (valued c) eqn:Hvc.
  - rewrite (char_value_valued c Hvc). simpl in Hv.
    destruct (IH Hs Hv) as [msg ->]. simpl. eauto.
  - destruct (char_value_refused c Hc Hvc) as [msg ->]. simpl. eauto.
Qed.

Lemma digit_sum_two_digits v :
  0 ≤ v ≤ 99 → Spec.digit_sum v = v / 10 + v mod 10.
Proof.
  intros Hv.
  assert (Hall : forallb (fun n => Spec.digit_sum (Z.of_nat n)
                            =? Z.of_nat n / 10 + Z.of_nat n mod 10)
                   (seq 0 100) = true) by (vm_compute; reflexivity).
  rewrite forallb_forall in Hall.
  specialize (Hall (Z.to_nat v)).
  rewrite Z2Nat.id in Hall by lia.
  apply Z.eqb_eq, Hall, in_seq. lia.
Qed.

Lemma str_one_digit d :
  0 ≤ d ≤ 9 → Py.str d = String (ascii_of_N (Z.to_N (48 + d))) EmptyString.
Proof.
  intros Hd.
  assert (Hcases : d = 0 ∨ d = 1 ∨ d = 2 ∨ d = 3 ∨ d = 4 ∨ d = 5 ∨ d = 6
                   ∨ d = 7 ∨ d = 8 ∨ d = 9) by lia.
  repeat (destruct Hcases as [-> | Hcases]; [reflexivity |]).
  subst d. reflexivity.
Qed.

Lemma all_chars_alphanumeric stem :
  Py.all_chars Spec.alphanumeric stem = true →
  Py.all_chars valued stem = true.
Proof.
  induction stem as [| c rest IH]; simpl; [done |].
  intros [Hc Hrest]%andb_true_iff.
  apply value_of_alphanumeric in Hc as (_ & _ & ->). simpl. auto.
Qed.

Lemma str_isalnum_all_chars s :
  s ≠ EmptyString → Py.str_isalnum s = Py.all_chars Py.isalnum s.
Proof. by destruct s. Qed.

Lemma odd_of_nat i : Z.odd (Z.of_nat i) = Nat.odd i.
Proof.
  induction i as [| i IH]; [reflexivity |].
  rewrite Nat2Z.inj_succ, Z.odd_succ, Nat.odd_succ.
  by rewrite <- Z.negb_odd, <- Nat.negb_odd, IH.
Qed.

Lemma check_loop_digit_sums stem i total :
  Py.all_chars Spec.alphanumeric stem = true →
  check_loop (Z.of_nat i) (values_of stem) total
  = total + foldr Z.add 0 (Spec.digit_sums i stem).
Proof.
  revert i total. induction stem as [| c rest IH]; intros i total; simpl.
  - intros _. lia.
  - intros [Hc Hrest]%andb_true_iff.
    apply value_of_alphanumeric in Hc as (Hval & Hrange & _).
    replace (Z.of_nat i + 1) with (Z.of_nat (S i)) by lia.
    rewrite IH by done. rewrite <- Hval.
    rewrite <- Zodd_mod, odd_of_nat.
    destruct (Nat.odd i); rewrite digit_sum_two_digits by lia.
    + replace (2 * value_of c) with (value_of c * 2) by lia. lia.
    + lia.
Qed.

Lemma length_8_nonempty (s : string) : String.length s = 8%nat → s ≠ EmptyString.
Proof. by destruct s. Qed.

Lemma compute_check_digit_ok stem :
  String.length stem = 8%nat →
  Py.all_chars valued stem = true →
  compute_check_digit stem
  = Ok (Py.str ((10 - check_loop 0 (values_of stem) 0 mod 10) mod 10)).
Proof.
  intros Hlen Hall. unfold compute_check_digit, Py.len.
  rewrite str_isalnum_all_chars by by apply length_8_nonempty.
  by rewrite Hlen, (all_valued_isalnum _ Hall), (values_valued _ Hall).
Qed.

(** C1. On an 8-character stem over the 36 alphanumeric characters
    [compute_check_digit] returns the check digit as the specification
    defines it (character values, doubling at odd indices, digit sums,
    [(10 - total mod 10) mod 10]), a one-character string; and it returns
    "0" on "03783310". *)
Theorem compute_check_digit_spec stem :
  String.length stem = 8%nat →
  Py.all_chars Spec.alphanumeric stem = true →
  compute_check_digit stem = Ok (Spec.check_digit stem)
  ∧ String.length (Spec.check_digit stem) = 1%nat
  ∧ compute_check_digit "03783310" = Ok "0"%string.
Proof.
  intros Hlen Hall. split; [| split; reflexivity].
  rewrite compute_check_digit_ok by auto using all_chars_alphanumeric.
  change 0 with (Z.of_nat 0) at 1.
  rewrite check_loop_digit_sums by done. rewrite Z.add_0_l.
  fold (Spec.total stem). unfold Spec.check_digit.
  rewrite str_one_digit; [done |].
  pose proof (Z.mod_pos_bound (10 - Spec.total stem mod 10) 10). lia.
Qed.

Lemma compute_check_digit_spec_witness :
  compute_check_digit "03783310" = Ok (Spec.check_digit "03783310")
  ∧ String.length (Spec.check_digit "03783310") = 1%nat
  ∧ compute_check_digit "03783310" = Ok "0"%string.
Proof. apply (compute_check_digit_spec "03783310"); reflexivity. Defined.

Lemma compute_check_digit_raises_iff cusip :
  (∃ msg, compute_check_digit cusip = Raise (ValueError msg))
  ↔ String.length cusip ≠ 8%nat ∨ Py.all_chars valued cusip = false.
Proof.
  split.
  - intros [msg Hraise].
    destruct (decide (String.length cusip = 8%nat)) as [Hlen | Hlen]; [| by left].
    right. destruct (Py.all_chars valued cusip) eqn:Hall; [| done].
    by rewrite compute_check_digit_ok in Hraise.
  - unfold compute_check_digit, Py.len. intros Hcases.
    destruct (Z.of_nat (String.length cusip) =? 8) eqn:Hlen; simpl; [| eauto].
    destruct Hcases as [? | Hall]; [lia |].
    rewrite str_isalnum_all_chars by (apply length_8_nonempty; lia).
    destruct (Py.all_chars Py.isalnum cusip) eqn:Halnum; simpl; [| eauto].
    destruct (values_refused cusip Halnum Hall) as [msg ->]. simpl. eauto.
Qed.

Lemma compute_check_digit_one_digit cusip :
  String.length cusip = 8%nat →
  Py.all_chars valued cusip = true →
  ∃ d, 0 ≤ d ≤ 9
       ∧ compute_check_digit cusip
         = Ok (String (ascii_of_N (Z.to_N (48 + d))) EmptyString).
Proof.
  intros Hlen Hall. rewrite compute_check_digit_ok by done.
  set (d := (10 - check_loop 0 (values_of cusip) 0 mod 10) mod 10).
  assert (0 ≤ d ≤ 9) by (pose proof (Z.mod_pos_bound
    (10 - check_loop 0 (values_of cusip) 0 mod 10) 10); lia).
  exists d. by rewrite str_one_digit.
Qed.

Lemma left_padding_loop_raises chars c cusip ftd_cusips :
  Py.all_chars valued cusip = false →
  ∃ msg, left_padding_loop (c :: chars) cusip ftd_cusips = Raise (ValueError msg).
Proof.
  intros Hall. simpl.
  destruct (proj2 (compute_check_digit_raises_iff (String c cusip))) as [msg ->].
  - right. simpl. rewrite Hall. apply andb_false_r.
  - simpl. eauto.
Qed.

Lemma find_valid_cusips_raises_7 cusip ftd_cusips :
  String.length cusip = 7%nat → Py.all_chars valued cusip = false →
  ∃ msg, find_valid_cusips cusip ftd_cusips = Raise (ValueError msg).
Proof.
  intros Hlen Hall. unfold find_valid_cusips, Py.len. rewrite Hlen.
  change (Z.of_nat 7 =? 8) with false. change (Z.of_nat 7 =? 7) with true.
  cbv iota.
  destruct (left_padding_loop_raises
              (List.tl loop_chars) "A" cusip ftd_cusips Hall) as [msg Hmsg].
  change ("A"%char :: List.tl loop_chars) with loop_chars in Hmsg.
  rewrite Hmsg. simpl. eauto.
Qed.

(** C10 (amended). [compute_check_digit] raises [ValueError] exactly when its input is
    not 8 characters long or holds a character without a value: one that
    [str.isalnum] refuses, or a digit of [str.isdigit] that [int] refuses.
    On every other input it returns a one-digit string, and
    [find_valid_cusips] raises on every 7-character code that holds a
    character without a value. *)
Theorem compute_check_digit_raises cusip ftd_cusips :
  ((∃ msg, compute_check_digit cusip = Raise (ValueError msg))
   ↔ String.length cusip ≠ 8%nat ∨ Py.all_chars valued cusip = false)
  ∧ (String.length cusip = 8%nat ∧ Py.all_chars valued cusip = true →
     ∃ d, 0 ≤ d ≤ 9
          ∧ compute_check_digit cusip
            = Ok (String (ascii_of_N (Z.to_N (48 + d))) EmptyString))
  ∧ (String.length cusip = 7%nat ∧ Py.all_chars valued cusip = false →
     ∃ msg, find_valid_cusips cusip ftd_cusips = Raise (ValueError msg)).
Proof.
  split; [apply compute_check_digit_raises_iff |]. split.
  - intros [Hlen Hall]. by apply compute_check_digit_one_digit.
  - intros [Hlen Hall]. by apply find_valid_cusips_raises_7.
Qed.

Lemma compute_check_digit_raises_witness :
  ∃ msg, find_valid_cusips "ABC-EFG" ∅ = Raise (ValueError msg).
Proof.
  apply (proj2 (proj2 (compute_check_digit_raises "ABC-EFG" ∅))).
  split; reflexivity.
Defined.

(** The characters that [str.isalnum] accepts are more than the 36 of the
    specification, and not all of them have a value: with the capital E
    with acute accent (code point 201) as its last character the stem
    "0378331" gets the check digit "9", with the superscript two (code
    point 178), which [str.isalnum] and [str.isdigit] accept, [int] raises
    [ValueError], and with the small letter "a" the check digit is "8". *)
Lemma compute_check_digit_other_characters :
  Py.str_isalnum ("0378331" +:+ String "201" "") = true
  ∧ Spec.alphanumeric "201" = false
  ∧ compute_check_digit ("0378331" +:+ String "201" "") = Ok "9"%string
  ∧ Py.str_isalnum ("0378331" +:+ String "178" "") = true
  ∧ compute_check_digit ("0378331" +:+ String "178" "")
    = Raise (ValueError ("invalid literal for int() with base 10: '"
                         +:+ String "178" "'"))
  ∧ Spec.alphanumeric "a" = false
  ∧ compute_check_digit "0378331a" = Ok "8"%string.
Proof. by vm_compute. Qed.

(** ** Checksum-assisted repair *)

Lemma all_chars_app p s t :
  Py.all_chars p (s +:+ t) = Py.all_chars p s && Py.all_chars p t.
Proof.
  induction s as [| c rest IH]; simpl; [done |].
  by rewrite IH, andb_assoc.
Qed.

Lemma string_length_app s t :
  String.length (s +:+ t) = (String.length s + String.length t)%nat.
Proof. induction s as [| c rest IH]; simpl; [done | by rewrite IH]. Qed.

Lemma left_padding_loop_returns chars cusip ftd_cusips :
  String.length cusip = 7%nat →
  Py.all_chars valued cusip = true →
  Forall (fun c => valued c = true) chars →
  ∃ found, left_padding_loop chars cusip ftd_cusips = Ok found.
Proof.
  intros Hlen Hall. induction 1 as [| c chars Hc _ IH]; simpl; [eauto |].
  rewrite compute_check_digit_ok; simpl; [| by rewrite Hlen | by rewrite Hc, Hall].
  case_decide; eauto.
Qed.

Lemma loop_chars_isalnum : Forall (fun c => valued c = true) loop_chars.
Proof. by repeat constructor. Qed.

Lemma find_valid_cusips_returns cusip ftd_cusips :
  Py.all_chars valued cusip = true →
  ∃ fixed, find_valid_cusips cusip ftd_cusips = Ok fixed.
Proof.
  intros Hall. unfold find_valid_cusips, Py.len.
  destruct (Z.of_nat (String.length cusip) =? 8) eqn:H8.
  { rewrite compute_check_digit_ok by (done || lia). simpl. eauto. }
  destruct (Z.of_nat (String.length cusip) =? 7) eqn:H7; [| eauto].
  assert (Hlen : String.length cusip = 7%nat) by lia.
  destruct (left_padding_loop_returns loop_chars cusip ftd_cusips)
    as [[full |] ->]; auto using loop_chars_isalnum; simpl; [eauto |].
  rewrite compute_check_digit_ok; simpl; [eauto | |].
  - rewrite string_length_app, Hlen. reflexivity.
  - rewrite all_chars_app, Hall. reflexivity.
Qed.

Lemma left_padding_loop_cons c chars cusip ftd_cusips :
  String.length cusip = 7%nat →
  Py.all_chars valued cusip = true →
  valued c = true →
  left_padding_loop (c :: chars) cusip ftd_cusips
  = if decide (with_check_digit (String c cusip) ∈ ftd_cusips)
    then Ok (Some (with_check_digit (String c cusip)))
    else left_padding_loop chars cusip ftd_cusips.
Proof.
  intros Hlen Hall Hc. simpl.
  rewrite compute_check_digit_ok; [done | by simpl; rewrite Hlen |].
  simpl. by rewrite Hc, Hall.
Qed.

(** The prefix search returns the completion of the first character of
    [chars] whose completion is in the reference set. *)
Lemma left_padding_loop_first chars1 c chars2 cusip ftd_cusips :
  String.length cusip = 7%nat →
  Py.all_chars valued cusip = true →
  Forall (fun c => valued c = true) (chars1 ++ c :: chars2) →
  (∀ c', c' ∈ chars1 → with_check_digit (String c' cusip) ∉ ftd_cusips) →
  with_check_digit (String c cusip) ∈ ftd_cusips →
  left_padding_loop (chars1 ++ c :: chars2) cusip ftd_cusips
  = Ok (Some (with_check_digit (String c cusip))).
Proof.
  intros Hlen Hall. induction chars1 as [| c1 chars1 IH]; simpl app.
  - intros [Hc _]%Forall_cons _ Hin.
    rewrite left_padding_loop_cons by done. by rewrite decide_True.
  - intros [Hc1 Hrest]%Forall_cons Hnone Hin.
    rewrite left_padding_loop_cons by done.
    rewrite decide_False by (apply Hnone; by left).
    apply IH; [done | | done]. intros c' Hc'. apply Hnone. by right.
Qed.

Lemma left_padding_loop_none chars cusip ftd_cusips :
  String.length cusip = 7%nat →
  Py.all_chars valued cusip = true →
  Forall (fun c => valued c = true) chars →
  (∀ c, c ∈ chars → with_check_digit (String c cusip) ∉ ftd_cusips) →
  left_padding_loop chars cusip ftd_cusips = Ok None.
Proof.
  intros Hlen Hall. induction 1 as [| c chars Hc _ IH]; [done |].
  intros Hnone. rewrite left_padding_loop_cons by done.
  rewrite decide_False by (apply Hnone; by left).
  apply IH. intros c' Hc'. apply Hnone. by right.
Qed.

(** What [find_valid_cusips] does on a 7-character code once no prefix
    completes it: one attempt, with the suffix "9". *)
Lemma find_valid_cusips_no_prefix cusip ftd_cusips :
  String.length cusip = 7%nat →
  Py.all_chars valued cusip = true →
  (∀ c, c ∈ loop_chars → with_check_digit (String c cusip) ∉ ftd_cusips) →
  find_valid_cusips cusip ftd_cusips
  = Ok (if decide (with_check_digit (cusip +:+ "9") ∈ ftd_cusips)
        then Some (with_check_digit (cusip +:+ "9")) else None).
Proof.
  intros Hlen Hall Hnone. unfold find_valid_cusips, Py.len. rewrite Hlen.
  change (Z.of_nat 7 =? 8) with false. change (Z.of_nat 7 =? 7) with true.
  cbv iota.
  rewrite left_padding_loop_none by auto using loop_chars_isalnum.
  change (String char_after_loop EmptyString) with "9"%string. cbn [mbind result_bind].
  rewrite compute_check_digit_ok; [done | |].
  - by rewrite string_length_app, Hlen.
  - by rewrite all_chars_app, Hall.
Qed.

(** ** Short-code repair *)

Lemma py_dict_snoc l k v : py_dict (l ++ [(k, v)]) = <[k := v]> (py_dict l).
Proof. unfold py_dict. by rewrite foldl_app. Qed.

Lemma py_dict_lookup l k v :
  NoDup l.*1 → (k, v) ∈ l → py_dict l !! k = Some v.
Proof.
  induction l as [| [k' v'] l IH] using rev_ind; [by intros _ ?%elem_of_nil |].
  rewrite fmap_app, NoDup_app, py_dict_snoc. simpl.
  intros (Hnodup & Hfresh & _) [Hin | Hlast%list_elem_of_singleton]%elem_of_app.
  - rewrite lookup_insert_ne; [by apply IH |].
    intros ->. apply (Hfresh k); [| by left].
    by apply (list_elem_of_fmap_2 fst _ (k, v)).
  - injection Hlast as -> ->. apply lookup_insert_eq.
Qed.

Lemma map_elements_ok {A B} (f : A → result B) (g : A → B) (l : list A) :
  (∀ x, x ∈ l → f x = Ok (g x)) → map_elements f l = Ok (g <$> l).
Proof.
  induction l as [| x l IH]; intros Hf; simpl; [done |].
  rewrite Hf by left. simpl. rewrite IH; [done |].
  intros y Hy. apply Hf. by right.
Qed.

Section Tagged.

Context {B : Type} (g : string → B).

Lemma filter_tagged (Q : string * B → Prop) `{!∀ p, Decision (Q p)}
    (l : list string) :
  filter Q ((fun c => (c, g c)) <$> l)
  = (fun c => (c, g c)) <$> filter (fun c => Q (c, g c)) l.
Proof.
  induction l as [| c l IH]; [done |].
  rewrite fmap_cons, !filter_cons.
  destruct (decide (Q (c, g c))); by rewrite IH.
Qed.

Lemma fst_tagged (l : list string) : ((fun c => (c, g c)) <$> l).*1 = l.
Proof. induction l as [| c l IH]; csimpl; [done | by f_equal]. Qed.

End Tagged.

Lemma omap_tagged_fst (k : string → option string) (l : list string) :
  (omap (fun p : string * option string => pair p.1 <$> p.2)
        ((fun c => (c, k c)) <$> l)).*1
  = filter (fun c => is_Some (k c)) l.
Proof.
  induction l as [| c l IH]; [done |].
  rewrite fmap_cons, filter_cons. csimpl.
  destruct (k c) eqn:Hk; csimpl; [by f_equal | done].
Qed.

Lemma omap_tagged_elem (k : string → option string) (l : list string) c v :
  c ∈ l → k c = Some v →
  (c, v) ∈ omap (fun p : string * option string => pair p.1 <$> p.2)
             ((fun c => (c, k c)) <$> l).
Proof.
  intros Hc Hk. apply list_elem_of_omap. exists (c, k c). split.
  - by apply (list_elem_of_fmap_2 (fun c => (c, k c))).
  - simpl. by rewrite Hk.
Qed.

Lemma short_cusips_ok ftd_cusips df :
  lengths_fit ftd_cusips df = true →
  short_cusips ftd_cusips df = Ok (short_codes ftd_cusips df).
Proof.
  intros Hfit. unfold short_cusips, short_codes, lengths_fit in *.
  rewrite (map_elements_ok _ (fun r => (df_cusip r, Py.len (df_cusip r)))).
  2:{ intros r Hr. rewrite forallb_forall in Hfit. unfold cusip_length.
      by rewrite (Hfit r) by by apply list_elem_of_In. }
  clear Hfit. simpl. do 2 f_equal.
  induction (df_remaining ftd_cusips df) as [| r l IH]; [done |].
  rewrite fmap_cons, !filter_cons. simpl. case_decide; csimpl; by rewrite IH.
Qed.

Lemma find_valid_cusips_raises cusip ftd_cusips :
  String.length cusip = 7%nat ∨ String.length cusip = 8%nat →
  Py.all_chars valued cusip = false →
  ∃ msg, find_valid_cusips cusip ftd_cusips = Raise (ValueError msg).
Proof.
  intros [Hlen | Hlen] Hall; [by apply find_valid_cusips_raises_7 |].
  unfold find_valid_cusips, Py.len. rewrite Hlen.
  change (Z.of_nat 8 =? 8) with true. cbv iota.
  destruct (proj2 (compute_check_digit_raises_iff cusip)) as [msg ->];
    [by right | simpl; eauto].
Qed.

(** [find_valid_cusips] returns, or raises [ValueError]; it raises on the
    codes of 7 or 8 characters that hold a character without a value. *)
Lemma find_valid_cusips_cases cusip ftd_cusips :
  (((String.length cusip = 7%nat ∨ String.length cusip = 8%nat)
    → Py.all_chars valued cusip = true)
   ∧ ∃ fixed, find_valid_cusips cusip ftd_cusips = Ok fixed)
  ∨ ((String.length cusip = 7%nat ∨ String.length cusip = 8%nat)
     ∧ Py.all_chars valued cusip = false
     ∧ ∃ msg, find_valid_cusips cusip ftd_cusips = Raise (ValueError msg)).
Proof.
  destruct (Py.all_chars valued cusip) eqn:Hall.
  { left. split; [done |]. by apply find_valid_cusips_returns. }
  destruct (decide (String.length cusip = 7%nat ∨ String.length cusip = 8%nat))
    as [Hlen | Hlen].
  { right. split; [done |]. split; [done |].
    by apply find_valid_cusips_raises. }
  left. split; [done |]. unfold find_valid_cusips, Py.len.
  destruct (Z.eqb_spec (Z.of_nat (String.length cusip)) 8); [lia |].
  destruct (Z.eqb_spec (Z.of_nat (String.length cusip)) 7); [lia |]. eauto.
Qed.

Lemma map_elements_raises {A B} (f : A → result B) (l : list A) x :
  (∀ y, y ∈ l →
        (∃ b, f y = Ok b) ∨ ∃ msg, f y = Raise (ValueError msg)) →
  x ∈ l → (∃ msg, f x = Raise (ValueError msg)) →
  ∃ msg, map_elements f l = Raise (ValueError msg).
Proof.
  induction l as [| y l IH]; intros Hall Hx Hraise; [by apply elem_of_nil in Hx |].
  simpl. destruct (Hall y) as [[b Hb] | [msg Hmsg]]; [by left | |].
  - rewrite Hb. simpl. apply elem_of_cons in Hx as [-> | Hx].
    + destruct Hraise as [msg Hmsg]. congruence.
    + destruct IH as [msg ->]; [| done | done | simpl; eauto].
      intros z Hz. apply Hall. by right.
  - rewrite Hmsg. simpl. eauto.
Qed.

Lemma checksum_codes_elem ftd_cusips df c :
  c ∈ checksum_codes ftd_cusips df
  ↔ c ∈ short_codes ftd_cusips df
    ∧ (Pl.zfill 9 c ∉ ftd_cusips)
    ∧ (Pl.pad_end 9 "0" c ∉ ftd_cusips)
    ∧ (String.length c = 7%nat ∨ String.length c = 8%nat).
Proof. unfold checksum_codes. rewrite list_elem_of_filter. tauto. Qed.

Lemma forallb_elem {A} (p : A → bool) (l : list A) :
  forallb p l = true ↔ ∀ x, x ∈ l → p x = true.
Proof.
  rewrite forallb_forall. split; intros H x Hx; apply H;
    by apply list_elem_of_In.
Qed.

Lemma forallb_false_elem {A} (p : A → bool) (l : list A) :
  forallb p l = false → ∃ x, x ∈ l ∧ p x = false.
Proof.
  induction l as [| y l IH]; simpl; [done |].
  destruct (p y) eqn:Hy; simpl.
  - intros (x & Hx & Hp)%IH. exists x. split; [by right | done].
  - intros _. exists y. split; [by left | done].
Qed.

(** The checksum stage, once the lengths fit: applied to the codes that
    neither padding matched. *)
Lemma cusip_fixes_lookup ftd_cusips df :
  lengths_fit ftd_cusips df = true →
  forallb (Py.all_chars valued) (checksum_codes ftd_cusips df) = true →
  ∃ fixes,
    cusip_fixes ftd_cusips df = Ok fixes
    ∧ ∀ c, c ∈ short_codes ftd_cusips df →
           fixes !! c = Some (Spec.short_code_repair ftd_cusips c).
Proof.
  intros Hfit Hvalued. rewrite forallb_elem in Hvalued.
  unfold cusip_fixes. rewrite short_cusips_ok by done.
  change (Ok (short_codes ftd_cusips df) ≫= ?k)
    with (k (short_codes ftd_cusips df)).
  cbv beta zeta.
  pose proof (NoDup_remove_dups
    (df_cusip <$> filter (fun r => Py.len (df_cusip r) < 9)
       (df_remaining ftd_cusips df))) as Hnodup.
  fold (short_codes ftd_cusips df) in Hnodup.
  set (codes := short_codes ftd_cusips df) in *.
  rewrite !(filter_tagged (Pl.zfill 9)), fst_tagged.
  rewrite !(filter_tagged (Pl.pad_end 9 "0")), fst_tagged. simpl.
  rewrite (map_elements_ok _ (fun c => (c, checksum_column ftd_cusips c))).
  2:{ intros c [Hp [Hz Hc]%list_elem_of_filter]%list_elem_of_filter.
      simpl in Hp, Hz. unfold checksum_column.
      destruct (find_valid_cusips_cases c ftd_cusips)
        as [[_ [fixed ->]] | (Hlen & Hall & _)]; [done |].
      rewrite Hvalued in Hall; [done |].
      by apply checksum_codes_elem. }
  simpl. rewrite (filter_tagged (checksum_column ftd_cusips)), fst_tagged. simpl.
  eexists. split; [done |].
  intros c Hc. apply py_dict_lookup.
  - rewrite !fmap_app, omap_tagged_fst, !fst_tagged.
    rewrite !NoDup_app.
    repeat split; try (repeat apply NoDup_filter; done).
    all: intros x; rewrite ?elem_of_app, ?list_elem_of_filter.
    all: intros Hx Hin; intuition idtac.
    all: match goal with H : is_Some _ |- _ => destruct H; congruence end.
  - unfold Spec.short_code_repair. rewrite !elem_of_app.
    destruct (decide (Pl.zfill 9 c ∈ ftd_cusips)) as [Hz | Hz].
    { left. apply (list_elem_of_fmap_2 (fun c => (c, Pl.zfill 9 c))).
      by apply list_elem_of_filter. }
    destruct (decide (Pl.pad_end 9 "0" c ∈ ftd_cusips)) as [Hr | Hr].
    { right; left.
      apply (list_elem_of_fmap_2 (fun c => (c, Pl.pad_end 9 "0" c))).
      by rewrite !list_elem_of_filter. }
    right; right.
    destruct (checksum_column ftd_cusips c) as [fixed |] eqn:Hk.
    + left. apply list_elem_of_omap. exists (c, Some fixed). split.
      * rewrite <- Hk.
        apply (list_elem_of_fmap_2 (fun c => (c, checksum_column ftd_cusips c))).
        by rewrite !list_elem_of_filter.
      * unfold checksum_column in Hk. simpl.
        by destruct (find_valid_cusips c ftd_cusips) as [[] |]; simplify_eq.
    + right. unfold checksum_column in Hk.
      replace (match find_valid_cusips c ftd_cusips with
               | Ok (Some fixed_cusip) => fixed_cusip
               | _ => Pl.zfill 9 c
               end) with (Pl.zfill 9 c)
        by (by destruct (find_valid_cusips c ftd_cusips) as [[] |]).
      apply (list_elem_of_fmap_2 (fun c => (c, Pl.zfill 9 c))).
      by rewrite !list_elem_of_filter.
Qed.

(** A code of the checksum stage that holds a character without a value
    makes the whole repair raise. *)
Lemma cusip_fixes_raises ftd_cusips df :
  lengths_fit ftd_cusips df = true →
  forallb (Py.all_chars valued) (checksum_codes ftd_cusips df) = false →
  ∃ msg, cusip_fixes ftd_cusips df = Raise (ValueError msg).
Proof.
  intros Hfit (c & Hc & Hall)%forallb_false_elem.
  apply checksum_codes_elem in Hc as (Hc & Hz & Hp & Hlen).
  unfold cusip_fixes. rewrite short_cusips_ok by done.
  change (Ok (short_codes ftd_cusips df) ≫= ?k)
    with (k (short_codes ftd_cusips df)).
  cbv beta zeta.
  rewrite !(filter_tagged (Pl.zfill 9)), fst_tagged.
  rewrite !(filter_tagged (Pl.pad_end 9 "0")), fst_tagged. simpl.
  destruct (map_elements_raises
              (fun c => fixed ← find_valid_cusips c ftd_cusips; Ok (c, fixed))
              (filter (fun c => Pl.pad_end 9 "0" c ∉ ftd_cusips)
                 (filter (fun c => Pl.zfill 9 c ∉ ftd_cusips)
                    (short_codes ftd_cusips df))) c) as [msg Hmsg].
  - intros y _. destruct (find_valid_cusips_cases y ftd_cusips)
      as [[_ [fixed ->]] | (_ & _ & msg & ->)]; simpl; eauto.
  - by rewrite !list_elem_of_filter.
  - destruct (find_valid_cusips_raises c ftd_cusips Hlen Hall) as [msg ->].
    simpl. eauto.
  - simpl in Hmsg. rewrite Hmsg. simpl. eauto.
Qed.

Lemma left_padding_loop_sound chars cusip ftd_cusips fixed :
  left_padding_loop chars cusip ftd_cusips = Ok (Some fixed) →
  fixed ∈ ftd_cusips.
Proof.
  induction chars as [| c chars IH]; simpl; [done |].
  destruct (compute_check_digit (String c cusip)) as [d |]; simpl; [| done].
  case_decide; [by intros [= <-] | done].
Qed.

Lemma find_valid_cusips_sound cusip ftd_cusips fixed :
  find_valid_cusips cusip ftd_cusips = Ok (Some fixed) → fixed ∈ ftd_cusips.
Proof.
  unfold find_valid_cusips.
  destruct (Py.len cusip =? 8).
  { destruct (compute_check_digit cusip) as [d |]; simpl; [| done].
    case_decide; [by intros [= <-] | done]. }
  destruct (Py.len cusip =? 7); [| done].
  destruct (left_padding_loop loop_chars cusip ftd_cusips)
    as [[full |] |] eqn:Hloop; simpl; [| | done].
  - intros [= <-]. by eapply left_padding_loop_sound.
  - destruct (compute_check_digit _) as [d |]; simpl; [| done].
    case_decide; [by intros [= <-] | done].
Qed.

Lemma short_codes_elem ftd_cusips df r :
  r ∈ df →
  df_titleofclass r ∉ ftd_cusips →
  df_nameofissuer r ∉ ftd_cusips →
  (String.length (df_cusip r) < 9)%nat →
  df_cusip r ∈ short_codes ftd_cusips df.
Proof.
  intros Hr Ht Hn Hlen. unfold short_codes, df_remaining.
  apply elem_of_remove_dups, list_elem_of_fmap_2.
  rewrite !list_elem_of_filter. unfold Py.len. repeat split; auto. lia.
Qed.







(** C3. The suffix attempt sits after the loop and so is made with the last
    loop character only: for the 7-character code "0378331" the completion
    with suffix "A" (check digit "8") is in the reference set and is the
    only one, no prefix completion is, and [find_valid_cusips] finds nothing;
    the code ends zero-padded. *)
Theorem find_valid_cusips_suffix_missed :
  let ftd_cusips : gset string := {[ "0378331A8" ]} in
  let df := [ {| df_cusip := "0378331"; df_titleofclass := "COM";
                 df_nameofissuer := "APPLE INC" |} ] in
  compute_check_digit ("0378331" +:+ "A") = Ok "8"%string
  ∧ "0378331" +:+ "A" +:+ "8" ∈ ftd_cusips
  ∧ char_after_loop = "9"%char
  ∧ find_valid_cusips "0378331" ftd_cusips = Ok None
  ∧ cusip_fixes ftd_cusips df = Ok {[ "0378331" := "000378331" ]}%string.
Proof. by vm_compute. Qed.

(** ** Per-document ingestion *)

Lemma execute_returning_ok faults {A} st (f : database → database * A) conn :
  faults st = false →
  execute_returning faults st f conn
  = (Ok (f (pending conn)).2,
     {| committed := committed conn; pending := (f (pending conn)).1 |}).
Proof.
  intros Hst. unfold execute_returning. rewrite Hst.
  by destruct (f (pending conn)).
Qed.

Lemma execute_returning_fault faults {A} st (f : database → database * A) conn :
  faults st = true →
  execute_returning faults st f conn = (Raise DatabaseError, conn).
Proof. intros Hst. unfold execute_returning. by rewrite Hst. Qed.

Lemma insert_holdings_nil db : insert_holdings [] db = db.
Proof. destruct db. unfold insert_holdings. simpl. by rewrite app_nil_r. Qed.

Lemma execute_values_run faults {A} st f (rows : list A) conn :
  execute_values faults st f rows conn
  = if bool_decide (rows ≠ []) && faults st
    then (Raise DatabaseError, conn)
    else (Ok (), {| committed := committed conn;
                    pending := if bool_decide (rows ≠ []) then f (pending conn)
                               else pending conn |}).
Proof.
  destruct rows as [| row rest].
  - simpl. by destruct conn.
  - rewrite !bool_decide_true by done. unfold execute_values, execute.
    destruct (faults st) eqn:Hf; simpl.
    + by rewrite execute_returning_fault.
    + by rewrite execute_returning_ok.
Qed.

(** The runs of the per-document worker on a parsed document. *)
Lemma process_individual_filing_run faults filing_data hs file_path db :
  process_individual_filing faults (Some filing_data, hs) file_path db
  = if faults InsertFiling then (db, [])
    else if decide (fd_accession_number filing_data
                    ∈ accession_number <$> filings db)
    then (db, option_list (individual_filing_message file_path))
    else if bool_decide (hs ≠ []) && faults InsertHoldings then (db, [])
    else (insert_holdings (holding_row (filings_id_seq db) <$> hs)
            (insert_filing filing_data db).1,
          option_list (individual_filing_message file_path)).
Proof.
  unfold process_individual_filing, connect. unfold_tx.
  destruct (faults InsertFiling) eqn:Hf1.
  { by rewrite execute_returning_fault by done. }
  rewrite execute_returning_ok by done. cbn [pending committed].
  destruct (decide (fd_accession_number filing_data
                    ∈ accession_number <$> filings db)) as [Hin | Hnew].
  { assert (insert_filing filing_data db = (db, None)) as ->
      by (unfold insert_filing; by rewrite decide_True).
    cbn [fst snd]. by destruct (individual_filing_message file_path). }
  assert (insert_filing filing_data db
          = ((insert_filing filing_data db).1, Some (filings_id_seq db))) as ->
    by (unfold insert_filing; by rewrite decide_False).
  cbn [fst snd]. rewrite execute_values_run. cbn [pending committed].
  assert (bool_decide (holding_row (filings_id_seq db) <$> hs ≠ [])
          = bool_decide (hs ≠ [])) as -> by by destruct hs.
  destruct (bool_decide (hs ≠ []) && faults InsertHoldings) eqn:Hf2; [done |].
  cbn [pending committed].
  set (db1 := (insert_filing filing_data db).1).
  assert ((if bool_decide (hs ≠ [])
           then insert_holdings (holding_row (filings_id_seq db) <$> hs) db1
           else db1)
          = insert_holdings (holding_row (filings_id_seq db) <$> hs) db1) as ->
    by (destruct hs; [by rewrite insert_holdings_nil | done]).
  by destruct (individual_filing_message file_path).
Qed.

(** C7. When the accession number is already in [filings] the insert
    returns no id and the worker leaves [holdings] (and [filings]) as they
    were; when it is new and no statement fails, the filing row is added
    with a fresh id and every holding of the document is added with that id;
    and in every case rows are added to [holdings] only together with the
    new filing row. *)
Theorem process_individual_filing_holdings
    faults filing_data hs file_path db :
  let db' :=
    (process_individual_filing faults (Some filing_data, hs) file_path db).1 in
  (fd_accession_number filing_data ∈ accession_number <$> filings db →
   insert_filing filing_data db = (db, None) ∧ db' = db)
  ∧ (fd_accession_number filing_data ∉ accession_number <$> filings db →
     faults InsertFiling = false → faults InsertHoldings = false →
     filings db' = filings db ++
       [ {| id := filings_id_seq db;
            accession_number := fd_accession_number filing_data;
            attributes := fd_attributes filing_data |} ]
     ∧ holdings db' = holdings db ++ (holding_row (filings_id_seq db) <$> hs)
     ∧ Forall (fun h => filing_id h = filings_id_seq db)
         (holding_row (filings_id_seq db) <$> hs))
  ∧ (holdings db' = holdings db
     ∨ ((fd_accession_number filing_data ∉ accession_number <$> filings db)
        ∧ holdings db' = holdings db ++ (holding_row (filings_id_seq db) <$> hs)
        ∧ filings db' ≠ filings db)).
Proof.
  cbv zeta. rewrite process_individual_filing_run.
  destruct (faults InsertFiling) eqn:Hf1.
  { cbn [fst]. split; [| split]; [| congruence | by left].
    intros Hin. unfold insert_filing. by rewrite decide_True. }
  destruct (decide (fd_accession_number filing_data
                    ∈ accession_number <$> filings db)) as [Hin | Hnew].
  { cbn [fst]. split; [| split; [done | by left]].
    intros _. unfold insert_filing. by rewrite decide_True. }
  destruct (bool_decide (hs ≠ []) && faults InsertHoldings) eqn:Hf2.
  { cbn [fst]. split; [done |]. split; [| by left].
    intros _ _ Hf. rewrite Hf, andb_false_r in Hf2. done. }
  cbn [fst]. unfold insert_filing. rewrite decide_False by done.
  cbn [fst insert_holdings filings holdings].
  split; [done |]. split.
  - intros _ _ _. repeat split. apply Forall_fmap. by apply Forall_true.
  - right. repeat split; [done |].
    intros Heq. apply (f_equal length) in Heq.
    rewrite length_app in Heq. simpl in Heq. lia.
Qed.

Lemma process_individual_filing_holdings_witness :
  let db := {| filings := [ {| id := 1; accession_number := "0001-24-000001";
                               attributes := [] |} ];
               holdings := []; filings_id_seq := 2 |} in
  (process_individual_filing (fun _ => false)
     (Some {| fd_accession_number := "0001-24-000001"; fd_attributes := [] |},
      [ {| hd_nameofissuer := "APPLE INC"; hd_titleofclass := "COM";
           hd_cusip := "037833100"; hd_position := [] |} ])
     "2024_Q1/a.txt" db).1 = db.
Proof.
  intros db.
  apply (proj1 (process_individual_filing_holdings (fun _ => false)
    {| fd_accession_number := "0001-24-000001"; fd_attributes := [] |}
    [ {| hd_nameofissuer := "APPLE INC"; hd_titleofclass := "COM";
         hd_cusip := "037833100"; hd_position := [] |} ]
    "2024_Q1/a.txt" db)).
  simpl. by left.
Defined.

(** ** Normalised text and the reference set *)

Lemma upper_char_idemp c : Pl.upper_char (Pl.upper_char c) = Pl.upper_char c.
Proof. by destruct c as [[] [] [] [] [] [] [] []]. Qed.

Lemma isspace_upper_char c : Pl.isspace (Pl.upper_char c) = Pl.isspace c.
Proof. by destruct c as [[] [] [] [] [] [] [] []]. Qed.

Lemma to_uppercase_idemp s : Pl.to_uppercase (Pl.to_uppercase s) = Pl.to_uppercase s.
Proof.
  induction s as [| c s IH]; simpl; [done |].
  by rewrite upper_char_idemp, IH.
Qed.

Lemma lstrip_to_uppercase s :
  Pl.lstrip (Pl.to_uppercase s) = Pl.to_uppercase (Pl.lstrip s).
Proof.
  induction s as [| c s IH]; simpl; [done |].
  rewrite isspace_upper_char. by destruct (Pl.isspace c).
Qed.

Lemma rstrip_to_uppercase s :
  Pl.rstrip (Pl.to_uppercase s) = Pl.to_uppercase (Pl.rstrip s).
Proof.
  induction s as [| c s IH]; simpl; [done |].
  rewrite IH, isspace_upper_char.
  destruct (Pl.rstrip s); simpl; [| done].
  by destruct (Pl.isspace c).
Qed.

Lemma rstrip_idemp s : Pl.rstrip (Pl.rstrip s) = Pl.rstrip s.
Proof.
  induction s as [| c s IH]; simpl; [done |].
  destruct (Pl.rstrip s) as [| d r] eqn:Hr.
  - destruct (Pl.isspace c) eqn:Hc; simpl; [done | by rewrite Hc].
  - change (Pl.rstrip (String c (String d r))) with
      (match Pl.rstrip (String d r) with
       | EmptyString =>
           if Pl.isspace c then EmptyString else String c EmptyString
       | r' => String c r'
       end).
    by rewrite IH.
Qed.

Lemma lstrip_lstripped s : lstripped (Pl.lstrip s).
Proof.
  induction s as [| c s IH]; simpl; [done |].
  by destruct (Pl.isspace c) eqn:Hc.
Qed.

Lemma rstrip_lstripped s : lstripped s → lstripped (Pl.rstrip s).
Proof.
  destruct s as [| c s]; simpl; [done |]. intros Hc.
  destruct (Pl.rstrip s); [by rewrite Hc | done].
Qed.

Lemma lstrip_id s : lstripped s → Pl.lstrip s = s.
Proof. destruct s as [| c s]; simpl; [done |]. by intros ->. Qed.

Lemma strip_chars_idemp s : Pl.strip_chars (Pl.strip_chars s) = Pl.strip_chars s.
Proof.
  unfold Pl.strip_chars.
  rewrite (lstrip_id (Pl.rstrip _)) by apply rstrip_lstripped, lstrip_lstripped.
  apply rstrip_idemp.
Qed.

Lemma normalize_idemp s : normalize (normalize s) = normalize s.
Proof.
  unfold normalize, Pl.strip_chars.
  rewrite lstrip_to_uppercase, rstrip_to_uppercase, to_uppercase_idemp.
  f_equal. apply strip_chars_idemp.
Qed.

Lemma load_ftd_cusips_normalized ftd_data s :
  s ∈ load_ftd_cusips ftd_data → normalize s = s.
Proof.
  unfold load_ftd_cusips. rewrite elem_of_list_to_set, list_elem_of_fmap.
  intros (raw & -> & _). apply normalize_idemp.
Qed.

(** ** Column-swap stage *)

Lemma holding_in_fetch_holdings db h :
  h ∈ holdings db →
  {| df_cusip := normalize (cusip h);
     df_titleofclass := normalize (titleofclass h);
     df_nameofissuer := normalize (nameofissuer h) |} ∈ fetch_holdings db.
Proof.
  intros Hh. unfold fetch_holdings.
  apply (list_elem_of_fmap_2'
           _ _ (DfRow (cusip h) (titleofclass h) (nameofissuer h))); [| done].
  apply elem_of_remove_dups.
  by apply (list_elem_of_fmap_2
              (fun h => DfRow (cusip h) (titleofclass h) (nameofissuer h))).
Qed.

Lemma titleofclass_targets ftd_data db h :
  h ∈ holdings db →
  titleofclass h
  ∈ cusips_in_titleofclass (load_ftd_cusips ftd_data) (fetch_holdings db)
  ↔ titleofclass h ∈ load_ftd_cusips ftd_data.
Proof.
  intros Hh. unfold cusips_in_titleofclass. rewrite list_elem_of_fmap. split.
  - by intros (r & -> & [Hr _]%list_elem_of_filter).
  - intros Hin. pose proof (load_ftd_cusips_normalized _ _ Hin) as Hnorm.
    exists (DfRow (normalize (cusip h)) (normalize (titleofclass h))
              (normalize (nameofissuer h))).
    rewrite list_elem_of_filter. simpl.
    repeat split; [by rewrite Hnorm .. |]. by apply holding_in_fetch_holdings.
Qed.

Lemma nameofissuer_targets ftd_data db h :
  h ∈ holdings db →
  nameofissuer h
  ∈ cusips_in_nameofissuer (load_ftd_cusips ftd_data) (fetch_holdings db)
  ↔ nameofissuer h ∈ load_ftd_cusips ftd_data.
Proof.
  intros Hh. unfold cusips_in_nameofissuer. rewrite list_elem_of_fmap. split.
  - by intros (r & -> & [Hr _]%list_elem_of_filter).
  - intros Hin. pose proof (load_ftd_cusips_normalized _ _ Hin) as Hnorm.
    exists (DfRow (normalize (cusip h)) (normalize (titleofclass h))
              (normalize (nameofissuer h))).
    rewrite list_elem_of_filter. simpl.
    repeat split; [by rewrite Hnorm .. |]. by apply holding_in_fetch_holdings.
Qed.

Lemma execute_in_ok faults {A} st (targets : list A) f conn :
  faults st = false → targets ≠ [] →
  execute_in faults st targets f conn
  = (Ok (), {| committed := committed conn; pending := f (pending conn) |}).
Proof.
  intros Hst Hne. destruct targets as [| x l]; [done |].
  unfold execute_in, execute. by rewrite execute_returning_ok.
Qed.

Lemma execute_in_empty faults {A} st f conn :
  execute_in faults st (@nil A) f conn = (Raise DatabaseError, conn).
Proof. reflexivity. Qed.

Lemma execute_in_fault faults {A} st (targets : list A) f conn :
  faults st = true →
  execute_in faults st targets f conn = (Raise DatabaseError, conn).
Proof.
  intros Hst. destruct targets; [done |].
  unfold execute_in, execute. by rewrite execute_returning_fault.
Qed.

Lemma column_swap_stage_ok faults ftd_cusips df conn :
  faults UpdateTitleofclass = false →
  faults UpdateNameofissuer = false →
  cusips_in_titleofclass ftd_cusips df ≠ [] →
  cusips_in_nameofissuer ftd_cusips df ≠ [] →
  column_swap_stage faults ftd_cusips df conn
  = (Ok (),
     {| committed := committed conn;
        pending :=
          update_holdings
            (fix_nameofissuer (cusips_in_nameofissuer ftd_cusips df))
            (update_holdings
               (fix_titleofclass (cusips_in_titleofclass ftd_cusips df))
               (pending conn)) |}).
Proof.
  intros Ht Hn Ht' Hn'. unfold column_swap_stage, mbind, tx_bind.
  rewrite execute_in_ok by done. by rewrite execute_in_ok by done.
Qed.


Lemma elem_of_cusips_in_titleofclass ftd_cusips df x :
  x ∈ cusips_in_titleofclass ftd_cusips df
  ↔ x ∈ ftd_cusips ∧ x ∈ df_titleofclass <$> df.
Proof.
  unfold cusips_in_titleofclass. rewrite !list_elem_of_fmap. split.
  - intros (r & -> & [Hr Hin]%list_elem_of_filter). eauto.
  - intros (Hx & r & -> & Hin). exists r. by rewrite list_elem_of_filter.
Qed.

Lemma elem_of_cusips_in_nameofissuer ftd_cusips df x :
  x ∈ cusips_in_nameofissuer ftd_cusips df
  ↔ x ∈ ftd_cusips ∧ x ∈ df_nameofissuer <$> df.
Proof.
  unfold cusips_in_nameofissuer. rewrite !list_elem_of_fmap. split.
  - intros (r & -> & [Hr Hin]%list_elem_of_filter). eauto.
  - intros (Hx & r & -> & Hin). exists r. by rewrite list_elem_of_filter.
Qed.




(** ** Failure of a reconciliation statement *)

Lemma execute_committed faults st f conn r conn' :
  execute faults st f conn = (r, conn') → committed conn' = committed conn.
Proof.
  unfold execute, execute_returning.
  destruct (faults st); by intros [= <- <-].
Qed.

Lemma execute_in_committed faults {A} st (targets : list A) f conn r conn' :
  execute_in faults st targets f conn = (r, conn') →
  committed conn' = committed conn.
Proof.
  destruct targets; [by intros [= <- <-] | apply execute_committed].
Qed.

Lemma column_swap_stage_committed faults ftd_cusips df conn r conn' :
  column_swap_stage faults ftd_cusips df conn = (r, conn') →
  committed conn' = committed conn.
Proof.
  unfold column_swap_stage, mbind, tx_bind.
  destruct (execute_in faults UpdateTitleofclass _ _ conn)
    as [[[] | e] conn1] eqn:H1.
  - intros H2%execute_in_committed. apply execute_in_committed in H1.
    congruence.
  - intros [= <- <-]. by apply execute_in_committed in H1.
Qed.

Lemma column_swap_stage_fault faults ftd_cusips df conn :
  faults UpdateTitleofclass || faults UpdateNameofissuer = true →
  ∃ conn', column_swap_stage faults ftd_cusips df conn = (Raise DatabaseError, conn').
Proof.
  intros Hfault. unfold column_swap_stage, mbind, tx_bind.
  destruct (faults UpdateTitleofclass) eqn:Ht.
  - rewrite execute_in_fault by done. eauto.
  - destruct (cusips_in_titleofclass ftd_cusips df) as [| t ts] eqn:Hts.
    { rewrite execute_in_empty. eauto. }
    rewrite execute_in_ok by done. simpl in *.
    rewrite execute_in_fault by done. eauto.
Qed.

Lemma clean_cusips_raises_rolled_back faults ftd_data conn e conn' :
  clean_cusips faults ftd_data conn = (Raise e, conn') →
  conn' = rolled_back conn.
Proof.
  unfold clean_cusips, rolled_back. unfold_tx.
  destruct (column_swap_stage _ _ _ conn) as [[[] | e1] conn1] eqn:Hswap;
    apply column_swap_stage_committed in Hswap; simpl.
  - destruct (cusip_fixes _ _) as [fixes | e2]; simpl.
    + destruct (execute_in _ _ _ _ conn1) as [[[] | e3] conn2] eqn:Hfix;
        apply execute_in_committed in Hfix; simpl; [done |].
      intros [= _ <-]. congruence.
    + intros [= _ <-]. congruence.
  - intros [= _ <-]. congruence.
Qed.

Lemma clean_cusips_fault faults ftd_data conn :
  faults UpdateTitleofclass || faults UpdateNameofissuer
    || faults UpdateShortCusips = true →
  ∃ e, clean_cusips faults ftd_data conn = (Raise e, rolled_back conn).
Proof.
  intros Hfault.
  destruct (clean_cusips faults ftd_data conn) as [[[] | e] conn'] eqn:Hrun.
  - exfalso. revert Hrun.
    unfold clean_cusips, try_except, mbind, tx_bind, query, lift, rollback,
      raise, commit.
    destruct (faults UpdateTitleofclass || faults UpdateNameofissuer) eqn:Hswap.
    + destruct (column_swap_stage_fault faults (load_ftd_cusips ftd_data)
                  (fetch_holdings (pending conn)) conn Hswap) as [conn1 ->].
      done.
    + simpl in Hfault.
      destruct (column_swap_stage _ _ _ conn) as [[[] | e1] conn1]; [| done].
      destruct (cusip_fixes _ _) as [fixes | e2]; simpl; [| done].
      by rewrite execute_in_fault by done.
  - exists e. by rewrite (clean_cusips_raises_rolled_back _ _ _ _ _ Hrun).
Qed.

Lemma run_steps_ok faults steps n db :
  (∀ k, faults (PostProcessStep k) = false) →
  run_steps faults n steps (connect db) = (Ok (), connect (apply_steps steps db)).
Proof.
  intros Hsteps. revert n db.
  induction steps as [| step steps IH]; intros n db; [done |].
  simpl. unfold mbind, tx_bind, execute.
  rewrite execute_returning_ok by done. simpl. apply IH.
Qed.

(** C8 (amended). [clean_cusips] runs in one transaction: whenever it
    raises, every change it made since the last commit is rolled back, the
    column-swap corrections included, and the exception is raised again;
    this is what happens when one of its batch updates fails. What the
    earlier post-processing steps committed stays, and [post_process_data]
    catches the exception and logs it. *)
Theorem clean_cusips_failure faults steps ftd_data db :
  (∀ k, faults (PostProcessStep k) = false) →
  (∀ conn e conn',
     clean_cusips faults ftd_data conn = (Raise e, conn') →
     conn' = rolled_back conn)
  ∧ (faults UpdateTitleofclass || faults UpdateNameofissuer
       || faults UpdateShortCusips = true →
     ∀ conn, ∃ e,
       clean_cusips faults ftd_data conn = (Raise e, rolled_back conn))
  ∧ (∀ e conn',
       clean_cusips faults ftd_data (connect (apply_steps steps db))
       = (Raise e, conn') →
       conn' = connect (apply_steps steps db)
       ∧ post_process_data faults steps ftd_data db
         = (apply_steps steps db, Some e)).
Proof.
  intros Hsteps. split; [apply clean_cusips_raises_rolled_back |].
  split; [intros Hfault conn; by apply clean_cusips_fault |].
  intros e conn' Hraise.
  pose proof (clean_cusips_raises_rolled_back _ _ _ _ _ Hraise) as ->.
  split; [done |].
  unfold post_process_data, try_except, mbind, tx_bind.
  rewrite run_steps_ok by done. by rewrite Hraise.
Qed.

Lemma clean_cusips_failure_witness :
  let h := {| filing_id := 1; nameofissuer := "APPLE INC";
              titleofclass := "037833100"; cusip := "COMMON STOCK";
              position := [] |} in
  let g := {| filing_id := 1; nameofissuer := "594918104";
              titleofclass := "COM"; cusip := "MICROSOFT CORP";
              position := [] |} in
  let k := {| filing_id := 1; nameofissuer := "ACME CORP";
              titleofclass := "COM"; cusip := "1234567";
              position := [] |} in
  let db := {| filings := []; holdings := [h; g; k]; filings_id_seq := 1 |} in
  ∃ e,
    clean_cusips (fun st => bool_decide (st = UpdateShortCusips))
      ["037833100"; "594918104"] (connect db)
    = (Raise e, rolled_back (connect db)).
Proof.
  intros h g k db.
  apply (proj1 (proj2 (clean_cusips_failure
                         (fun st => bool_decide (st = UpdateShortCusips)) []
                         ["037833100"; "594918104"] db
                         ltac:(done))));
    done.
Defined.

(** The column-swap stage completes, each of its updates having a row, and
    its corrections are in the transaction; then the short-code update
    fails, here because no row is left for it and it is sent with [IN ()],
    and the rollback takes the corrections of the column-swap stage away
    again: they are not preserved. *)
Lemma clean_cusips_discards_column_swap :
  let h := {| filing_id := 1; nameofissuer := "APPLE INC";
              titleofclass := "037833100"; cusip := "COMMON STOCK";
              position := [] |} in
  let g := {| filing_id := 1; nameofissuer := "594918104";
              titleofclass := "COM"; cusip := "MICROSOFT CORP";
              position := [] |} in
  let swapped := {| filing_id := 1; nameofissuer := "APPLE INC";
                    titleofclass := "COMMON STOCK"; cusip := "037833100";
                    position := [] |} in
  let rotated := {| filing_id := 1; nameofissuer := "COM";
                    titleofclass := "MICROSOFT CORP"; cusip := "594918104";
                    position := [] |} in
  let db := {| filings := []; holdings := [h; g]; filings_id_seq := 1 |} in
  let faults := fun _ : statement => false in
  let ftd_data := ["037833100"; "594918104"]%string in
  (∃ conn1,
     column_swap_stage faults (load_ftd_cusips ftd_data) (fetch_holdings db)
       (connect db)
     = (Ok (), conn1)
     ∧ holdings (pending conn1) = [swapped; rotated])
  ∧ cusip_fixes (load_ftd_cusips ftd_data) (fetch_holdings db) = Ok ∅
  ∧ ∃ conn',
      clean_cusips faults ftd_data (connect db)
      = (Raise DatabaseError, conn')
      ∧ holdings (pending conn') = [h; g]
      ∧ holdings (committed conn') = [h; g]
      ∧ holdings (pending conn') ≠ [swapped; rotated]
      ∧ post_process_data faults [] ftd_data db = (db, Some DatabaseError).
Proof.
  intros h g swapped rotated db faults ftd_data. split; [| split].
  - eexists. split; [by vm_compute | done].
  - by vm_compute.
  - eexists. split; [by vm_compute |]. split; [done |]. split; [done |].
    split; [done |]. by vm_compute.
Qed.

(** ** Progress store *)

Lemma append_new_prefix item l : l `prefix_of` append_new item l.
Proof. unfold append_new. case_decide; [done | by apply prefix_app_r]. Qed.

Lemma append_new_elem item l : item ∈ append_new item l.
Proof.
  unfold append_new. case_decide; [done |].
  apply elem_of_app. right. by left.
Qed.

#[local] Instance progress_le_refl : Reflexive progress_le.
Proof. intros p. split; [done |]. intros key l Hl. by exists l. Qed.

#[local] Instance progress_le_trans : Transitive progress_le.
Proof.
  intros p1 p2 p3 [Hs12 Hi12] [Hs23 Hi23]. split; [by etrans |].
  intros key l1 Hl1.
  destruct (Hi12 _ _ Hl1) as (l2 & Hl2 & Hp12).
  destruct (Hi23 _ _ Hl2) as (l3 & Hl3 & Hp23).
  exists l3. split; [done | by etrans].
Qed.

Lemma progress_le_set_individual key processed' failed' self :
  processed (period_lists key self) `prefix_of` processed' →
  progress_le (data self)
    (data (set_individual key
             {| processed := processed'; failed := failed' |} self)).
Proof.
  intros Hprefix. split; [done |]. simpl. intros key' l Hl.
  destruct (decide (key = key')) as [<- | Hne].
  - rewrite lookup_insert_eq. eexists. split; [done |]. simpl.
    unfold period_lists in Hprefix. by rewrite Hl in Hprefix.
  - rewrite lookup_insert_ne by done. by exists l.
Qed.

Lemma progress_le_save now self :
  progress_le (data self) (data (save_progress now self)).
Proof. split; [done |]. intros key l Hl. by exists l. Qed.

Lemma run_call_progress_le k self :
  progress_le (data self) (data (run_call k self)).
Proof.
  destruct k as [now [] y q item | now [] y q item];
    unfold run_call, mark_processed, mark_failed; cbv iota zeta;
    (etrans; [| apply progress_le_save]).
  - split; [apply append_new_prefix |]. intros key l Hl. by exists l.
  - apply progress_le_set_individual, append_new_prefix.
  - split; [done |]. intros key l Hl. by exists l.
  - by apply progress_le_set_individual.
Qed.

Lemma run_calls_app ks1 ks2 self :
  run_calls (ks1 ++ ks2) self = run_calls ks2 (run_calls ks1 self).
Proof. unfold run_calls. by rewrite foldl_app. Qed.

Lemma run_calls_progress_le ks self :
  progress_le (data self) (data (run_calls ks self)).
Proof.
  revert self. induction ks as [| k ks IH]; intros self; [done |].
  etrans; [apply (run_call_progress_le k) |]. apply IH.
Qed.

Lemma get_processed_count_mono c y q self self' :
  progress_le (data self) (data self') →
  get_processed_count c y q self ≤ get_processed_count c y q self'.
Proof.
  intros [Hs Hi]. destruct c; simpl.
  - apply prefix_length in Hs. lia.
  - destruct (individual (data self) !! _) as [l |] eqn:Hl.
    + destruct (Hi _ _ Hl) as (l' & -> & Hp%prefix_length). lia.
    + destruct (individual (data self') !! _); lia.
Qed.

Lemma is_processed_mono c y q item self self' :
  progress_le (data self) (data self') →
  is_processed c y q item self = true →
  is_processed c y q item self' = true.
Proof.
  intros [Hs Hi]. destruct c; simpl.
  - rewrite !bool_decide_eq_true. intros Hin. by eapply elem_of_prefix.
  - destruct (individual (data self) !! _) as [l |] eqn:Hl; [| done].
    destruct (Hi _ _ Hl) as (l' & -> & Hp).
    rewrite !bool_decide_eq_true. intros Hin. by eapply elem_of_prefix.
Qed.

Lemma run_call_saved k self : disk (run_call k self) = Some (data (run_call k self)).
Proof. by destruct k. Qed.

Lemma run_calls_saved ks self :
  ks ≠ [] → disk (run_calls ks self) = Some (data (run_calls ks self)).
Proof.
  destruct ks as [| k ks _] using rev_ind; [done |]. intros _.
  rewrite run_calls_app. simpl. apply run_call_saved.
Qed.

(** C6. Over any sequence of [mark_processed] and [mark_failed] calls the
    processed count of every category and period never decreases from one
    call to the next and no processed item is lost; the calls leave the file
    equal to the store, so a tracker reloaded from it has the same data; and
    saving and reloading keeps every processed list. *)
Theorem progress_monotone ks1 ks2 self c y q item now now' :
  get_processed_count c y q (run_calls ks1 self)
  ≤ get_processed_count c y q (run_calls (ks1 ++ ks2) self)
  ∧ (is_processed c y q item (run_calls ks1 self) = true →
     is_processed c y q item (run_calls (ks1 ++ ks2) self) = true)
  ∧ (ks1 ≠ [] →
     data (init now' (disk (run_calls ks1 self))) = data (run_calls ks1 self))
  ∧ processed_items (data (init now' (disk (save_progress now self))))
    = processed_items (data self).
Proof.
  rewrite run_calls_app.
  pose proof (run_calls_progress_le ks2 (run_calls ks1 self)) as Hle.
  split; [by apply get_processed_count_mono |].
  split; [by apply is_processed_mono |].
  split; [| done].
  intros Hne. by rewrite run_calls_saved.
Qed.

Lemma progress_monotone_witness :
  let ks := [ MarkProcessed "t1" individual_filings (PyStr "2024") (PyStr "Q1")
                "a.txt";
              MarkFailed "t2" structured_data (PyInt 2023) (PyInt 4) "2023_Q4" ] in
  let self := init "t0" None in
  is_processed individual_filings (PyInt 2024) (PyInt 1) "a.txt"
    (run_calls (take 1 ks ++ drop 1 ks) self) = true
  ∧ data (init "t3" (disk (run_calls ks self))) = data (run_calls ks self).
Proof.
  intros ks self.
  pose proof (progress_monotone (take 1 ks) (drop 1 ks) self individual_filings
                (PyInt 2024) (PyInt 1) "a.txt" "t2" "t3") as (_ & Hkept & _).
  pose proof (progress_monotone ks [] self individual_filings
                (PyInt 2024) (PyInt 1) "a.txt" "t2" "t3") as (_ & _ & Hdisk & _).
  split; [by apply Hkept | by apply Hdisk].
Defined.

Lemma string_app_inv_head s t1 t2 : s +:+ t1 = s +:+ t2 → t1 = t2.
Proof. induction s as [| c s IH]; simpl; [done |]. intros [= H]. auto. Qed.

Lemma mark_key_ne_lookup_key year quarter :
  format year +:+ "_" +:+ format quarter
  ≠ format year +:+ "_Q" +:+ format quarter.
Proof.
  intros Heq%string_app_inv_head. injection Heq as Heq.
  apply (f_equal String.length) in Heq. simpl in Heq. lia.
Qed.

Lemma is_processed_save now c y q item self :
  is_processed c y q item (save_progress now self) = is_processed c y q item self.
Proof. by destruct c. Qed.

(** C4. For [structured_data], [is_processed] is true right after
    [mark_processed] with the same arguments. For [individual_filings] the
    mark is filed under the key "{year}_{quarter}" and the lookup reads the
    key "{year}_Q{quarter}", so with the same arguments the lookup answers
    what it answered before the mark; on a new store it answers false. *)
Theorem is_processed_after_mark_processed now year quarter item self :
  is_processed structured_data year quarter item
    (mark_processed now structured_data year quarter item self) = true
  ∧ is_processed individual_filings year quarter item
      (mark_processed now individual_filings year quarter item self)
    = is_processed individual_filings year quarter item self
  ∧ is_processed individual_filings (PyInt 2024) (PyInt 1) "a.txt"
      (mark_processed "t1" individual_filings (PyInt 2024) (PyInt 1) "a.txt"
         (init "t0" None)) = false.
Proof.
  split; [| split; [| reflexivity]].
  - unfold mark_processed. rewrite is_processed_save. simpl.
    apply bool_decide_eq_true, append_new_elem.
  - unfold mark_processed. rewrite is_processed_save. simpl.
    by rewrite lookup_insert_ne by apply mark_key_ne_lookup_key.
Qed.
(** * Further properties *)

(** ** Progress store: lookups after a mark *)

Lemma elem_of_append_new x item l : x ∈ append_new item l ↔ x ∈ l ∨ x = item.
Proof.
  unfold append_new. case_decide.
  - split; [by left | by intros [? | ->]].
  - rewrite elem_of_app, list_elem_of_singleton. tauto.
Qed.

Lemma is_processed_individual_true y q item self :
  is_processed individual_filings y q item self = true
  ↔ ∃ l, individual (data self) !! (format y +:+ "_Q" +:+ format q) = Some l
         ∧ item ∈ processed l.
Proof.
  simpl. destruct (individual (data self) !! _) as [l |].
  - rewrite bool_decide_eq_true. split; [by eauto | by intros (? & [= <-] & ?)].
  - split; [done | by intros (? & ? & _)].
Qed.

Lemma is_processed_after_mark now c y q item c' y' q' item' self :
  is_processed c' y' q' item' (mark_processed now c y q item self) = true
  ↔ is_processed c' y' q' item' self = true
    ∨ (c' = c ∧ item' = item
       ∧ (c = structured_data
          ∨ format y' +:+ "_Q" +:+ format q' = format y +:+ "_" +:+ format q)).
Proof.
  unfold mark_processed. rewrite is_processed_save.
  destruct c, c'.
  - simpl. rewrite !bool_decide_eq_true, elem_of_append_new.
    split; [intros [? | ?]; auto 10 | intros [? | (_ & -> & _)]; auto].
  - rewrite !is_processed_individual_true. simpl.
    split; [by left | by intros [? | [[=] _]]].
  - simpl. rewrite !bool_decide_eq_true.
    split; [by left | by intros [? | [[=] _]]].
  - rewrite !is_processed_individual_true. simpl.
    destruct (decide (format y +:+ "_" +:+ format q
                      = format y' +:+ "_Q" +:+ format q')) as [Hkey | Hkey].
    + rewrite <- Hkey, lookup_insert_eq. unfold period_lists.
      split.
      * intros (l & [= <-] & Hin). simpl in Hin.
        apply elem_of_append_new in Hin as [Hin | ->]; [| by right; eauto].
        left. destruct (individual (data self) !! _) as [l |]; [by eauto |].
        by apply elem_of_nil in Hin.
      * intros [(l & Hl & Hin) | (_ & -> & _)]; eexists; (split; [done |]);
          simpl; apply elem_of_append_new; [| by right].
        left. by rewrite Hl.
    + rewrite lookup_insert_ne by done. split; [by left |].
      intros [? | (_ & _ & [[=] | Heq])]; [done | by rewrite Heq in Hkey].
Qed.

(** X1. After [mark_processed], [is_processed] answers true exactly for what
    it answered true before and for the marked item: in [structured_data]
    under any year and quarter, in [individual_filings] under the years and
    quarters whose lookup key "{year}_Q{quarter}" is the key
    "{year}_{quarter}" the mark was filed under. *)
Theorem is_processed_mark_processed now c y q item c' y' q' item' self :
  is_processed c' y' q' item' (mark_processed now c y q item self) = true
  ↔ is_processed c' y' q' item' self = true
    ∨ (c' = c ∧ item' = item
       ∧ (c = structured_data
          ∨ format y' +:+ "_Q" +:+ format q' = format y +:+ "_" +:+ format q)).
Proof. apply is_processed_after_mark. Qed.

Lemma get_processed_count_save now c y q self :
  get_processed_count c y q (save_progress now self)
  = get_processed_count c y q self.
Proof. by destruct c. Qed.

(** X2. [mark_failed] changes no answer of [is_processed] and no processed
    count: an item recorded as failed is still enumerated as unprocessed. *)
Theorem mark_failed_not_processed now c y q item c' y' q' item' self :
  is_processed c' y' q' item' (mark_failed now c y q item self)
  = is_processed c' y' q' item' self
  ∧ get_processed_count c' y' q' (mark_failed now c y q item self)
    = get_processed_count c' y' q' self.
Proof.
  unfold mark_failed. rewrite is_processed_save, get_processed_count_save.
  destruct c, c'; try done; simpl.
  destruct (decide (format y +:+ "_" +:+ format q
                    = format y' +:+ "_Q" +:+ format q')) as [Hkey | Hkey].
  - rewrite <- Hkey, lookup_insert_eq. unfold period_lists. simpl.
    destruct (individual (data self) !! _); [done |].
    split; [| done]. apply bool_decide_eq_false. apply not_elem_of_nil.
  - by rewrite lookup_insert_ne.
Qed.

Lemma append_new_nodup item l : NoDup l → NoDup (append_new item l).
Proof.
  intros Hl. unfold append_new. case_decide; [done |].
  apply NoDup_app. repeat split; [done | | apply NoDup_singleton].
  intros x Hx ->%list_elem_of_singleton. done.
Qed.

Lemma lists_nodup_set_individual key l self :
  lists_nodup (data self) → NoDup (processed l) → NoDup (failed l) →
  lists_nodup (data (set_individual key l self)).
Proof.
  intros (Hp & Hf & Hi) Hlp Hlf. split; [done |]. split; [done |].
  simpl. intros key' l' Hl'.
  destruct (decide (key = key')) as [<- | Hne].
  - rewrite lookup_insert_eq in Hl'. by injection Hl' as <-.
  - rewrite lookup_insert_ne in Hl' by done. by apply (Hi key').
Qed.

Lemma period_lists_nodup key self :
  lists_nodup (data self) →
  NoDup (processed (period_lists key self))
  ∧ NoDup (failed (period_lists key self)).
Proof.
  intros (_ & _ & Hi). unfold period_lists.
  destruct (individual (data self) !! key) as [l |] eqn:Hl; simpl.
  - by apply (Hi key).
  - split; apply NoDup_nil_2.
Qed.

Lemma lists_nodup_set_structured l self :
  lists_nodup (data self) → NoDup (processed l) → NoDup (failed l) →
  lists_nodup (data (set_structured l self)).
Proof.
  intros (Hp & Hf & Hi) Hlp Hlf. split; [done |]. split; [done |]. exact Hi.
Qed.

Lemma run_call_lists_nodup k self :
  lists_nodup (data self) → lists_nodup (data (run_call k self)).
Proof.
  intros Hok.
  assert (Hsave : ∀ now s, lists_nodup (data s) →
                    lists_nodup (data (save_progress now s))) by done.
  pose proof Hok as (Hp & Hf & _).
  destruct k as [now [] y q item | now [] y q item];
    unfold run_call, mark_processed, mark_failed; cbv iota zeta; apply Hsave.
  - apply lists_nodup_set_structured; [done | by apply append_new_nodup | done].
  - destruct (period_lists_nodup (format y +:+ "_" +:+ format q) self Hok).
    apply lists_nodup_set_individual; [done | by apply append_new_nodup | done].
  - apply lists_nodup_set_structured; [done | done | by apply append_new_nodup].
  - destruct (period_lists_nodup (format y +:+ "_" +:+ format q) self Hok).
    apply lists_nodup_set_individual; [done | done | by apply append_new_nodup].
Qed.

(** X3. The lists of the store stay free of duplicates: a new store has
    none, and no sequence of [mark_processed] and [mark_failed] calls
    introduces one, however often an item is marked; so each processed count
    is a count of distinct items. *)
Theorem run_calls_lists_nodup now ks self :
  lists_nodup (data (init now None))
  ∧ (lists_nodup (data self) → lists_nodup (data (run_calls ks self))).
Proof.
  split.
  - split; [apply NoDup_nil_2 |]. split; [apply NoDup_nil_2 |].
    intros key l Hl. simpl in Hl. by rewrite lookup_empty in Hl.
  - revert self. induction ks as [| k ks IH]; intros self Hok; [done |].
    apply IH. by apply run_call_lists_nodup.
Qed.

Lemma run_calls_lists_nodup_witness :
  lists_nodup
    (data (run_calls
             [ MarkProcessed "t1" structured_data (PyInt 2020) (PyInt 1) "2020_Q1";
               MarkProcessed "t2" structured_data (PyInt 2020) (PyInt 1) "2020_Q1" ]
             (init "t0" None))).
Proof.
  apply (proj2 (run_calls_lists_nodup "t0" _ (init "t0" None))).
  apply (proj1 (run_calls_lists_nodup "t0" [] (init "t0" None))).
Defined.

(** ** Short-code repair: what the dict of fixes holds *)

Lemma py_dict_lookup_None l k : k ∉ l.*1 → py_dict l !! k = None.
Proof.
  induction l as [| [k' v'] l IH] using rev_ind; [done |].
  rewrite fmap_app, elem_of_app, py_dict_snoc. simpl. intros Hk.
  rewrite lookup_insert_ne; [apply IH; tauto |].
  intros ->. apply Hk. right. by left.
Qed.

Lemma map_elements_tagged_fst {B} (f : string → result B) l w :
  map_elements (fun c => fixed ← f c; Ok (c, fixed)) l = Ok w → w.*1 = l.
Proof.
  revert w. induction l as [| c l IH]; intros w; simpl.
  - by intros [= <-].
  - destruct (f c) as [b |]; simpl; [| done].
    destruct (map_elements _ l) as [w' |]; simpl; [| done].
    intros [= <-]. csimpl. f_equal. by apply IH.
Qed.

Lemma cusip_fixes_lookup_None ftd_cusips df fixes c :
  lengths_fit ftd_cusips df = true →
  cusip_fixes ftd_cusips df = Ok fixes →
  c ∉ short_codes ftd_cusips df →
  fixes !! c = None.
Proof.
  intros Hfit. unfold cusip_fixes. rewrite short_cusips_ok by done.
  change (Ok (short_codes ftd_cusips df) ≫= ?k)
    with (k (short_codes ftd_cusips df)).
  cbv beta zeta.
  set (codes := short_codes ftd_cusips df).
  rewrite !(filter_tagged (Pl.zfill 9)), fst_tagged.
  rewrite !(filter_tagged (Pl.pad_end 9 "0")), fst_tagged. simpl.
  destruct (map_elements _ _) as [with_fixed |] eqn:Hmap; simpl; [| done].
  apply map_elements_tagged_fst in Hmap.
  intros [= <-] Hc. apply py_dict_lookup_None.
  assert (Hkeys : ∀ x, x ∈ with_fixed.*1 → x ∈ codes).
  { intros x. rewrite Hmap, !list_elem_of_filter. tauto. }
  rewrite !fmap_app, !fst_tagged, !elem_of_app, !list_elem_of_filter.
  intros [[_ ?] | [[_ [_ ?]] | [Hin | Hin]]]; try done.
  - apply Hc, Hkeys. apply list_elem_of_fmap in Hin as (p & -> & Hp).
    apply list_elem_of_omap in Hp as ([k o] & Hq & Hg). simpl in Hg.
    destruct o as [v |]; simplify_eq/=.
    by apply (list_elem_of_fmap_2 fst _ (k, Some v)).
  - apply Hc, Hkeys.
    apply list_elem_of_fmap in Hin as (p & -> & [_ Hp]%list_elem_of_filter).
    by apply list_elem_of_fmap_2.
Qed.

Lemma str_digit_length d : 0 ≤ d ≤ 9 → String.length (Py.str d) = 1%nat.
Proof. intros Hd. by rewrite str_one_digit. Qed.

Lemma with_check_digit_length stem :
  String.length (with_check_digit stem) = S (String.length stem).
Proof.
  unfold with_check_digit. rewrite string_length_app, str_digit_length; [lia |].
  pose proof (Z.mod_pos_bound (10 - check_loop 0 (values_of stem) 0 mod 10) 10). lia.
Qed.

Lemma compute_check_digit_with_check_digit stem d :
  compute_check_digit stem = Ok d →
  String.length stem = 8%nat ∧ Py.all_chars valued stem = true
  ∧ stem +:+ d = with_check_digit stem.
Proof.
  intros Hd.
  destruct (decide (String.length stem = 8%nat)) as [Hlen | Hlen].
  2:{ destruct (proj2 (compute_check_digit_raises_iff stem)) as [? ?];
        [by left | congruence]. }
  destruct (Py.all_chars valued stem) eqn:Hall.
  2:{ destruct (proj2 (compute_check_digit_raises_iff stem)) as [? ?];
        [by right | congruence]. }
  rewrite compute_check_digit_ok in Hd by done. by injection Hd as <-.
Qed.

Lemma left_padding_loop_shape chars cusip ftd_cusips fixed :
  left_padding_loop chars cusip ftd_cusips = Ok (Some fixed) →
  ∃ ch, ch ∈ chars ∧ fixed = with_check_digit (String ch cusip)
        ∧ String.length cusip = 7%nat
        ∧ Py.all_chars valued (String ch cusip) = true.
Proof.
  induction chars as [| c chars IH]; simpl; [done |].
  destruct (compute_check_digit (String c cusip)) as [d |] eqn:Hd; simpl; [| done].
  apply compute_check_digit_with_check_digit in Hd as (Hlen & Hall & Heq).
  case_decide.
  - intros [= <-]. exists c. split; [by left |].
    repeat split; [done | by injection Hlen | done].
  - intros (ch & Hch & ?)%IH. exists ch. split; [by right | done].
Qed.

Lemma find_valid_cusips_shape cusip ftd_cusips fixed :
  find_valid_cusips cusip ftd_cusips = Ok (Some fixed) →
  fixed ∈ ftd_cusips
  ∧ String.length fixed = 9%nat
  ∧ ∃ stem check_digit,
      fixed = stem +:+ check_digit
      ∧ compute_check_digit stem = Ok check_digit
      ∧ ((String.length cusip = 8%nat ∧ stem = cusip)
         ∨ (String.length cusip = 7%nat
            ∧ ((∃ ch, ch ∈ loop_chars ∧ stem = String ch cusip)
               ∨ stem = cusip +:+ "9"))).
Proof.
  intros Hfind. split; [by eapply find_valid_cusips_sound |].
  revert Hfind. unfold find_valid_cusips, Py.len.
  destruct (Z.of_nat (String.length cusip) =? 8) eqn:H8.
  { destruct (compute_check_digit cusip) as [d |] eqn:Hd; simpl; [| done].
    pose proof (compute_check_digit_with_check_digit _ _ Hd) as (Hlen & Hall & Heq).
    case_decide; [| done]. intros [= <-].
    split; [by rewrite Heq, with_check_digit_length, Hlen |].
    exists cusip, d. auto. }
  destruct (Z.of_nat (String.length cusip) =? 7) eqn:H7; [| done].
  destruct (left_padding_loop loop_chars cusip ftd_cusips)
    as [[full |] |] eqn:Hloop; simpl; [| | done].
  - intros [= <-].
    apply left_padding_loop_shape in Hloop as (ch & Hch & -> & Hlen & Hall).
    split; [by rewrite with_check_digit_length; simpl; rewrite Hlen |].
    eexists (String ch cusip), _. split; [done |].
    split; [apply compute_check_digit_ok; [by simpl; rewrite Hlen | done] |].
    right. split; [done |]. left. by exists ch.
  - change (String char_after_loop EmptyString) with "9"%string.
    destruct (compute_check_digit (cusip +:+ "9")) as [d |] eqn:Hd; simpl; [| done].
    pose proof (compute_check_digit_with_check_digit _ _ Hd) as (Hlen & Hall & Heq).
    case_decide; [| done]. intros [= <-].
    split; [by rewrite Heq, with_check_digit_length, Hlen |].
    exists (cusip +:+ "9"), d. split; [done |]. split; [done |].
    right. split; [lia | by right].
Qed.

(** X4. Whatever [find_valid_cusips] returns is a member of the reference
    set, is 9 characters long, and is a stem followed by the check digit
    [compute_check_digit] gives for that stem, where the stem is the
    8-character code itself, or the 7-character code behind one of the 36
    characters, or the 7-character code followed by "9". *)
Theorem find_valid_cusips_result cusip ftd_cusips fixed :
  find_valid_cusips cusip ftd_cusips = Ok (Some fixed) →
  fixed ∈ ftd_cusips
  ∧ String.length fixed = 9%nat
  ∧ ∃ stem check_digit,
      fixed = stem +:+ check_digit
      ∧ compute_check_digit stem = Ok check_digit
      ∧ ((String.length cusip = 8%nat ∧ stem = cusip)
         ∨ (String.length cusip = 7%nat
            ∧ ((∃ ch, ch ∈ loop_chars ∧ stem = String ch cusip)
               ∨ stem = cusip +:+ "9"))).
Proof. apply find_valid_cusips_shape. Qed.

Lemma find_valid_cusips_result_witness :
  "0378331A8" ∈ ({[ "0378331A8" ]} : gset string)
  ∧ String.length "0378331A8" = 9%nat.
Proof.
  destruct (find_valid_cusips_result "0378331A" {[ "0378331A8" ]} "0378331A8")
    as (Hin & Hlen & _); [by vm_compute | done].
Defined.

Lemma repeat_char_length c n : String.length (Pl.repeat_char c n) = n.
Proof. induction n as [| n IH]; simpl; [done | by rewrite IH]. Qed.

Lemma byte_length_ascii s :
  Py.all_chars Py.isascii s = true → Pl.byte_length s = String.length s.
Proof.
  induction s as [| c s IH]; simpl; [done |].
  intros [-> Hs]%andb_true_iff. by rewrite IH.
Qed.

Lemma zfill_cases n s :
  Pl.zfill n s = Pl.repeat_char "0" (n - Pl.byte_length s) +:+ s
  ∨ ∃ rest, s = String "-" rest
            ∧ Pl.zfill n s
              = String "-" (Pl.repeat_char "0" (n - Pl.byte_length s) +:+ rest).
Proof.
  destruct s as [| c rest]; [by left |].
  destruct c as [[] [] [] [] [] [] [] []]; try (by left).
  right. by exists rest.
Qed.

Lemma zfill_length n s :
  Py.all_chars Py.isascii s = true →
  String.length (Pl.zfill n s) = (n `max` String.length s)%nat.
Proof.
  intros Hs. pose proof (byte_length_ascii s Hs) as Hb.
  destruct (zfill_cases n s) as [-> | (rest & -> & ->)].
  - rewrite string_length_app, repeat_char_length, Hb. lia.
  - rewrite Hb. cbn [String.length].
    rewrite string_length_app, repeat_char_length. lia.
Qed.

Lemma pad_end_length n c s :
  String.length (Pl.pad_end n c s) = (n `max` String.length s)%nat.
Proof. unfold Pl.pad_end. rewrite string_length_app, repeat_char_length. lia. Qed.

Lemma short_codes_length ftd_cusips df c :
  c ∈ short_codes ftd_cusips df → (String.length c < 9)%nat.
Proof.
  unfold short_codes. rewrite elem_of_remove_dups, list_elem_of_fmap.
  intros (r & -> & [Hlen _]%list_elem_of_filter). unfold Py.len in Hlen. lia.
Qed.

Lemma short_code_repair_length ftd_cusips c :
  (String.length c < 9)%nat →
  Py.all_chars Py.isascii c = true →
  String.length (Spec.short_code_repair ftd_cusips c) = 9%nat.
Proof.
  intros Hlen Hascii. unfold Spec.short_code_repair.
  repeat case_decide; rewrite ?zfill_length, ?pad_end_length by done; try lia.
  destruct (find_valid_cusips c ftd_cusips) as [[fixed |] |] eqn:Hfind;
    rewrite ?zfill_length by done; try lia.
  by apply find_valid_cusips_shape in Hfind as (_ & ? & _).
Qed.

(** What the repair returns when it returns, the lengths fitting. *)
Lemma cusip_fixes_repairs ftd_cusips df fixes :
  lengths_fit ftd_cusips df = true →
  cusip_fixes ftd_cusips df = Ok fixes →
  forallb (Py.all_chars valued) (checksum_codes ftd_cusips df) = true
  ∧ ∀ c, c ∈ short_codes ftd_cusips df →
         fixes !! c = Some (Spec.short_code_repair ftd_cusips c).
Proof.
  intros Hfit Hfixes.
  destruct (forallb (Py.all_chars valued) (checksum_codes ftd_cusips df))
    eqn:Hvalued.
  - split; [done |].
    destruct (cusip_fixes_lookup ftd_cusips df Hfit Hvalued)
      as (fixes' & Hfixes' & Hlookup).
    rewrite Hfixes in Hfixes'. by injection Hfixes' as <-.
  - destruct (cusip_fixes_raises ftd_cusips df Hfit Hvalued) as [msg Hmsg].
    congruence.
Qed.

(** X5. When the lengths fit the [cusip_length] column and the short-code
    repair returns its dict of fixes, the dict has an entry for exactly the
    short codes of the rows the column-swap stage left alone, every key is
    shorter than 9 characters, and the value of every key of ASCII
    characters is exactly 9 characters long. *)
Theorem cusip_fixes_domain ftd_cusips df fixes :
  lengths_fit ftd_cusips df = true →
  cusip_fixes ftd_cusips df = Ok fixes →
  ∀ c, (is_Some (fixes !! c) ↔ c ∈ short_codes ftd_cusips df)
       ∧ ∀ v, fixes !! c = Some v →
              (String.length c < 9)%nat
              ∧ (Py.all_chars Py.isascii c = true →
                 String.length v = 9%nat).
Proof.
  intros Hfit Hfixes c.
  destruct (cusip_fixes_repairs _ _ _ Hfit Hfixes) as [_ Hlookup].
  destruct (decide (c ∈ short_codes ftd_cusips df)) as [Hc | Hc].
  - rewrite (Hlookup _ Hc). split; [by split; [| eauto] |].
    intros v [= <-]. pose proof (short_codes_length _ _ _ Hc).
    split; [done | by apply short_code_repair_length].
  - rewrite (cusip_fixes_lookup_None _ _ _ _ Hfit Hfixes Hc).
    split; [by split; [intros [] |] | done].
Qed.

Lemma cusip_fixes_domain_witness :
  let fixes : gmap string string :=
    {[ "1" := "000000001"; "AB-1" := "00000AB-1" ]}%string in
  is_Some (fixes !! "1"%string)
  ∧ is_Some (fixes !! "AB-1"%string)
  ∧ fixes !! "037833100"%string = None.
Proof.
  intros fixes.
  pose proof (cusip_fixes_domain {[ "000000001" ]}
      [ {| df_cusip := "1"; df_titleofclass := "COM";
           df_nameofissuer := "ACME CORP" |};
        {| df_cusip := "AB-1"; df_titleofclass := "COM";
           df_nameofissuer := "OTHER CORP" |};
        {| df_cusip := "037833100"; df_titleofclass := "COM";
           df_nameofissuer := "APPLE INC" |} ] fixes) as Hdom.
  assert (Hcodes : short_codes {[ "000000001" ]}
      [ {| df_cusip := "1"; df_titleofclass := "COM";
           df_nameofissuer := "ACME CORP" |};
        {| df_cusip := "AB-1"; df_titleofclass := "COM";
           df_nameofissuer := "OTHER CORP" |};
        {| df_cusip := "037833100"; df_titleofclass := "COM";
           df_nameofissuer := "APPLE INC" |} ] = [ "1"; "AB-1" ]%string)
    by by vm_compute.
  rewrite Hcodes in Hdom.
  specialize (Hdom ltac:(by vm_compute) ltac:(by vm_compute)).
  split; [| split].
  - apply (proj1 (Hdom "1"%string)). by left.
  - apply (proj1 (Hdom "AB-1"%string)). right. by left.
  - destruct (fixes !! "037833100"%string) as [v |] eqn:Hv; [| done].
    destruct (proj2 (Hdom "037833100"%string) v Hv) as [Hlen _].
    simpl in Hlen. lia.
Defined.

(** X6. On a 7-character code of valued characters the prefix search
    follows the order of the loop, letters A to Z and then digits 0 to 9:
    the result is the completion of the first character whose completion is
    in the reference set, whatever later characters or the suffix attempt
    would give. *)
Theorem find_valid_cusips_first_prefix cusip ftd_cusips before ch after :
  String.length cusip = 7%nat →
  Py.all_chars valued cusip = true →
  loop_chars = before ++ ch :: after →
  (∀ c, c ∈ before → with_check_digit (String c cusip) ∉ ftd_cusips) →
  with_check_digit (String ch cusip) ∈ ftd_cusips →
  find_valid_cusips cusip ftd_cusips
  = Ok (Some (with_check_digit (String ch cusip))).
Proof.
  intros Hlen Hall Hchars Hbefore Hin. unfold find_valid_cusips, Py.len.
  rewrite Hlen. change (Z.of_nat 7 =? 8) with false.
  change (Z.of_nat 7 =? 7) with true. cbv iota.
  rewrite Hchars, left_padding_loop_first; try done.
  rewrite <- Hchars. apply loop_chars_isalnum.
Qed.

Lemma find_valid_cusips_first_prefix_witness :
  find_valid_cusips "234567X" {[ "A234567X7"; "9234567X9"; "234567X91" ]}
  = Ok (Some "A234567X7"%string).
Proof.
  apply (find_valid_cusips_first_prefix "234567X"
           {[ "A234567X7"; "9234567X9"; "234567X91" ]} [] "A"
           (List.tl loop_chars)).
  - reflexivity.
  - reflexivity.
  - reflexivity.
  - intros c Hc. by apply elem_of_nil in Hc.
  - by vm_compute.
Defined.

(** ** The reconciliation pass as a whole *)

Lemma clean_cusips_ok faults ftd_data conn fixes :
  faults UpdateTitleofclass = false →
  faults UpdateNameofissuer = false →
  faults UpdateShortCusips = false →
  let ftd_cusips := load_ftd_cusips ftd_data in
  let df := fetch_holdings (pending conn) in
  cusips_in_titleofclass ftd_cusips df ≠ [] →
  cusips_in_nameofissuer ftd_cusips df ≠ [] →
  cusip_fixes ftd_cusips df = Ok fixes →
  fixes ≠ ∅ →
  let db :=
    update_holdings (fix_short_cusip fixes)
      (update_holdings
         (fix_nameofissuer (cusips_in_nameofissuer ftd_cusips df))
         (update_holdings
            (fix_titleofclass (cusips_in_titleofclass ftd_cusips df))
            (pending conn))) in
  clean_cusips faults ftd_data conn = (Ok (), {| committed := db; pending := db |}).
Proof.
  intros Ht Hn Hs ftd_cusips df Ht' Hn' Hfixes Hne db.
  unfold clean_cusips. unfold_tx. fold ftd_cusips df.
  rewrite column_swap_stage_ok by done.
  rewrite Hfixes. rewrite execute_in_ok; [done | done |].
  intros Hnil. apply Hne, map_to_list_empty_iff.
  by destruct (map_to_list fixes).
Qed.


Lemma fix_titleofclass_other targets h :
  titleofclass h ∉ targets → fix_titleofclass targets h = h.
Proof. intros Hh. unfold fix_titleofclass. by rewrite decide_False. Qed.

Lemma fix_nameofissuer_other targets h :
  nameofissuer h ∉ targets → fix_nameofissuer targets h = h.
Proof. intros Hh. unfold fix_nameofissuer. by rewrite decide_False. Qed.

Lemma fix_short_cusip_fields fixes h :
  filing_id (fix_short_cusip fixes h) = filing_id h
  ∧ position (fix_short_cusip fixes h) = position h
  ∧ titleofclass (fix_short_cusip fixes h) = titleofclass h
  ∧ nameofissuer (fix_short_cusip fixes h) = nameofissuer h.
Proof. unfold fix_short_cusip. by destruct (fixes !! cusip h). Qed.

Lemma fix_titleofclass_fields targets h :
  filing_id (fix_titleofclass targets h) = filing_id h
  ∧ position (fix_titleofclass targets h) = position h.
Proof. unfold fix_titleofclass. by case_decide. Qed.

Lemma fix_nameofissuer_fields targets h :
  filing_id (fix_nameofissuer targets h) = filing_id h
  ∧ position (fix_nameofissuer targets h) = position h.
Proof. unfold fix_nameofissuer. by case_decide. Qed.

Lemma targets_in_titleofclass ftd_cusips df x :
  x ∈ cusips_in_titleofclass ftd_cusips df → x ∈ ftd_cusips.
Proof. by intros [? _]%elem_of_cusips_in_titleofclass. Qed.

Lemma targets_in_nameofissuer ftd_cusips df x :
  x ∈ cusips_in_nameofissuer ftd_cusips df → x ∈ ftd_cusips.
Proof. by intros [? _]%elem_of_cusips_in_nameofissuer. Qed.

(** X7. On a table and a reference file of ASCII text, when no statement
    fails, each of the two column-swap updates has a row, the lengths fit
    the [cusip_length] column, every code of the checksum stage holds valued
    characters only and no short code holds a quote or a percent sign,
    [clean_cusips] commits, and a row that is stored stripped and
    upper-cased, holds no reference value in [titleofclass] or
    [nameofissuer] and has a [cusip] shorter than 9 characters ends with the
    repair of that code in priority order, a code of exactly 9 characters,
    with its other columns as they were. *)
Theorem clean_cusips_repairs_short_code faults ftd_data conn i h :
  let ftd_cusips := load_ftd_cusips ftd_data in
  let df := fetch_holdings (pending conn) in
  faults UpdateTitleofclass = false →
  faults UpdateNameofissuer = false →
  faults UpdateShortCusips = false →
  forallb ascii_text ftd_data = true →
  ascii_holdings (pending conn) = true →
  cusips_in_titleofclass ftd_cusips df ≠ [] →
  cusips_in_nameofissuer ftd_cusips df ≠ [] →
  lengths_fit ftd_cusips df = true →
  forallb (Py.all_chars valued) (checksum_codes ftd_cusips df) = true →
  forallb plain_code (short_codes ftd_cusips df) = true →
  holdings (pending conn) !! i = Some h →
  normalize (cusip h) = cusip h →
  normalize (titleofclass h) ∉ ftd_cusips →
  normalize (nameofissuer h) ∉ ftd_cusips →
  (String.length (cusip h) < 9)%nat →
  ∃ conn' h',
    clean_cusips faults ftd_data conn = (Ok (), conn')
    ∧ committed conn' = pending conn'
    ∧ holdings (committed conn') !! i = Some h'
    ∧ cusip h' = Spec.short_code_repair ftd_cusips (cusip h)
    ∧ String.length (cusip h') = 9%nat
    ∧ titleofclass h' = titleofclass h
    ∧ nameofissuer h' = nameofissuer h
    ∧ filing_id h' = filing_id h
    ∧ position h' = position h.
Proof.
  intros ftd_cusips df Ht Hn Hs _ Hascii Ht' Hn' Hfit Hvalued _ Hi Hnorm
    Htitle Hname Hlen.
  destruct (cusip_fixes_lookup _ _ Hfit Hvalued) as (fixes & Hfixes & Hlookup).
  assert (Hh : h ∈ holdings (pending conn)) by by eapply list_elem_of_lookup_2.
  assert (Hkey : fixes !! cusip h
                 = Some (Spec.short_code_repair ftd_cusips (cusip h))).
  { pose proof (holding_in_fetch_holdings _ _ Hh) as Hrow.
    pose proof (short_codes_elem ftd_cusips _ _ Hrow) as Hshort.
    simpl in Hshort. rewrite Hnorm in Hshort. by apply Hlookup, Hshort. }
  rewrite (clean_cusips_ok _ _ _ fixes Ht Hn Hs); try done.
  2:{ intros ->. by rewrite lookup_empty in Hkey. }
  eexists _, _. split; [done |]. split; [done |]. simpl.
  rewrite !list_lookup_fmap, Hi. simpl. split; [done |].
  assert (Htitle' : titleofclass h ∉ ftd_cusips).
  { intros Hin. apply Htitle.
    by rewrite (load_ftd_cusips_normalized _ _ Hin). }
  assert (Hname' : nameofissuer h ∉ ftd_cusips).
  { intros Hin. apply Hname.
    by rewrite (load_ftd_cusips_normalized _ _ Hin). }
  rewrite fix_titleofclass_other
    by (intros Hin; by apply targets_in_titleofclass in Hin).
  rewrite fix_nameofissuer_other
    by (intros Hin; by apply targets_in_nameofissuer in Hin).
  unfold fix_short_cusip. rewrite Hkey. simpl.
  split; [done |]. split; [| done].
  apply short_code_repair_length; [done |].
  unfold ascii_holdings in Hascii. rewrite forallb_elem in Hascii.
  by apply Hascii, andb_true_iff in Hh as [_ ?].
Qed.

Lemma clean_cusips_repairs_short_code_witness :
  let h := {| filing_id := 1; nameofissuer := "APPLE INC";
              titleofclass := "037833100"; cusip := "COMMON STOCK";
              position := [] |} in
  let g := {| filing_id := 1; nameofissuer := "594918104";
              titleofclass := "COM"; cusip := "MICROSOFT CORP";
              position := [] |} in
  let k := {| filing_id := 2; nameofissuer := "APPLE INC";
              titleofclass := "COM"; cusip := "37833100"; position := [] |} in
  let conn :=
    connect {| filings := []; holdings := [h; g; k]; filings_id_seq := 1 |} in
  ∃ conn' k',
    clean_cusips (fun _ => false) ["037833100"; "594918104"] conn
    = (Ok (), conn')
    ∧ holdings (committed conn') !! 2%nat = Some k'
    ∧ cusip k' = "037833100"%string.
Proof.
  intros h g k conn.
  destruct (clean_cusips_repairs_short_code (fun _ => false)
              ["037833100"; "594918104"] conn 2%nat k)
    as (conn' & k' & Hrun & _ & Hrow & Hcusip & _);
    [done | done | done | by vm_compute | by vm_compute | by vm_compute
    | by vm_compute | by vm_compute | by vm_compute | by vm_compute | done
    | by vm_compute | by vm_compute | by vm_compute | simpl; lia |].
  exists conn', k'. split; [done |]. split; [done |].
  rewrite Hcusip. by vm_compute.
Defined.

(** X8. Under the conditions of X7 on the table, the reference file and
    the statements, with at least one short code to repair, [clean_cusips]
    commits and keeps the [filings] table, the number and order of the
    [holdings] rows and every row's [filing_id] and position columns; and a
    row that holds no reference value in [titleofclass] or [nameofissuer]
    and whose [cusip] has 9 characters or more is left exactly as it was. *)
Theorem clean_cusips_keeps_rows faults ftd_data conn :
  let ftd_cusips := load_ftd_cusips ftd_data in
  let df := fetch_holdings (pending conn) in
  faults UpdateTitleofclass = false →
  faults UpdateNameofissuer = false →
  faults UpdateShortCusips = false →
  forallb ascii_text ftd_data = true →
  ascii_holdings (pending conn) = true →
  cusips_in_titleofclass ftd_cusips df ≠ [] →
  cusips_in_nameofissuer ftd_cusips df ≠ [] →
  lengths_fit ftd_cusips df = true →
  forallb (Py.all_chars valued) (checksum_codes ftd_cusips df) = true →
  forallb plain_code (short_codes ftd_cusips df) = true →
  short_codes ftd_cusips df ≠ [] →
  ∃ conn',
    clean_cusips faults ftd_data conn = (Ok (), conn')
    ∧ committed conn' = pending conn'
    ∧ filings (committed conn') = filings (pending conn)
    ∧ length (holdings (committed conn')) = length (holdings (pending conn))
    ∧ ∀ i h, holdings (pending conn) !! i = Some h →
        ∃ h', holdings (committed conn') !! i = Some h'
              ∧ filing_id h' = filing_id h ∧ position h' = position h
              ∧ (titleofclass h ∉ ftd_cusips →
                 nameofissuer h ∉ ftd_cusips →
                 (9 ≤ String.length (cusip h))%nat →
                 h' = h).
Proof.
  intros ftd_cusips df Ht Hn Hs _ _ Ht' Hn' Hfit Hvalued _ Hcodes.
  destruct (cusip_fixes_lookup _ _ Hfit Hvalued) as (fixes & Hfixes & Hlookup).
  rewrite (clean_cusips_ok _ _ _ fixes Ht Hn Hs); try done.
  2:{ intros ->. destruct (short_codes ftd_cusips df) as [| c l] eqn:Hc;
        [done |].
      specialize (Hlookup c ltac:(by left)).
      by rewrite lookup_empty in Hlookup. }
  eexists. split; [done |]. split; [done |]. simpl. split; [done |].
  split; [by rewrite !length_fmap |].
  intros i h Hi. rewrite !list_lookup_fmap, Hi. simpl.
  eexists. split; [done |].
  fold ftd_cusips df.
  destruct (fix_short_cusip_fields fixes
    (fix_nameofissuer (cusips_in_nameofissuer ftd_cusips df)
       (fix_titleofclass (cusips_in_titleofclass ftd_cusips df) h)))
    as (-> & -> & _).
  destruct (fix_nameofissuer_fields (cusips_in_nameofissuer ftd_cusips df)
    (fix_titleofclass (cusips_in_titleofclass ftd_cusips df) h)) as (-> & ->).
  destruct (fix_titleofclass_fields (cusips_in_titleofclass ftd_cusips df) h)
    as (-> & ->).
  split; [done |]. split; [done |].
  intros Htitle Hname Hlen.
  rewrite fix_titleofclass_other
    by (intros Hin; by apply targets_in_titleofclass in Hin).
  rewrite fix_nameofissuer_other
    by (intros Hin; by apply targets_in_nameofissuer in Hin).
  unfold fix_short_cusip.
  rewrite (cusip_fixes_lookup_None _ _ _ _ Hfit Hfixes); [done |].
  intros Hshort%short_codes_length. lia.
Qed.

Lemma clean_cusips_keeps_rows_witness :
  let h := {| filing_id := 1; nameofissuer := "APPLE INC";
              titleofclass := "037833100"; cusip := "COMMON STOCK";
              position := [] |} in
  let g := {| filing_id := 1; nameofissuer := "594918104";
              titleofclass := "COM"; cusip := "MICROSOFT CORP";
              position := [] |} in
  let k := {| filing_id := 2; nameofissuer := "APPLE INC";
              titleofclass := "COM"; cusip := "37833100"; position := [] |} in
  let l := {| filing_id := 2; nameofissuer := "ALPHABET INC";
              titleofclass := "CL A"; cusip := "02079K305"; position := [] |} in
  let conn :=
    connect {| filings := []; holdings := [h; g; k; l];
               filings_id_seq := 1 |} in
  ∃ conn',
    clean_cusips (fun _ => false) ["037833100"; "594918104"] conn
    = (Ok (), conn')
    ∧ holdings (committed conn') !! 3%nat = Some l.
Proof.
  intros h g k l conn.
  destruct (clean_cusips_keeps_rows (fun _ => false)
              ["037833100"; "594918104"] conn)
    as (conn' & Hrun & _ & _ & _ & Hrows);
    [done | done | done | by vm_compute | by vm_compute | by vm_compute
    | by vm_compute | by vm_compute | by vm_compute | by vm_compute
    | by vm_compute |].
  exists conn'. split; [done |].
  destruct (Hrows 3%nat l) as (l' & Hrow & _ & _ & Hsame); [done |].
  rewrite Hrow, Hsame; [done | by vm_compute | by vm_compute | simpl; lia].
Defined.



(** ** Ingestion: what a worker leaves in the database *)

Lemma insert_filing_new filing_data db :
  fd_accession_number filing_data ∉ accession_number <$> filings db →
  db_ok db →
  db_ok (insert_filing filing_data db).1
  ∧ filings_id_seq db ∈ id <$> filings (insert_filing filing_data db).1.
Proof.
  intros Hnew (Hacc & Hid & Hseq & Hfk). unfold insert_filing.
  rewrite decide_False by done. cbn [fst]. unfold db_ok.
  cbn [filings holdings filings_id_seq]. rewrite !fmap_app, !NoDup_app.
  split; [split; [| split; [| split]] |].
  - split; [done |]. split; [| apply NoDup_singleton].
    intros x Hx ->%list_elem_of_singleton. done.
  - split; [done |]. split; [| apply NoDup_singleton].
    intros x (f & -> & Hf)%list_elem_of_fmap Heq%list_elem_of_singleton.
    simpl in Heq. specialize (Hseq f Hf). lia.
  - intros f [Hf | ->%list_elem_of_singleton]%elem_of_app; cbn [id].
    + specialize (Hseq f Hf). lia.
    + lia.
  - intros h Hh. rewrite elem_of_app. left. by apply Hfk.
  - rewrite elem_of_app. right. by left.
Qed.

Lemma db_ok_insert_holdings rows db :
  db_ok db →
  (∀ h, h ∈ rows → filing_id h ∈ id <$> filings db) →
  db_ok (insert_holdings rows db).
Proof.
  intros (Hacc & Hid & Hseq & Hfk) Hrows. repeat split; try done. simpl.
  intros h [Hh | Hh]%elem_of_app; auto.
Qed.

Lemma process_individual_filing_cases faults parsed file_path db :
  let result := process_individual_filing faults parsed file_path db in
  (result = (db, []))
  ∨ (result = (db, option_list (individual_filing_message file_path))
     ∧ ∃ filing_data, parsed.1 = Some filing_data
         ∧ fd_accession_number filing_data ∈ accession_number <$> filings db)
  ∨ (∃ filing_data,
       parsed.1 = Some filing_data
       ∧ (fd_accession_number filing_data ∉ accession_number <$> filings db)
       ∧ faults InsertFiling = false
       ∧ result
         = (insert_holdings (holding_row (filings_id_seq db) <$> parsed.2)
              (insert_filing filing_data db).1,
            option_list (individual_filing_message file_path))).
Proof.
  intros result. subst result.
  destruct parsed as [[filing_data |] hs]; [| by left].
  rewrite process_individual_filing_run.
  destruct (faults InsertFiling) eqn:Hf1; [by left |].
  destruct (decide (fd_accession_number filing_data
                    ∈ accession_number <$> filings db)) as [Hin | Hnew].
  { right; left. split; [done | eauto]. }
  destruct (bool_decide (hs ≠ []) && faults InsertHoldings); [by left |].
  right; right. by exists filing_data.
Qed.

(** X9. The per-document worker keeps the tables consistent whatever the
    document holds and whichever statement fails: accession numbers and ids
    stay unique, ids stay below the sequence, and every holding points at a
    stored filing. *)
Theorem process_individual_filing_db_ok faults parsed file_path db :
  db_ok db →
  db_ok (process_individual_filing faults parsed file_path db).1.
Proof.
  intros Hok.
  destruct (process_individual_filing_cases faults parsed file_path db)
    as [-> | [[-> _] | (filing_data & _ & Hnew & _ & ->)]]; try done.
  destruct (insert_filing_new _ _ Hnew Hok) as [Hok' Hid]. simpl.
  apply db_ok_insert_holdings; [done |].
  by intros h (hd & -> & _)%list_elem_of_fmap.
Qed.

Lemma process_individual_filing_db_ok_witness :
  db_ok
    (process_individual_filing (fun _ => false)
       (Some {| fd_accession_number := "0001-24-000001"; fd_attributes := [] |},
        [ {| hd_nameofissuer := "APPLE INC"; hd_titleofclass := "COM";
             hd_cusip := "037833100"; hd_position := [] |} ])
       "2024_Q1/a.txt"
       {| filings := []; holdings := []; filings_id_seq := 1 |}).1.
Proof.
  apply process_individual_filing_db_ok.
  repeat split; try apply NoDup_nil_2; by intros x Hx%elem_of_nil.
Defined.

(** X10. The per-document worker is all or nothing in the database: it
    leaves the database exactly as it was (nothing parsed, a statement
    failed, also the holdings insert after the filing insert had gone
    through, or the accession number was stored already), or it has
    committed the new filing and all holdings of the document. It puts at
    most one message on the queue, the one made of the parts of the path,
    and only after its commit; when the name of the folder does not split
    at its underscore into two parts it puts none, also after a commit. *)
Theorem process_individual_filing_atomic faults parsed file_path db :
  let result := process_individual_filing faults parsed file_path db in
  (result.2 = []
   ∨ ∃ m, individual_filing_message file_path = Some m ∧ result.2 = [m])
  ∧ (result.1 = db
     ∨ ∃ filing_data,
         parsed.1 = Some filing_data
         ∧ (fd_accession_number filing_data ∉ accession_number <$> filings db)
         ∧ filings result.1 = filings (insert_filing filing_data db).1
         ∧ holdings result.1
           = holdings db ++ (holding_row (filings_id_seq db) <$> parsed.2)
         ∧ result.2 = option_list (individual_filing_message file_path))
  ∧ (result.2 ≠ [] →
     ∃ filing_data,
       parsed.1 = Some filing_data
       ∧ ((fd_accession_number filing_data ∈ accession_number <$> filings db
           ∧ result.1 = db)
          ∨ ((fd_accession_number filing_data ∉ accession_number <$> filings db)
             ∧ filings result.1 = filings (insert_filing filing_data db).1
             ∧ holdings result.1
               = holdings db ++ (holding_row (filings_id_seq db) <$> parsed.2))))
  ∧ (individual_filing_message file_path = None → result.2 = []).
Proof.
  intros result. subst result.
  assert (Hmsg : ∀ l : list progress_message,
            l = option_list (individual_filing_message file_path) →
            (l = [] ∨ ∃ m, individual_filing_message file_path = Some m
                           ∧ l = [m])
            ∧ (individual_filing_message file_path = None → l = [])).
  { intros l ->. destruct (individual_filing_message file_path) as [m |];
      simpl; [| by split; [left |]].
    split; [right; eauto | done]. }
  destruct (process_individual_filing_cases faults parsed file_path db)
    as [-> | [[-> (fd & Hfd & Hin)] | (fd & Hfd & Hnew & _ & ->)]];
    cbn [fst snd].
  - split; [by left |]. split; [by left |]. split; [by intros [] | done].
  - destruct (Hmsg _ eq_refl) as [H1 H2].
    split; [done |]. split; [by left |]. split; [| done].
    intros _. exists fd. auto.
  - destruct (Hmsg _ eq_refl) as [H1 H2].
    assert (Hrows : holdings (insert_holdings
                       (holding_row (filings_id_seq db) <$> parsed.2)
                       (insert_filing fd db).1)
                    = holdings db
                      ++ (holding_row (filings_id_seq db) <$> parsed.2)).
    { unfold insert_filing. by rewrite decide_False by done. }
    split; [done |]. split; [| split; [| done]].
    + right. exists fd. done.
    + intros _. exists fd. split; [done |]. right. done.
Qed.

Lemma process_individual_filing_atomic_witness :
  let db := {| filings := []; holdings := []; filings_id_seq := 1 |} in
  let filing :=
    {| fd_accession_number := "0001-24-000001"; fd_attributes := [] |} in
  let holding :=
    {| hd_nameofissuer := "APPLE INC"; hd_titleofclass := "COM";
       hd_cusip := "037833100"; hd_position := [] |} in
  (process_individual_filing (fun _ => false) (Some filing, [holding])
     "ind/2024Q1/a.txt" db).2 = []
  ∧ holdings
      (process_individual_filing (fun _ => false) (Some filing, [holding])
         "ind/2024Q1/a.txt" db).1
    = [holding_row 1 holding]
  ∧ (process_individual_filing
       (fun st => bool_decide (st = InsertHoldings)) (Some filing, [holding])
       "ind/2024_Q1/a.txt" db) = (db, []).
Proof.
  intros db filing holding. split; [| split; reflexivity].
  by apply (proj2 (proj2 (proj2 (process_individual_filing_atomic
    (fun _ => false) (Some filing, [holding]) "ind/2024Q1/a.txt" db)))).
Defined.

(** ** Post-processing: a step that fails *)

Lemma run_steps_fault faults before step after n db :
  (∀ k, (k < length before)%nat → faults (PostProcessStep (n + k)) = false) →
  faults (PostProcessStep (n + length before)) = true →
  run_steps faults n (before ++ step :: after) (connect db)
  = (Raise DatabaseError, connect (apply_steps before db)).
Proof.
  revert n db. induction before as [| s before IH]; intros n db Hok Hfault.
  - simpl in *. rewrite Nat.add_0_r in Hfault. unfold mbind, tx_bind, execute.
    by rewrite execute_returning_fault by done.
  - simpl. unfold mbind, tx_bind, execute.
    rewrite execute_returning_ok
      by (specialize (Hok 0%nat); rewrite Nat.add_0_r in Hok; apply Hok; simpl; lia).
    simpl. apply (IH (S n) (s db)).
    + intros k Hk. replace (S n + k)%nat with (n + S k)%nat by lia.
      apply Hok. simpl. lia.
    + by replace (S n + length before)%nat with (n + length (s :: before))%nat
        by (simpl; lia).
Qed.

(** X11. When one of the numbered post-processing steps fails,
    [post_process_data] keeps what the steps before it committed, applies
    nothing of the failing step or of any later step, does not run
    [clean_cusips], and logs the error instead of raising it. *)
Theorem post_process_data_step_fault faults before step after ftd_data db :
  (∀ k, (k < length before)%nat → faults (PostProcessStep (1 + k)) = false) →
  faults (PostProcessStep (1 + length before)) = true →
  post_process_data faults (before ++ step :: after) ftd_data db
  = (apply_steps before db, Some DatabaseError).
Proof.
  intros Hok Hfault. unfold post_process_data, try_except, mbind, tx_bind.
  by rewrite run_steps_fault.
Qed.

Lemma post_process_data_step_fault_witness :
  let h := {| filing_id := 1; nameofissuer := "APPLE INC";
              titleofclass := "037833100"; cusip := "COMMON STOCK";
              position := [] |} in
  let db := {| filings := []; holdings := [h; h]; filings_id_seq := 1 |} in
  let drop_first := fun d : database =>
    {| filings := filings d; holdings := List.tl (holdings d);
       filings_id_seq := filings_id_seq d |} in
  post_process_data (fun st => bool_decide (st = PostProcessStep 2))
    [drop_first; drop_first] ["037833100"] db
  = ({| filings := []; holdings := [h]; filings_id_seq := 1 |},
     Some DatabaseError).
Proof.
  intros h db drop_first.
  apply (post_process_data_step_fault
           (fun st => bool_decide (st = PostProcessStep 2))
           [drop_first] drop_first [] ["037833100"] db).
  - intros k Hk. simpl in Hk. by replace k with 0%nat by lia.
  - reflexivity.
Defined.

(** ** The check digit: which errors it detects *)

Lemma values_app s t : values_of (s +:+ t) = values_of s ++ values_of t.
Proof. induction s as [| c s IH]; simpl; [done | by rewrite IH]. Qed.

Lemma values_length s : length (values_of s) = String.length s.
Proof. induction s as [| c s IH]; simpl; [done | by rewrite IH]. Qed.

Lemma check_loop_app i vs1 vs2 total :
  check_loop i (vs1 ++ vs2) total
  = check_loop (i + Z.of_nat (length vs1)) vs2 (check_loop i vs1 total).
Proof.
  revert i total. induction vs1 as [| v vs1 IH]; intros i total; simpl.
  - by rewrite Z.add_0_r.
  - rewrite IH. f_equal. lia.
Qed.

Lemma check_loop_total i vs total :
  check_loop i vs total = total + check_loop i vs 0.
Proof.
  revert i total. induction vs as [| v vs IH]; intros i total; simpl; [lia |].
  rewrite IH, (IH _ (0 + _)). lia.
Qed.

Lemma isdigit_char_value c :
  Py.isdecimal c = true →
  0 ≤ value_of c ≤ 9 ∧ value_of c = Py.ord c - 48 ∧ valued c = true.
Proof.
  destruct c as [[] [] [] [] [] [] [] []]; vm_compute;
    first [ discriminate | intros _; repeat split; congruence ].
Qed.

Lemma ord_inj c1 c2 : Py.ord c1 = Py.ord c2 → c1 = c2.
Proof.
  unfold Py.ord. intros H%N2Z.inj.
  by rewrite <- (ascii_N_embedding c1), <- (ascii_N_embedding c2), H.
Qed.

(** What one value adds to the total at index [i]. *)
Lemma check_loop_one i v total :
  check_loop i [v] total
  = total + (if i mod 2 =? 1 then (v * 2) / 10 + (v * 2) mod 10
             else v / 10 + v mod 10).
Proof. simpl. by destruct (i mod 2 =? 1). Qed.

Lemma digit_term_inj (odd : bool) v1 v2 :
  0 ≤ v1 ≤ 9 → 0 ≤ v2 ≤ 9 → v1 ≠ v2 →
  let term v := if odd then (v * 2) / 10 + (v * 2) mod 10
                else v / 10 + v mod 10 in
  0 ≤ term v1 ≤ 9 ∧ 0 ≤ term v2 ≤ 9 ∧ term v1 ≠ term v2.
Proof.
  intros H1 H2 Hne term.
  assert (Hc1 : v1 = 0 ∨ v1 = 1 ∨ v1 = 2 ∨ v1 = 3 ∨ v1 = 4 ∨ v1 = 5 ∨ v1 = 6
                ∨ v1 = 7 ∨ v1 = 8 ∨ v1 = 9) by lia.
  assert (Hc2 : v2 = 0 ∨ v2 = 1 ∨ v2 = 2 ∨ v2 = 3 ∨ v2 = 4 ∨ v2 = 5 ∨ v2 = 6
                ∨ v2 = 7 ∨ v2 = 8 ∨ v2 = 9) by lia.
  subst term.
  destruct odd;
    repeat (destruct Hc1 as [-> | Hc1]); try subst v1;
    repeat (destruct Hc2 as [-> | Hc2]); try subst v2;
    vm_compute; repeat split; congruence.
Qed.

Lemma str_digit_inj d1 d2 :
  0 ≤ d1 ≤ 9 → 0 ≤ d2 ≤ 9 → Py.str d1 = Py.str d2 → d1 = d2.
Proof.
  intros H1 H2. rewrite !str_one_digit by done. intros [= Heq].
  apply (f_equal N_of_ascii) in Heq.
  rewrite !N_ascii_embedding in Heq by lia. lia.
Qed.

Lemma check_digit_of_total_inj t1 t2 :
  (10 - t1 mod 10) mod 10 = (10 - t2 mod 10) mod 10 → t1 mod 10 = t2 mod 10.
Proof.
  pose proof (Z.mod_pos_bound t1 10). pose proof (Z.mod_pos_bound t2 10).
  generalize dependent (t1 mod 10). generalize dependent (t2 mod 10).
  intros y Hy x Hx.
  assert (Hcx : x = 0 ∨ x = 1 ∨ x = 2 ∨ x = 3 ∨ x = 4 ∨ x = 5 ∨ x = 6
                ∨ x = 7 ∨ x = 8 ∨ x = 9) by lia.
  assert (Hcy : y = 0 ∨ y = 1 ∨ y = 2 ∨ y = 3 ∨ y = 4 ∨ y = 5 ∨ y = 6
                ∨ y = 7 ∨ y = 8 ∨ y = 9) by lia.
  repeat (destruct Hcx as [-> | Hcx]); try subst x;
    repeat (destruct Hcy as [-> | Hcy]); try subst y;
    vm_compute; congruence.
Qed.

(** X12. The check digit detects the substitution of one digit by another:
    two 8-character stems of valued characters that differ in exactly one
    position, with a decimal digit in that position in both, never get the
    same check digit. *)
Theorem compute_check_digit_digit_substitution a c1 c2 b :
  String.length (a +:+ String c1 b) = 8%nat →
  Py.all_chars valued a = true →
  Py.all_chars valued b = true →
  Py.isdecimal c1 = true →
  Py.isdecimal c2 = true →
  c1 ≠ c2 →
  ∃ d1 d2,
    compute_check_digit (a +:+ String c1 b) = Ok d1
    ∧ compute_check_digit (a +:+ String c2 b) = Ok d2
    ∧ d1 ≠ d2.
Proof.
  intros Hlen Ha Hb Hc1 Hc2 Hne.
  destruct (isdigit_char_value _ Hc1) as (Hv1 & Ho1 & Hn1).
  destruct (isdigit_char_value _ Hc2) as (Hv2 & Ho2 & Hn2).
  assert (Hlen2 : String.length (a +:+ String c2 b) = 8%nat)
    by (rewrite string_length_app in *; simpl in *; lia).
  rewrite !compute_check_digit_ok; try done;
    try (rewrite all_chars_app; simpl; by rewrite Ha, ?Hn1, ?Hn2, Hb).
  eexists _, _. split; [done |]. split; [done |].
  rewrite !values_app. cbn [values_of].
  change (value_of c1 :: values_of b) with ([value_of c1] ++ values_of b).
  change (value_of c2 :: values_of b) with ([value_of c2] ++ values_of b).
  rewrite !check_loop_app, !check_loop_one.
  set (i := 0 + Z.of_nat (length (values_of a))).
  set (ta := check_loop 0 (values_of a) 0).
  rewrite (check_loop_total _ (values_of b) (ta + _)).
  rewrite (check_loop_total _ (values_of b)
             (ta + (if i mod 2 =? 1 then _ else value_of c2 / 10 + _))).
  set (tb := check_loop _ (values_of b) 0).
  assert (Hv : value_of c1 ≠ value_of c2).
  { intros Heq. apply Hne, ord_inj. lia. }
  destruct (digit_term_inj (i mod 2 =? 1) _ _ Hv1 Hv2 Hv) as (Ht1 & Ht2 & Hterm).
  intros Heq%str_digit_inj.
  - apply check_digit_of_total_inj in Heq. revert Heq Ht1 Ht2 Hterm.
    generalize (if i mod 2 =? 1
                then value_of c1 * 2 / 10 + (value_of c1 * 2) mod 10
                else value_of c1 / 10 + value_of c1 mod 10).
    generalize (if i mod 2 =? 1
                then value_of c2 * 2 / 10 + (value_of c2 * 2) mod 10
                else value_of c2 / 10 + value_of c2 mod 10).
    intros e2 e1 Heq. Z.to_euclidean_division_equations. lia.
  - pose proof (Z.mod_pos_bound (10 - (ta + (if i mod 2 =? 1
                then value_of c1 * 2 / 10 + (value_of c1 * 2) mod 10
                else value_of c1 / 10 + value_of c1 mod 10) + tb) mod 10) 10).
    lia.
  - pose proof (Z.mod_pos_bound (10 - (ta + (if i mod 2 =? 1
                then value_of c2 * 2 / 10 + (value_of c2 * 2) mod 10
                else value_of c2 / 10 + value_of c2 mod 10) + tb) mod 10) 10).
    lia.
Qed.

Lemma compute_check_digit_digit_substitution_witness :
  ∃ d1 d2,
    compute_check_digit "03783310" = Ok d1
    ∧ compute_check_digit "03783390" = Ok d2
    ∧ d1 ≠ d2.
Proof.
  apply (compute_check_digit_digit_substitution "037833" "1" "9" "0");
    try reflexivity.
  by intros [=].
Defined.

(** ** Text of numbers, folder names and paths *)

Lemma all_chars_impl (p q : ascii → bool) s :
  (∀ c, p c = true → q c = true) →
  Py.all_chars p s = true → Py.all_chars q s = true.
Proof.
  intros Hpq. induction s as [| c s IH]; simpl; [done |].
  intros [Hc Hs]%andb_true_iff. by rewrite (Hpq c Hc), IH.
Qed.

Lemma string_of_uint_digits d :
  Py.all_chars Py.isdecimal (NilEmpty.string_of_uint d) = true.
Proof. induction d; simpl; by rewrite ?IHd. Qed.

(** [str(n)] is a non-empty run of digits, behind a minus sign when [n] is
    negative. *)
Lemma str_shape n :
  ∃ d, d ≠ Decimal.Nil
       ∧ ((0 ≤ n ∧ Z.to_int n = Decimal.Pos d
           ∧ Py.str n = NilEmpty.string_of_uint d)
          ∨ (n < 0 ∧ Z.to_int n = Decimal.Neg d
             ∧ Py.str n = String "-" (NilEmpty.string_of_uint d))).
Proof.
  unfold Py.str. destruct n as [| p | p]; simpl.
  - exists (Decimal.D0 Decimal.Nil). split; [done |]. left.
    split; [lia | by split].
  - exists (Pos.to_uint p). split; [apply DecimalPos.Unsigned.to_uint_nonnil |].
    left. split; [lia |]. split; [done |].
    pose proof (DecimalPos.Unsigned.to_uint_nonnil p).
    by destruct (Pos.to_uint p).
  - exists (Pos.to_uint p). split; [apply DecimalPos.Unsigned.to_uint_nonnil |].
    right. split; [lia |]. split; [done |].
    pose proof (DecimalPos.Unsigned.to_uint_nonnil p).
    by destruct (Pos.to_uint p).
Qed.

Lemma str_chars n :
  Py.all_chars (fun c => Py.isdecimal c || Ascii.eqb c "-") (Py.str n) = true.
Proof.
  destruct (str_shape n) as (d & _ & [(_ & _ & ->) | (_ & _ & ->)]); simpl.
  - eapply all_chars_impl; [| apply string_of_uint_digits].
    by intros c ->.
  - eapply all_chars_impl; [| apply string_of_uint_digits].
    by intros c ->.
Qed.

Lemma str_nonempty n : Py.str n ≠ EmptyString.
Proof.
  destruct (str_shape n) as (d & Hd & [(_ & _ & ->) | (_ & _ & ->)]); [| done].
  by destruct d.
Qed.

Lemma digits_ok_digits s :
  Py.all_chars Py.isdecimal s = true → s ≠ EmptyString →
  PyText.digits_ok false s = true ∧ PyText.remove_underscores s = s.
Proof.
  intros Hall Hne.
  assert (Hgen : ∀ b, Py.all_chars Py.isdecimal s = true →
            PyText.digits_ok b s = (b || negb (String.eqb s ""))
            ∧ PyText.remove_underscores s = s).
  { clear. induction s as [| c s IH]; intros b; simpl.
    - intros _. by rewrite orb_false_r.
    - intros [Hc Hs]%andb_true_iff. rewrite Hc.
      destruct (IH true Hs) as [-> ->]. rewrite orb_true_r.
      split; [done |].
      assert (Ascii.eqb c "_" = false) as ->; [| done].
      revert Hc. by destruct c as [[] [] [] [] [] [] [] []]. }
  destruct (Hgen false Hall) as [-> ->]. split; [| done].
  by destruct s.
Qed.

Lemma strip_digits s :
  Py.all_chars (fun c => Py.isdecimal c || Ascii.eqb c "-") s = true →
  PyText.rstrip (PyText.lstrip s) = s.
Proof.
  intros Hall.
  assert (Hns : Py.all_chars (fun c => negb (Py.isspace c)) s = true).
  { eapply all_chars_impl; [| exact Hall].
    intros c. by destruct c as [[] [] [] [] [] [] [] []]. }
  clear Hall.
  assert (Hl : PyText.lstrip s = s).
  { destruct s as [| c s]; simpl in *; [done |].
    apply andb_true_iff in Hns as [Hc _]. by destruct (Py.isspace c). }
  rewrite Hl. induction s as [| c s IH]; simpl in *; [done |].
  apply andb_true_iff in Hns as [Hc Hs].
  rewrite IH; [| done | by destruct s as [| c' s]; simpl in *;
    [| apply andb_true_iff in Hs as [Hc' _]; destruct (Py.isspace c')]].
  destruct s; [by destruct (Py.isspace c) | done].
Qed.

(** [int(str(n)) == n] *)
Lemma int_str n : PyText.int (Py.str n) = Some n.
Proof.
  unfold PyText.int. rewrite strip_digits by apply str_chars.
  pose proof (DecimalZ.of_to n) as Hn.
  destruct (str_shape n) as (d & Hd & [(_ & Hint & ->) | (_ & Hint & ->)]);
    rewrite Hint in Hn; simpl in Hn.
  - pose proof (string_of_uint_digits d) as Hdig.
    assert (Hne : NilEmpty.string_of_uint d ≠ EmptyString) by by destruct d.
    destruct (digits_ok_digits _ Hdig Hne) as [Hok Hrm].
    destruct (NilEmpty.string_of_uint d) as [| c s] eqn:Hs; [done |].
    assert (Hc : Py.isdecimal c = true) by by apply andb_true_iff in Hdig as [? _].
    assert (match String c s with
            | String "-" rest => (true, rest)
            | String "+" rest => (false, rest)
            | _ => (false, String c s)
            end = (false, String c s)) as ->.
    { revert Hc. by destruct c as [[] [] [] [] [] [] [] []]. }
    rewrite Hok, Hrm, <- Hs.
    assert (NilZero.uint_of_string (NilEmpty.string_of_uint d) = Some d) as ->.
    { rewrite <- (NilZero.usu d Hd). unfold NilZero.string_of_uint.
      by destruct d. }
    simpl. by rewrite Hn.
  - pose proof (string_of_uint_digits d) as Hdig.
    assert (Hne : NilEmpty.string_of_uint d ≠ EmptyString) by by destruct d.
    destruct (digits_ok_digits _ Hdig Hne) as [Hok Hrm].
    rewrite Hok, Hrm.
    assert (NilZero.uint_of_string (NilEmpty.string_of_uint d) = Some d) as ->.
    { rewrite <- (NilZero.usu d Hd). unfold NilZero.string_of_uint.
      by destruct d. }
    simpl. by rewrite Hn.
Qed.

Lemma str_inj n m : Py.str n = Py.str m → n = m.
Proof.
  intros Heq. pose proof (int_str n) as Hn. rewrite Heq, int_str in Hn.
  by injection Hn.
Qed.

Lemma has_sep_app s t :
  OsPath.has_sep (s +:+ t) = OsPath.has_sep s || OsPath.has_sep t.
Proof.
  induction s as [| c s IH]; simpl; [done |]. by rewrite IH, orb_assoc.
Qed.

Lemma basename_no_sep name :
  OsPath.has_sep name = false → OsPath.basename name = name.
Proof.
  destruct name as [| c name]; simpl; [done |].
  intros [Hc ->]%orb_false_iff. by rewrite Hc.
Qed.

Lemma basename_app_sep d name :
  OsPath.has_sep name = false →
  OsPath.basename (d +:+ String "/" name) = name.
Proof.
  intros Hname. induction d as [| c d IH]; simpl.
  - by rewrite Hname.
  - rewrite has_sep_app. simpl. by rewrite orb_true_r.
Qed.

Lemma head_app_sep d name :
  OsPath.has_sep name = false →
  OsPath.head (d +:+ String "/" name) = d +:+ "/".
Proof.
  intros Hname. induction d as [| c d IH]; simpl.
  - by rewrite Hname.
  - rewrite has_sep_app. simpl. by rewrite orb_true_r, IH.
Qed.

Lemma endswith_sep_split path :
  OsPath.endswith_sep path = true → ∃ d, path = d +:+ "/".
Proof.
  induction path as [| c path IH]; [done |].
  destruct path as [| c' path].
  - simpl. intros ->%Ascii.eqb_eq. by exists EmptyString.
  - intros Hend. destruct IH as [d Hd]; [done |].
    exists (String c d). simpl. by rewrite Hd.
Qed.

Lemma string_app_assoc (s t u : string) : (s +:+ t) +:+ u = s +:+ (t +:+ u).
Proof.
  induction s as [| c s IH]; [done |].
  change (String c ((s +:+ t) +:+ u) = String c (s +:+ (t +:+ u))).
  by rewrite IH.
Qed.

Lemma join_step_plain path name :
  OsPath.has_sep name = false →
  OsPath.join_step path name = name
  ∨ ∃ d, OsPath.join_step path name = d +:+ String "/" name.
Proof.
  intros Hname. unfold OsPath.join_step.
  assert (OsPath.startswith_sep name = false) as ->.
  { destruct name as [| c name]; simpl in *; [done |].
    by apply orb_false_iff in Hname as [? _]. }
  destruct (String.eqb_spec path "") as [-> | Hne]; simpl; [by left |].
  destruct (OsPath.endswith_sep path) eqn:Hend; [| by right; exists path].
  right. apply endswith_sep_split in Hend as [d ->]. exists d.
  by rewrite string_app_assoc.
Qed.

Lemma basename_join_step path name :
  OsPath.has_sep name = false →
  OsPath.basename (OsPath.join_step path name) = name.
Proof.
  intros Hname.
  destruct (join_step_plain path name Hname) as [-> | [d ->]].
  - by apply basename_no_sep.
  - by apply basename_app_sep.
Qed.

(** A name that is not empty and does not end with the separator. *)
Lemma rstrip_sep_app_sep x :
  x ≠ EmptyString → OsPath.endswith_sep x = false →
  OsPath.rstrip_sep (x +:+ "/") = x
  ∧ Py.all_chars (Ascii.eqb OsPath.sep) (x +:+ "/") = false.
Proof.
  induction x as [| c x IH]; [done |]. intros _ Hend.
  destruct x as [| c' x].
  - change (String c "" +:+ "/") with (String c "/"). simpl in *.
    rewrite Hend. split; [done |].
    revert Hend. clear. by destruct c as [[] [] [] [] [] [] [] []].
  - destruct IH as [IH1 IH2]; [done | done |].
    change (String c (String c' x) +:+ "/")
      with (String c (String c' x +:+ "/")).
    split.
    + change (OsPath.rstrip_sep (String c (String c' x +:+ "/")))
        with (match OsPath.rstrip_sep (String c' x +:+ "/") with
              | EmptyString =>
                  if Ascii.eqb c OsPath.sep then EmptyString
                  else String c EmptyString
              | r => String c r
              end).
      by rewrite IH1.
    + change (Py.all_chars (Ascii.eqb OsPath.sep) (String c (String c' x +:+ "/")))
        with (Ascii.eqb OsPath.sep c
              && Py.all_chars (Ascii.eqb OsPath.sep) (String c' x +:+ "/")).
      by rewrite IH2, andb_false_r.
Qed.

Lemma endswith_sep_app d name :
  name ≠ EmptyString →
  OsPath.endswith_sep (d +:+ name) = OsPath.endswith_sep name.
Proof.
  intros Hname. induction d as [| c d IH]; [done |].
  change (String c d +:+ name) with (String c (d +:+ name)).
  destruct (d +:+ name) as [| c' r] eqn:Hr.
  - destruct d; [by simpl in Hr | done].
  - by rewrite <- IH.
Qed.

Lemma dirname_join_step x name :
  x ≠ EmptyString → OsPath.endswith_sep x = false →
  OsPath.has_sep name = false →
  OsPath.join_step x name = x +:+ String "/" name
  ∧ OsPath.dirname (x +:+ String "/" name) = x.
Proof.
  intros Hx Hend Hname. split.
  - unfold OsPath.join_step.
    assert (OsPath.startswith_sep name = false) as ->.
    { destruct name as [| c name]; simpl in *; [done |].
      by apply orb_false_iff in Hname as [? _]. }
    rewrite Hend. by destruct (String.eqb_spec x "").
  - unfold OsPath.dirname. rewrite head_app_sep by done.
    destruct (rstrip_sep_app_sep x Hx Hend) as [-> ->].
    by destruct x.
Qed.

Lemma split_no_sep sep s :
  Py.all_chars (fun c => negb (Ascii.eqb c sep)) s = true →
  PyText.split sep s = [s].
Proof.
  induction s as [| c s IH]; simpl; [done |].
  intros [Hc Hs]%andb_true_iff. apply negb_true_iff in Hc.
  by rewrite Hc, IH.
Qed.

Lemma split_app_sep sep s t :
  Py.all_chars (fun c => negb (Ascii.eqb c sep)) s = true →
  PyText.split sep (s +:+ String sep t) = s :: PyText.split sep t.
Proof.
  induction s as [| c s IH]; simpl.
  - intros _. by rewrite Ascii.eqb_refl.
  - intros [Hc Hs]%andb_true_iff. apply negb_true_iff in Hc.
    by rewrite Hc, IH.
Qed.

Lemma str_no_char n (x : ascii) :
  Py.isdecimal x = false → x ≠ "-"%char →
  Py.all_chars (fun c => negb (Ascii.eqb c x)) (Py.str n) = true.
Proof.
  intros Hx Hminus. eapply all_chars_impl; [| apply str_chars].
  intros c Hc. apply negb_true_iff, Ascii.eqb_neq. intros ->.
  rewrite Hx in Hc. simpl in Hc. by apply Ascii.eqb_eq in Hc.
Qed.

Lemma all_chars_has_sep s :
  Py.all_chars (fun c => negb (Ascii.eqb c OsPath.sep)) s = true →
  OsPath.has_sep s = false.
Proof.
  induction s as [| c s IH]; simpl; [done |].
  intros [Hc Hs]%andb_true_iff. apply negb_true_iff in Hc.
  by rewrite Hc, IH.
Qed.

(** The folder name of a quarter: no separator in it, not empty, and split
    at the underscore into the year and "Q" with the quarter. *)
Lemma quarter_folder_facts y q :
  OsPath.has_sep (quarter_folder y q) = false
  ∧ quarter_folder y q ≠ EmptyString
  ∧ OsPath.endswith_sep (quarter_folder y q) = false
  ∧ PyText.split "_" (quarter_folder y q) = [Py.str y; "Q" +:+ Py.str q].
Proof.
  unfold quarter_folder.
  assert (Hy : OsPath.has_sep (Py.str y) = false)
    by (apply all_chars_has_sep, str_no_char; done).
  assert (Hq : OsPath.has_sep (Py.str q) = false)
    by (apply all_chars_has_sep, str_no_char; done).
  split; [| split; [| split]].
  - by rewrite !has_sep_app, Hy, Hq.
  - pose proof (str_nonempty y). by destruct (Py.str y).
  - rewrite endswith_sep_app by done.
    rewrite (endswith_sep_app "_Q") by apply str_nonempty.
    pose proof (str_nonempty q) as Hne.
    revert Hq Hne. generalize (Py.str q). intros s.
    induction s as [| c s IH]; [done |]. simpl.
    intros [Hc Hs]%orb_false_iff _. destruct s; [done |]. by apply IH.
  - change (Py.str y +:+ "_Q" +:+ Py.str q)
      with (Py.str y +:+ String "_" (String "Q" (Py.str q))).
    rewrite split_app_sep by (apply str_no_char; done).
    f_equal. apply (split_no_sep "_" (String "Q" (Py.str q))).
    simpl. apply str_no_char; done.
Qed.

(** ** Progress messages *)

(** The directory of a quarter under [dir]. *)
Lemma quarter_dir_facts dir y q :
  let folder := OsPath.join dir [quarter_folder y q] in
  folder ≠ EmptyString
  ∧ OsPath.endswith_sep folder = false
  ∧ OsPath.basename folder = quarter_folder y q.
Proof.
  destruct (quarter_folder_facts y q) as (Hsep & Hne & Hend & _).
  simpl. split; [| split].
  - destruct (join_step_plain dir _ Hsep) as [-> | [d ->]]; [done |].
    by destruct d.
  - destruct (join_step_plain dir _ Hsep) as [-> | [d ->]]; [done |].
    rewrite (endswith_sep_app d (String "/" (quarter_folder y q))) by done.
    by destruct (quarter_folder y q).
  - by apply basename_join_step.
Qed.

(** The path of a file of a quarter, and its parts. *)
Lemma quarter_file_facts dir y q filename :
  OsPath.has_sep filename = false →
  let folder := OsPath.join dir [quarter_folder y q] in
  let path := OsPath.join dir [quarter_folder y q; filename] in
  path = folder +:+ String "/" filename
  ∧ OsPath.dirname path = folder
  ∧ OsPath.basename path = filename.
Proof.
  intros Hname folder path.
  destruct (quarter_dir_facts dir y q) as (Hne & Hend & _).
  destruct (dirname_join_step _ filename Hne Hend Hname) as [Hjoin Hdir].
  assert (Hpath : path = folder +:+ String "/" filename) by exact Hjoin.
  rewrite Hpath. split; [done |]. split; [done |].
  by apply basename_app_sep.
Qed.

Lemma individual_filing_message_join dir y q filename :
  OsPath.has_sep filename = false →
  individual_filing_message (OsPath.join dir [quarter_folder y q; filename])
  = Some (individual_filings,
          OsPath.join dir [quarter_folder y q; filename],
          PyStr (Py.str y), PyStr ("Q" +:+ Py.str q), filename).
Proof.
  intros Hname. unfold individual_filing_message.
  destruct (quarter_file_facts dir y q filename Hname) as (_ & -> & ->).
  destruct (quarter_dir_facts dir y q) as (_ & _ & ->).
  by destruct (quarter_folder_facts y q) as (_ & _ & _ & ->).
Qed.

Lemma structured_data_message_join dir y q :
  0 ≤ q ≤ 9 →
  structured_data_message (OsPath.join dir [quarter_folder y q])
  = Some (structured_data, OsPath.join dir [quarter_folder y q],
          PyInt y, PyInt q, quarter_folder y q).
Proof.
  intros Hq. unfold structured_data_message.
  destruct (quarter_dir_facts dir y q) as (_ & _ & ->).
  destruct (quarter_folder_facts y q) as (_ & _ & _ & ->).
  rewrite int_str. simpl.
  assert (∃ c, Py.str q = String c EmptyString) as [c Hc].
  { assert (q = 0 ∨ q = 1 ∨ q = 2 ∨ q = 3 ∨ q = 4 ∨ q = 5 ∨ q = 6 ∨ q = 7
            ∨ q = 8 ∨ q = 9) as Hcases by lia.
    repeat destruct Hcases as [-> | Hcases]; try subst q; by eexists. }
  change (String.get 1 ("Q" +:+ Py.str q)) with (String.get 0 (Py.str q)).
  rewrite Hc. simpl. rewrite <- Hc, int_str. simpl.
  by unfold quarter_folder.
Qed.

(** The folder name tells the quarter. *)
Lemma quarter_folder_inj y q y' q' :
  quarter_folder y q = quarter_folder y' q' → y = y' ∧ q = q'.
Proof.
  intros Heq.
  pose proof (quarter_folder_facts y q) as (_ & _ & _ & Hsplit).
  rewrite Heq in Hsplit.
  destruct (quarter_folder_facts y' q') as (_ & _ & _ & Hsplit').
  rewrite Hsplit' in Hsplit. injection Hsplit as Hy Hq.
  split; by apply str_inj.
Qed.

(** X13. The per-document worker's message for a file of a quarter's folder
    carries the year as text, the quarter as "Q" with its number, and the
    file name; once the aggregator has marked it, the lookup of the
    enumeration, with the year and the quarter as numbers, finds the file. *)
Theorem individual_filing_message_marked dir y q filename now self :
  OsPath.has_sep filename = false →
  let path := OsPath.join dir [quarter_folder y q; filename] in
  individual_filing_message path
  = Some (individual_filings, path, PyStr (Py.str y),
          PyStr ("Q" +:+ Py.str q), filename)
  ∧ is_processed individual_filings (PyInt y) (PyInt q) filename
      (mark_message now
         (individual_filings, path, PyStr (Py.str y),
          PyStr ("Q" +:+ Py.str q), filename) self)
    = true.
Proof.
  intros Hname path. split; [by apply individual_filing_message_join |].
  apply is_processed_after_mark. right. split; [done |]. split; [done |]. by right.
Qed.

Lemma individual_filing_message_marked_witness :
  is_processed individual_filings (PyInt 2024) (PyInt 1) "0001.txt"
    (mark_message "t"
       (individual_filings, "data/2024_Q1/0001.txt"%string, PyStr "2024",
        PyStr "Q1", "0001.txt"%string) (init "t0" None))
  = true.
Proof.
  apply (individual_filing_message_marked "data" 2024 1 "0001.txt" "t"
           (init "t0" None)).
  reflexivity.
Defined.

(** X14. For a quarter numbered 0 to 9 the bulk worker's message for the
    quarter's folder carries the year and the quarter as numbers and the
    folder's name as the item; once the aggregator has marked it, the lookup
    of the enumeration finds the quarter. *)
Theorem structured_data_message_marked dir y q now self :
  0 ≤ q ≤ 9 →
  let path := OsPath.join dir [quarter_folder y q] in
  structured_data_message path
  = Some (structured_data, path, PyInt y, PyInt q, quarter_folder y q)
  ∧ is_processed structured_data (PyInt y) (PyInt q) (quarter_folder y q)
      (mark_message now
         (structured_data, path, PyInt y, PyInt q, quarter_folder y q) self)
    = true.
Proof.
  intros Hq path. split; [by apply structured_data_message_join |].
  apply is_processed_after_mark. right. split; [done |]. split; [done |]. by left.
Qed.

Lemma structured_data_message_marked_witness :
  structured_data_message "data/2023_Q4"
  = Some (structured_data, "data/2023_Q4"%string, PyInt 2023, PyInt 4,
          "2023_Q4"%string).
Proof.
  apply (structured_data_message_marked "data" 2023 4 "t" (init "t0" None)).
  lia.
Defined.

(** ** The aggregator *)

Lemma aggregator_loop_done total_tasks completed_tasks trace self :
  total_tasks ≤ completed_tasks →
  aggregator_loop total_tasks completed_tasks trace self = Some self.
Proof.
  intros Hle. destruct trace; simpl;
    by destruct (Z.ltb_spec completed_tasks total_tasks); [lia |].
Qed.

Lemma aggregator_loop_marks total_tasks trace : ∀ completed_tasks self self',
  aggregator_loop total_tasks completed_tasks trace self = Some self' →
  self'
  = mark_all
      (take (Z.to_nat (total_tasks - completed_tasks)) (received trace)) self.
Proof.
  induction trace as [| event trace IH]; intros completed_tasks self self';
    simpl; destruct (Z.ltb_spec completed_tasks total_tasks) as [Hlt | Hge];
    try (replace (Z.to_nat (total_tasks - completed_tasks)) with 0%nat by lia;
         by intros [= <-]);
    [done |].
  destruct event as [now [[[[c p] y] q] item] | [|]].
  - intros Hloop. apply IH in Hloop.
    replace (Z.to_nat (total_tasks - completed_tasks))
      with (S (Z.to_nat (total_tasks - (completed_tasks + 1)))) by lia.
    done.
  - intros [= <-]. by rewrite take_nil.
  - apply IH.
Qed.

Lemma aggregator_loop_enough total_tasks trace : ∀ completed_tasks self,
  (Z.to_nat (total_tasks - completed_tasks) ≤ length (received trace))%nat
  ∨ Timeout true ∈ trace →
  is_Some (aggregator_loop total_tasks completed_tasks trace self).
Proof.
  induction trace as [| event trace IH]; intros completed_tasks self Hend;
    destruct (Z.le_gt_cases total_tasks completed_tasks) as [Hge | Hlt];
    try (rewrite aggregator_loop_done by done; by eexists).
  - destruct Hend as [Hlen | Hin]; [simpl in Hlen; lia |].
    by apply elem_of_nil in Hin.
  - simpl. destruct (Z.ltb_spec completed_tasks total_tasks); [| lia].
    destruct event as [now [[[[c p] y] q] item] | [|]]; [| by eexists |].
    + apply IH. destruct Hend as [Hlen | Hin].
      * left. simpl in Hlen. lia.
      * right. by apply elem_of_cons in Hin as [[=] | Hin].
    + apply IH. destruct Hend as [Hlen | Hin]; [by left |].
      right. by apply elem_of_cons in Hin as [[=] | Hin].
Qed.

Lemma aggregator_loop_ended total_tasks trace : ∀ completed_tasks self,
  is_Some (aggregator_loop total_tasks completed_tasks trace self) →
  (Z.to_nat (total_tasks - completed_tasks) ≤ length (received trace))%nat
  ∨ Timeout true ∈ trace.
Proof.
  induction trace as [| event trace IH]; intros completed_tasks self;
    simpl; destruct (Z.ltb_spec completed_tasks total_tasks);
    try (intros _; left; lia).
  - by intros [? [=]].
  - destruct event as [now [[[[c p] y] q] item] | [|]].
    + intros [Hlen | Hin]%IH; [left; simpl; lia | by right; right].
    + intros _. right. by left.
    + intros [Hlen | Hin]%IH; [by left | by right; right].
Qed.

(** X15. The aggregator's loop ends when it has taken as many messages as
    there are tasks or at the first timeout at which the pool is ready,
    whichever comes first, and goes on otherwise. When it ends the tracker
    has had exactly the messages taken until then marked, in their order:
    never more than the number of tasks, and none that comes after the
    ready timeout. *)
Theorem aggregator_loop_result total_tasks completed_tasks trace self :
  let messages :=
    take (Z.to_nat (total_tasks - completed_tasks)) (received trace) in
  (∀ self',
     aggregator_loop total_tasks completed_tasks trace self = Some self' →
     self' = mark_all messages self)
  ∧ (is_Some (aggregator_loop total_tasks completed_tasks trace self)
     ↔ (Z.to_nat (total_tasks - completed_tasks) ≤ length (received trace))%nat
       ∨ Timeout true ∈ trace).
Proof.
  split; [intros self'; apply aggregator_loop_marks |].
  split; [| apply aggregator_loop_enough].
  apply aggregator_loop_ended.
Qed.

(** ** Work lists and resumption *)

Lemma elem_of_mapM_join {A B} (f : A → option (list B)) (l : list A)
    (k : list (list B)) (x : B) :
  mapM f l = Some k →
  x ∈ mjoin k ↔ ∃ a ys, a ∈ l ∧ f a = Some ys ∧ x ∈ ys.
Proof.
  rewrite mapM_Some. intros Hall. rewrite list_elem_of_join. split.
  - intros (ys & Hx & Hys). apply list_elem_of_lookup in Hys as [i Hi].
    destruct (Forall2_lookup_r _ _ _ _ _ Hall Hi) as (a & Ha & Hf).
    exists a, ys. split; [by eapply list_elem_of_lookup_2 | done].
  - intros (a & ys & Ha & Hf & Hx). apply list_elem_of_lookup in Ha as [i Hi].
    destruct (Forall2_lookup_l _ _ _ _ _ Hall Hi) as (ys' & Hys & Hf').
    exists ys. split; [done |]. rewrite Hf in Hf'. injection Hf' as <-.
    by eapply list_elem_of_lookup_2.
Qed.

Lemma elem_of_individual_filing_quarters y q quarters :
  (y, q) ∈ individual_filing_quarters quarters ↔ (y, q) ∈ quarters ∧ 2024 ≤ y.
Proof.
  unfold individual_filing_quarters. rewrite list_elem_of_filter. simpl.
  split; intros [? ?]; (split; [lia || done | lia || done]).
Qed.

Lemma elem_of_structured_data_quarters y q quarters :
  (y, q) ∈ structured_data_quarters quarters ↔ (y, q) ∈ quarters ∧ y < 2024.
Proof.
  unfold structured_data_quarters. rewrite list_elem_of_filter. simpl. tauto.
Qed.

(** What the list of the files still to do holds. *)
Lemma elem_of_remaining_individual_filings dir listdir quarters self paths p :
  remaining_individual_filings dir listdir quarters self = Some paths →
  p ∈ paths
  ↔ ∃ y q names filename,
      ((y, q) ∈ quarters ∧ 2024 ≤ y)
      ∧ listdir (OsPath.join dir [quarter_folder y q]) = Some names
      ∧ filename ∈ names
      ∧ PyText.endswith ".txt" filename = true
      ∧ is_processed individual_filings (PyInt y) (PyInt q) filename self
        = false
      ∧ p = OsPath.join dir [quarter_folder y q; filename].
Proof.
  unfold remaining_individual_filings.
  destruct (mapM _ _) as [k |] eqn:Hk; [| done]. intros [= <-].
  rewrite (elem_of_mapM_join _ _ _ _ Hk). unfold remaining_in_quarter. split.
  - intros ([y q] & ys & Hyq & Hys & Hp). cbn [fst snd] in Hys.
    destruct (listdir _) as [names |] eqn:Hnames; [| done].
    injection Hys as <-.
    apply list_elem_of_fmap in Hp as (filename & -> & Hin).
    apply list_elem_of_filter in Hin as [[Hend Hnew] Hin].
    exists y, q, names, filename.
    by rewrite <- elem_of_individual_filing_quarters.
  - intros (y & q & names & filename & Hyq & Hnames & Hin & Hend & Hnew & ->).
    exists (y, q). eexists. cbn [fst snd]. rewrite Hnames.
    split; [by apply elem_of_individual_filing_quarters |].
    split; [done |].
    apply (list_elem_of_fmap_2
             (fun filename => OsPath.join dir [quarter_folder y q; filename])).
    by apply list_elem_of_filter.
Qed.

Lemma remaining_individual_filings_None dir listdir quarters self :
  remaining_individual_filings dir listdir quarters self = None
  ↔ ∃ y q, ((y, q) ∈ quarters ∧ 2024 ≤ y)
           ∧ listdir (OsPath.join dir [quarter_folder y q]) = None.
Proof.
  unfold remaining_individual_filings. rewrite fmap_None, mapM_None.
  rewrite Exists_exists. unfold remaining_in_quarter. split.
  - intros ([y q] & Hyq & Hnone). cbn [fst snd] in Hnone. exists y, q.
    rewrite <- elem_of_individual_filing_quarters. split; [done |].
    by destruct (listdir _).
  - intros (y & q & Hyq & Hnone). exists (y, q). cbn [fst snd]. rewrite Hnone.
    split; [by apply elem_of_individual_filing_quarters | done].
Qed.

(** X16. The list of the files still to do cannot be made, because
    [os.listdir] raises, exactly when the folder of some quarter of 2024 or
    later is missing; what the tracker holds plays no part in that, and the
    quarters before 2024 are not looked at. *)
Theorem remaining_individual_filings_raises dir listdir quarters self :
  remaining_individual_filings dir listdir quarters self = None
  ↔ ∃ y q, (y, q) ∈ quarters ∧ 2024 ≤ y
           ∧ listdir (OsPath.join dir [quarter_folder y q]) = None.
Proof.
  rewrite remaining_individual_filings_None.
  split; intros (y & q & H); exists y, q; tauto.
Qed.

Lemma is_processed_mark_message now m c' y' q' item' self :
  is_processed c' y' q' item' (mark_message now m self) = true
  ↔ is_processed c' y' q' item' self = true
    ∨ ∃ p y q, m = (c', p, y, q, item')
               ∧ (c' = structured_data
                  ∨ format y' +:+ "_Q" +:+ format q'
                    = format y +:+ "_" +:+ format q).
Proof.
  destruct m as [[[[c p] y] q] item]. simpl.
  rewrite is_processed_after_mark. split.
  - intros [? | (-> & -> & Hkey)]; [by left |]. right. by exists p, y, q.
  - intros [? | (p0 & y0 & q0 & [= -> -> -> -> ->] & Hkey)]; [by left |].
    by right.
Qed.

Lemma is_processed_mark_all messages c' y' q' item' : ∀ self,
  is_processed c' y' q' item' (mark_all messages self) = true
  ↔ is_processed c' y' q' item' self = true
    ∨ ∃ now p y q, (now, (c', p, y, q, item')) ∈ messages
                   ∧ (c' = structured_data
                      ∨ format y' +:+ "_Q" +:+ format q'
                        = format y +:+ "_" +:+ format q).
Proof.
  induction messages as [| [now m] messages IH]; intros self.
  - simpl. split; [by left |].
    by intros [? | (? & ? & ? & ? & ?%elem_of_nil & _)].
  - change (mark_all ((now, m) :: messages) self)
      with (mark_all messages (mark_message now m self)).
    rewrite IH, is_processed_mark_message. split.
    + intros [[? | (p & y & q & -> & Hkey)]
             | (now' & p & y & q & Hin & Hkey)]; [by left | |].
      * right. exists now, p, y, q. split; [by left | done].
      * right. exists now', p, y, q. split; [by right | done].
    + intros [? | (now' & p & y & q & Hin & Hkey)]; [by left; left |].
      apply elem_of_cons in Hin as [[= -> <-] | Hin].
      * left. right. by exists p, y, q.
      * right. by exists now', p, y, q.
Qed.

(** X17. After a run in which the aggregator has marked some messages, each
    message of the per-document track being that of a file of the list of
    the run, the list of the files still to do is the list of the run
    without the files whose message was marked: no file is done twice, and
    none whose message did not arrive is taken for done. File names are
    names, without a separator. *)
Theorem remaining_individual_filings_resumed dir listdir quarters self paths
    messages :
  (∀ d names filename,
     listdir d = Some names → filename ∈ names →
     OsPath.has_sep filename = false) →
  remaining_individual_filings dir listdir quarters self = Some paths →
  (∀ now m,
     (now, m) ∈ messages → message_category m = individual_filings →
     ∃ p, p ∈ paths ∧ individual_filing_message p = Some m) →
  ∃ paths',
    remaining_individual_filings dir listdir quarters (mark_all messages self)
    = Some paths'
    ∧ ∀ p, p ∈ paths'
           ↔ p ∈ paths
             ∧ ∀ now m, (now, m) ∈ messages →
                        individual_filing_message p ≠ Some m.
Proof.
  intros Hnames Hpaths Hmessages.
  destruct (remaining_individual_filings dir listdir quarters
              (mark_all messages self)) as [paths' |] eqn:Hpaths'.
  2: { apply remaining_individual_filings_None in Hpaths'.
       apply (remaining_individual_filings_None _ _ _ self) in Hpaths'.
       by rewrite Hpaths' in Hpaths. }
  exists paths'. split; [done |]. intros p.
  rewrite (elem_of_remaining_individual_filings _ _ _ _ _ _ Hpaths').
  rewrite (elem_of_remaining_individual_filings _ _ _ _ _ _ Hpaths).
  split.
  - intros (y & q & names & filename & Hyq & Hdir & Hin & Hend & Hnew & ->).
    pose proof (Hnames _ _ _ Hdir Hin) as Hsep.
    apply not_true_iff_false in Hnew. rewrite is_processed_mark_all in Hnew.
    split.
    + exists y, q, names, filename. repeat (split; [done |]).
      split; [| done]. apply not_true_iff_false. intros ?. apply Hnew.
      by left.
    + intros now m Hm. rewrite individual_filing_message_join by done.
      intros [= <-]. apply Hnew. right. do 4 eexists. split; [exact Hm |].
      by right.
  - intros [(y & q & names & filename & Hyq & Hdir & Hin & Hend & Hnew & ->)
            Hnone].
    pose proof (Hnames _ _ _ Hdir Hin) as Hsep.
    exists y, q, names, filename. repeat (split; [done |]).
    split; [| done]. apply not_true_iff_false.
    rewrite is_processed_mark_all.
    intros [Hold | (now & p & y' & q' & Hm & [[=] | Hkey])];
      [by rewrite Hold in Hnew |].
    destruct (Hmessages _ _ Hm eq_refl) as (p' & Hp' & Hmsg).
    apply (elem_of_remaining_individual_filings _ _ _ _ _ _ Hpaths) in Hp'
      as (y2 & q2 & names2 & filename2 & _ & Hdir2 & Hin2 & _ & _ & ->).
    rewrite individual_filing_message_join in Hmsg by eauto.
    injection Hmsg as <- <- <- <-. simpl in Hkey.
    destruct (quarter_folder_inj y q y2 q2) as [-> ->]; [exact Hkey |].
    eapply (Hnone now). 2: by apply individual_filing_message_join.
    exact Hm.
Qed.

Lemma remaining_individual_filings_resumed_witness :
  let listdir d :=
    if String.eqb d "data/2024_Q1" then Some ["a.txt"; "b.txt"]%string
    else None in
  let messages :=
    [("t1"%string,
      (individual_filings, "data/2024_Q1/a.txt"%string, PyStr "2024",
       PyStr "Q1", "a.txt"%string))] in
  ∃ paths',
    remaining_individual_filings "data" listdir [(2024, 1)]
      (mark_all messages (init "t0" None))
    = Some paths'
    ∧ ∀ p, p ∈ paths'
           ↔ p ∈ ["data/2024_Q1/a.txt"; "data/2024_Q1/b.txt"]%string
             ∧ ∀ now m, (now, m) ∈ messages →
                        individual_filing_message p ≠ Some m.
Proof.
  intros listdir messages.
  apply (remaining_individual_filings_resumed "data" listdir [(2024, 1)]
           (init "t0" None)).
  - intros d names filename. unfold listdir.
    destruct (String.eqb d "data/2024_Q1"); [| done]. intros [= <-] Hin.
    apply elem_of_cons in Hin as [-> | Hin]; [reflexivity |].
    apply list_elem_of_singleton in Hin as ->. reflexivity.
  - reflexivity.
  - intros now m Hin _. apply list_elem_of_singleton in Hin as [= _ ->].
    exists "data/2024_Q1/a.txt"%string. split; [by left | reflexivity].
Defined.

(** What the list of the folders still to do holds. *)
Lemma elem_of_remaining_structured_data dir quarters self p :
  p ∈ remaining_structured_data dir quarters self
  ↔ ∃ y q,
      ((y, q) ∈ quarters ∧ y < 2024)
      ∧ is_processed structured_data (PyInt y) (PyInt q) (quarter_folder y q)
          self = false
      ∧ p = OsPath.join dir [quarter_folder y q].
Proof.
  unfold remaining_structured_data. rewrite list_elem_of_fmap. split.
  - intros ([y q] & -> & Hin).
    apply list_elem_of_filter in Hin as [Hnew Hin].
    apply elem_of_structured_data_quarters in Hin. by exists y, q.
  - intros (y & q & Hyq & Hnew & ->). exists (y, q). split; [done |].
    apply list_elem_of_filter.
    split; [done | by apply elem_of_structured_data_quarters].
Qed.

(** X18. After a run in which the aggregator has marked some messages, each
    message of the bulk track being that of a folder of the list of the
    run, the list of the folders still to do is the list of the run without
    the folders whose message was marked. Quarters are numbered 0 to 9. *)
Theorem remaining_structured_data_resumed dir quarters self messages :
  (∀ y q, (y, q) ∈ quarters → y < 2024 → 0 ≤ q ≤ 9) →
  (∀ now m,
     (now, m) ∈ messages → message_category m = structured_data →
     ∃ p, p ∈ remaining_structured_data dir quarters self
          ∧ structured_data_message p = Some m) →
  ∀ p, p ∈ remaining_structured_data dir quarters (mark_all messages self)
       ↔ p ∈ remaining_structured_data dir quarters self
         ∧ ∀ now m, (now, m) ∈ messages → structured_data_message p ≠ Some m.
Proof.
  intros Hquarters Hmessages p.
  rewrite !elem_of_remaining_structured_data. split.
  - intros (y & q & [Hyq Hy] & Hnew & ->).
    apply not_true_iff_false in Hnew. rewrite is_processed_mark_all in Hnew.
    split.
    + exists y, q. split; [done |]. split; [| done].
      apply not_true_iff_false. intros ?. apply Hnew. by left.
    + intros now m Hm. rewrite structured_data_message_join by eauto.
      intros [= <-]. apply Hnew. right. do 4 eexists. split; [exact Hm |].
      by left.
  - intros [(y & q & [Hyq Hy] & Hnew & ->) Hnone].
    exists y, q. split; [done |]. split; [| done].
    apply not_true_iff_false. rewrite is_processed_mark_all.
    intros [Hold | (now & p & y' & q' & Hm & _)];
      [by rewrite Hold in Hnew |].
    destruct (Hmessages _ _ Hm eq_refl) as (p' & Hp' & Hmsg).
    apply elem_of_remaining_structured_data in Hp'
      as (y2 & q2 & [Hyq2 Hy2] & _ & ->).
    rewrite structured_data_message_join in Hmsg by eauto.
    injection Hmsg as <- <- <- Hfolder.
    destruct (quarter_folder_inj y q y2 q2) as [-> ->]; [done |].
    eapply (Hnone now). 2: by apply structured_data_message_join; eauto.
    exact Hm.
Qed.

Lemma remaining_structured_data_resumed_witness :
  let messages :=
    [("t1"%string,
      (structured_data, "data/2023_Q1"%string, PyInt 2023, PyInt 1,
       "2023_Q1"%string))] in
  let quarters : list (Z * Z) := [(2023, 1); (2023, 2)] in
  "data/2023_Q2"%string
  ∈ remaining_structured_data "data" quarters
      (mark_all messages (init "t0" None))
  ↔ "data/2023_Q2"%string
    ∈ remaining_structured_data "data" quarters (init "t0" None)
    ∧ ∀ now m, (now, m) ∈ messages →
               structured_data_message "data/2023_Q2" ≠ Some m.
Proof.
  intros messages quarters.
  apply (remaining_structured_data_resumed "data" quarters (init "t0" None)).
  - intros y q Hin _. apply elem_of_cons in Hin as [[= -> ->] | Hin]; [lia |].
    apply list_elem_of_singleton in Hin as [= -> ->]. lia.
  - intros now m Hin _. apply list_elem_of_singleton in Hin as [= _ ->].
    exists "data/2023_Q1"%string. split; [by left | reflexivity].
Defined.

(** ** Bulk ingestion *)

Lemma insert_filing_holdings fd db :
  holdings (insert_filing fd db).1 = holdings db.
Proof. unfold insert_filing. by case_decide. Qed.

Lemma insert_filing_known fd db :
  fd_accession_number fd ∈ accession_number <$> filings db →
  (insert_filing fd db).1 = db.
Proof. intros Hin. unfold insert_filing. by rewrite decide_True by done. Qed.

Lemma insert_filing_accession_numbers fd db a :
  a ∈ accession_number <$> filings (insert_filing fd db).1
  ↔ a ∈ accession_number <$> filings db ∨ a = fd_accession_number fd.
Proof.
  unfold insert_filing. case_decide as Hin; cbn [fst filings].
  - split; [by left | by intros [? | ->]].
  - rewrite fmap_app, elem_of_app. simpl. rewrite list_elem_of_singleton.
    tauto.
Qed.

Lemma insert_filing_prefix fd db :
  filings db `prefix_of` filings (insert_filing fd db).1.
Proof.
  unfold insert_filing. case_decide; cbn [fst filings]; [done |].
  by apply prefix_app_r.
Qed.

Lemma insert_filing_db_ok fd db : db_ok db → db_ok (insert_filing fd db).1.
Proof.
  intros Hok.
  destruct (decide (fd_accession_number fd ∈ accession_number <$> filings db))
    as [Hin | Hnew].
  - by rewrite insert_filing_known.
  - by apply insert_filing_new.
Qed.

Lemma insert_filings_facts rows : ∀ db,
  db_ok db →
  let db' := insert_filings rows db in
  db_ok db'
  ∧ holdings db' = holdings db
  ∧ filings db `prefix_of` filings db'
  ∧ ∀ a, a ∈ accession_number <$> filings db'
         ↔ a ∈ accession_number <$> filings db
           ∨ a ∈ fd_accession_number <$> rows.
Proof.
  induction rows as [| fd rows IH]; intros db Hok.
  - simpl. split; [done |]. split; [done |]. split; [done |].
    intros a. split; [by left | by intros [? | ?%elem_of_nil]].
  - change (insert_filings (fd :: rows) db)
      with (insert_filings rows (insert_filing fd db).1).
    destruct (IH _ (insert_filing_db_ok fd db Hok))
      as (Hok' & Hholdings & Hprefix & Hacc).
    cbn zeta. split; [done |].
    split; [by rewrite Hholdings, insert_filing_holdings |].
    split; [by etrans; [apply insert_filing_prefix |] |].
    intros a. rewrite Hacc, insert_filing_accession_numbers, fmap_cons.
    rewrite elem_of_cons. tauto.
Qed.

Lemma insert_filings_known rows : ∀ db,
  (∀ fd, fd ∈ rows →
         fd_accession_number fd ∈ accession_number <$> filings db) →
  insert_filings rows db = db.
Proof.
  induction rows as [| fd rows IH]; intros db Hknown; [done |].
  change (insert_filings (fd :: rows) db)
    with (insert_filings rows (insert_filing fd db).1).
  rewrite insert_filing_known by (apply Hknown; by left).
  apply IH. intros fd' Hin. apply Hknown. by right.
Qed.

Lemma id_dict_snoc l k v : id_dict (l ++ [(k, v)]) = <[k := v]> (id_dict l).
Proof. unfold id_dict. by rewrite foldl_app. Qed.

Lemma id_dict_lookup l k v :
  NoDup l.*1 → id_dict l !! k = Some v ↔ (k, v) ∈ l.
Proof.
  induction l as [| [k' v'] l IH] using rev_ind.
  - intros _. split; [done | by intros ?%elem_of_nil].
  - rewrite fmap_app, NoDup_app, id_dict_snoc, elem_of_app. simpl.
    rewrite list_elem_of_singleton. intros (Hnodup & Hfresh & _).
    destruct (decide (k = k')) as [-> | Hne].
    + rewrite lookup_insert_eq. split.
      * intros [= ->]. by right.
      * intros [Hin | [= <-]]; [| done]. exfalso. apply (Hfresh k').
        -- by apply (list_elem_of_fmap_2 fst _ (k', v)).
        -- by left.
    + rewrite lookup_insert_ne by done. rewrite IH by done.
      split; [by left | by intros [? | [= -> _]]].
Qed.

(** What the dict of ids resolves, on consistent tables. *)
Lemma accession_to_id_lookup accession_numbers db a i :
  db_ok db →
  id_dict (select_ids accession_numbers db) !! a = Some i
  ↔ Some a ∈ accession_numbers
    ∧ ∃ f, f ∈ filings db ∧ accession_number f = a ∧ id f = i.
Proof.
  intros (Hacc & _). rewrite id_dict_lookup.
  - unfold select_ids. rewrite list_elem_of_fmap. split.
    + intros (f & [= -> ->] & [Hany Hf]%list_elem_of_filter). eauto.
    + intros (Hany & f & Hf & <- & <-). exists f. split; [done |].
      by apply list_elem_of_filter.
  - unfold select_ids. rewrite <- list_fmap_compose.
    assert (Hrows : NoDup (filings db)) by (eapply NoDup_fmap_1; exact Hacc).
    apply NoDup_fmap_2_strong; [| by apply NoDup_filter].
    intros f g [_ Hf]%list_elem_of_filter [_ Hg]%list_elem_of_filter Heq.
    simpl in Heq.
    apply list_elem_of_lookup in Hf as [n Hn], Hg as [m Hm].
    assert (n = m) as ->; [| congruence].
    eapply NoDup_lookup; [exact Hacc | |];
      rewrite list_lookup_fmap; [by rewrite Hn | by rewrite Hm, Heq].
Qed.


(** The runs of the bulk worker on loaded files. *)
Lemma process_structured_data_run faults filings_df infotable_df folder_path
    db :
  process_structured_data faults (Some (filings_df, infotable_df)) folder_path
    db
  = if (bool_decide (filings_df ≠ []) && faults InsertFiling)
       || (bool_decide (ingested_holdings filings_df infotable_df db ≠ [])
           && faults InsertHoldings)
    then (db, [])
    else (ingested filings_df infotable_df db,
          option_list (structured_data_message folder_path)).
Proof.
  unfold process_structured_data, ingested, ingested_holdings, connect.
  assert (Hfilings :
    execute_values faults InsertFiling (insert_filings filings_df) filings_df
      {| committed := db; pending := db |}
    = if bool_decide (filings_df ≠ []) && faults InsertFiling
      then (Raise DatabaseError, {| committed := db; pending := db |})
      else (Ok (), {| committed := db;
                      pending := insert_filings filings_df db |})).
  { destruct filings_df as [| fd rest]; [done |].
    rewrite bool_decide_true by done. unfold execute_values, execute.
    destruct (faults InsertFiling) eqn:Hf; simpl.
    - by rewrite execute_returning_fault.
    - by rewrite execute_returning_ok. }
  unfold_tx. rewrite Hfilings. clear Hfilings.
  destruct (bool_decide (filings_df ≠ []) && faults InsertFiling); [done |].
  cbn [orb pending committed].
  set (rows := holdings_data _ infotable_df).
  assert (Hholdings : ∀ conn,
    execute_values faults InsertHoldings (insert_holdings rows) rows conn
    = if bool_decide (rows ≠ []) && faults InsertHoldings
      then (Raise DatabaseError, conn)
      else (Ok (), {| committed := committed conn;
                      pending := insert_holdings rows (pending conn) |})).
  { intros conn. destruct rows as [| row rest].
    - simpl. rewrite insert_holdings_nil. by destruct conn.
    - rewrite bool_decide_true by done. unfold execute_values, execute.
      destruct (faults InsertHoldings) eqn:Hf; simpl.
      + by rewrite execute_returning_fault.
      + by rewrite execute_returning_ok. }
  rewrite Hholdings. clear Hholdings.
  destruct (bool_decide (rows ≠ []) && faults InsertHoldings); [done |].
  cbn [pending committed].
  by destruct (structured_data_message folder_path).
Qed.

Lemma elem_of_ingested_holdings filings_df infotable_df db h :
  db_ok db →
  h ∈ ingested_holdings filings_df infotable_df db
  ↔ ∃ row f,
      row ∈ infotable_df
      ∧ f ∈ filings (insert_filings filings_df db)
      ∧ it_accession_number row = Some (accession_number f)
      ∧ h = holding_row (id f) (it_holding row).
Proof.
  intros Hok. destruct (insert_filings_facts filings_df db Hok) as [Hok' _].
  unfold ingested_holdings, holdings_data. rewrite list_elem_of_omap. split.
  - intros (row & Hrow & Hh).
    destruct (it_accession_number row) as [a |] eqn:Ha; [| done].
    simpl in Hh.
    destruct (id_dict _ !! a) as [i |] eqn:Hi; [| done].
    injection Hh as <-.
    apply accession_to_id_lookup in Hi as (_ & f & Hf & <- & <-); [| done].
    by exists row, f.
  - intros (row & f & Hrow & Hf & Ha & ->). exists row. split; [done |].
    rewrite Ha. simpl.
    assert (Hi : id_dict
                   (select_ids
                      (remove_dups (it_accession_number <$> infotable_df))
                      (insert_filings filings_df db))
                 !! accession_number f = Some (id f)).
    { apply accession_to_id_lookup; [done |]. split; [| by eauto].
      apply elem_of_remove_dups. rewrite <- Ha.
      by apply list_elem_of_fmap_2. }
    by rewrite Hi.
Qed.

Lemma ingested_db_ok filings_df infotable_df db :
  db_ok db →
  db_ok (ingested filings_df infotable_df db)
  ∧ filings db `prefix_of` filings (ingested filings_df infotable_df db)
  ∧ holdings db `prefix_of` holdings (ingested filings_df infotable_df db).
Proof.
  intros Hok.
  destruct (insert_filings_facts filings_df db Hok)
    as (Hok' & Hholdings & Hprefix & _).
  split; [| split].
  - apply db_ok_insert_holdings; [done |]. intros h Hh.
    apply elem_of_ingested_holdings in Hh as (row & f & _ & Hf & _ & ->);
      [| done].
    cbn [holding_row filing_id]. by apply list_elem_of_fmap_2.
  - done.
  - unfold ingested. cbn [insert_holdings holdings]. rewrite Hholdings.
    by apply prefix_app_r.
Qed.

Lemma process_structured_data_cases faults loaded folder_path db :
  let result := process_structured_data faults loaded folder_path db in
  result = (db, [])
  ∨ ∃ filings_df infotable_df,
      loaded = Some (filings_df, infotable_df)
      ∧ result = (ingested filings_df infotable_df db,
                  option_list (structured_data_message folder_path)).
Proof.
  destruct loaded as [[filings_df infotable_df] |]; [| by left].
  cbn zeta. rewrite process_structured_data_run.
  destruct (_ || _); [by left | right; eauto].
Qed.

(** X19. The bulk worker keeps the tables consistent whatever the files hold
    and whichever statement fails: accession numbers and ids stay unique,
    every holding points at a stored filing, and the rows that were stored
    before are all still there, unchanged and in their order. *)
Theorem process_structured_data_db_ok faults loaded folder_path db :
  db_ok db →
  let db' := (process_structured_data faults loaded folder_path db).1 in
  db_ok db'
  ∧ filings db `prefix_of` filings db'
  ∧ holdings db `prefix_of` holdings db'.
Proof.
  intros Hok.
  destruct (process_structured_data_cases faults loaded folder_path db)
    as [-> | (filings_df & infotable_df & _ & ->)]; cbn zeta; cbn [fst].
  - done.
  - by apply ingested_db_ok.
Qed.

Lemma process_structured_data_db_ok_witness :
  let db' :=
    (process_structured_data (fun _ => false)
       (Some ([ {| fd_accession_number := "0001-23-000001";
                   fd_attributes := [] |} ],
              [ {| it_accession_number := Some "0001-23-000001"%string;
                   it_holding :=
                     {| hd_nameofissuer := "APPLE INC"; hd_titleofclass := "COM";
                        hd_cusip := "037833100"; hd_position := [] |} |} ]))
       "data/2023_Q1"
       {| filings := []; holdings := []; filings_id_seq := 1 |}).1 in
  db_ok db' ∧ [] `prefix_of` filings db' ∧ [] `prefix_of` holdings db'.
Proof.
  apply (process_structured_data_db_ok (fun _ => false) _ "data/2023_Q1"
           {| filings := []; holdings := []; filings_id_seq := 1 |}).
  repeat split; try apply NoDup_nil_2; by intros x Hx%elem_of_nil.
Defined.

(** X20. The bulk worker puts at most one message on the queue, the one of
    its folder, and only after both inserts are committed; when a statement
    fails nothing of the folder stays in the database and no message is
    put. *)
Theorem process_structured_data_atomic faults loaded folder_path db :
  let result := process_structured_data faults loaded folder_path db in
  (∀ m, m ∈ result.2 →
        result.2 = [m]
        ∧ structured_data_message folder_path = Some m
        ∧ ∃ filings_df infotable_df,
            loaded = Some (filings_df, infotable_df)
            ∧ result.1 = ingested filings_df infotable_df db)
  ∧ (∀ filings_df infotable_df,
       loaded = Some (filings_df, infotable_df) →
       (filings_df ≠ [] ∧ faults InsertFiling = true)
       ∨ (ingested_holdings filings_df infotable_df db ≠ []
          ∧ faults InsertHoldings = true) →
       result = (db, [])).
Proof.
  split.
  - destruct (process_structured_data_cases faults loaded folder_path db)
      as [-> | (filings_df & infotable_df & Hloaded & ->)]; cbn [fst snd].
    + by intros m ?%elem_of_nil.
    + intros m Hm. destruct (structured_data_message folder_path) as [m' |];
        simpl in Hm; [| by apply elem_of_nil in Hm].
      apply list_elem_of_singleton in Hm as ->. eauto 6.
  - intros filings_df infotable_df -> Hfault.
    rewrite process_structured_data_run.
    destruct Hfault as [[Hrows ->] | [Hrows ->]];
      rewrite (bool_decide_true _ Hrows); [done |].
    by rewrite orb_true_r.
Qed.

(** X21. When the name of the folder does not split into a year and a
    quarter, the bulk worker has committed the rows of the folder by the
    time it finds out: the rows stay, and no message is put, so the folder
    is not recorded as processed. *)
Theorem process_structured_data_commit_without_message faults filings_df
    infotable_df folder_path db :
  faults InsertFiling = false → faults InsertHoldings = false →
  structured_data_message folder_path = None →
  process_structured_data faults (Some (filings_df, infotable_df)) folder_path
    db
  = (ingested filings_df infotable_df db, []).
Proof.
  intros Hf Hh Hm. rewrite process_structured_data_run, Hf, Hh, Hm.
  by rewrite !andb_false_r.
Qed.

Lemma process_structured_data_commit_without_message_witness :
  let filings_df :=
    [ {| fd_accession_number := "0001-23-000001"; fd_attributes := [] |} ] in
  let db := {| filings := []; holdings := []; filings_id_seq := 1 |} in
  process_structured_data (fun _ => false) (Some (filings_df, []))
    "data/2023Q1" db
  = (ingested filings_df [] db, []).
Proof.
  intros filings_df db.
  apply process_structured_data_commit_without_message; reflexivity.
Defined.

(** X22. On consistent tables the holdings rows the bulk worker adds are,
    for each row of the holdings file whose accession number is that of a
    filing in the table after the filings insert (one of the folder or one
    stored before), that row with the filing's id; rows with no accession
    number or one of no stored filing are left out without an error, and
    when every row names a filing of the folder none is left out. *)
Theorem ingested_holdings_rows filings_df infotable_df db :
  db_ok db →
  (∀ h, h ∈ ingested_holdings filings_df infotable_df db
        ↔ ∃ row f,
            row ∈ infotable_df
            ∧ f ∈ filings (insert_filings filings_df db)
            ∧ it_accession_number row = Some (accession_number f)
            ∧ h = holding_row (id f) (it_holding row))
  ∧ ((∀ row, row ∈ infotable_df →
             ∃ fd, fd ∈ filings_df
                   ∧ it_accession_number row = Some (fd_accession_number fd)) →
     length (ingested_holdings filings_df infotable_df db)
     = length infotable_df).
Proof.
  intros Hok. split; [intros h; by apply elem_of_ingested_holdings |].
  destruct (insert_filings_facts filings_df db Hok) as (Hok' & _ & _ & Hacc).
  unfold ingested_holdings.
  set (d := id_dict _). intros Hall.
  assert (Hd : ∀ row, row ∈ infotable_df →
                      ∃ a i, it_accession_number row = Some a
                             ∧ d !! a = Some i).
  { intros row Hrow. destruct (Hall row Hrow) as (fd & Hfd & Ha).
    assert (fd_accession_number fd
            ∈ accession_number <$> filings (insert_filings filings_df db))
      as (f & Hf & Hin)%list_elem_of_fmap.
    { apply Hacc. right. by apply list_elem_of_fmap_2. }
    exists (fd_accession_number fd), (id f). split; [done |].
    apply accession_to_id_lookup; [done |]. split; [| by eauto].
    apply elem_of_remove_dups. rewrite <- Ha. by apply list_elem_of_fmap_2. }
  clear Hall. clearbody d. induction infotable_df as [| row rest IH]; [done |].
  unfold holdings_data in *. simpl.
  destruct (Hd row) as (a & i & -> & Hi); [by left |]. simpl. rewrite Hi.
  simpl. f_equal. apply IH. intros row' Hrow'. apply Hd. by right.
Qed.

Lemma ingested_holdings_rows_witness :
  let filings_df :=
    [ {| fd_accession_number := "0001-23-000001"; fd_attributes := [] |} ] in
  let infotable_df :=
    [ {| it_accession_number := Some "0001-23-000001"%string;
         it_holding :=
           {| hd_nameofissuer := "APPLE INC"; hd_titleofclass := "COM";
              hd_cusip := "037833100"; hd_position := [] |} |} ] in
  let db := {| filings := []; holdings := []; filings_id_seq := 1 |} in
  length (ingested_holdings filings_df infotable_df db) = 1%nat.
Proof.
  intros filings_df infotable_df db.
  apply (ingested_holdings_rows filings_df infotable_df db).
  - repeat split; try apply NoDup_nil_2; by intros x Hx%elem_of_nil.
  - intros row Hrow. apply list_elem_of_singleton in Hrow as ->.
    eexists. split; [by left | reflexivity].
Defined.

(** X23. The bulk worker is not idempotent: run again on the same files,
    with no failing statement, it adds no filing, since every accession
    number is stored by then, and adds every holdings row of the first run a
    second time. *)
Theorem process_structured_data_rerun faults filings_df infotable_df
    folder_path db :
  db_ok db →
  faults InsertFiling = false → faults InsertHoldings = false →
  let run := process_structured_data faults (Some (filings_df, infotable_df))
               folder_path in
  let first := (run db).1 in
  let second := (run first).1 in
  filings second = filings first
  ∧ holdings first
    = holdings db ++ ingested_holdings filings_df infotable_df db
  ∧ holdings second
    = holdings first ++ ingested_holdings filings_df infotable_df db.
Proof.
  intros Hok Hf Hh run first second. subst run first second.
  rewrite !process_structured_data_run, Hf, Hh, !andb_false_r. cbn [orb fst].
  destruct (insert_filings_facts filings_df db Hok)
    as (_ & Hholdings & _ & Hacc).
  assert (Hknown :
    insert_filings filings_df (ingested filings_df infotable_df db)
    = ingested filings_df infotable_df db).
  { apply insert_filings_known. intros fd Hfd.
    unfold ingested. cbn [insert_holdings filings]. apply Hacc. right.
    by apply list_elem_of_fmap_2. }
  assert (Hrows :
    ingested_holdings filings_df infotable_df
      (ingested filings_df infotable_df db)
    = ingested_holdings filings_df infotable_df db).
  { unfold ingested_holdings. by rewrite Hknown. }
  unfold ingested at 1 3 5. rewrite Hrows, Hknown.
  split; [done |]. split; [| done].
  unfold ingested. cbn [insert_holdings holdings]. by rewrite Hholdings.
Qed.

Lemma process_structured_data_rerun_witness :
  let filings_df :=
    [ {| fd_accession_number := "0001-23-000001"; fd_attributes := [] |} ] in
  let infotable_df :=
    [ {| it_accession_number := Some "0001-23-000001"%string;
         it_holding :=
           {| hd_nameofissuer := "APPLE INC"; hd_titleofclass := "COM";
              hd_cusip := "037833100"; hd_position := [] |} |} ] in
  let db := {| filings := []; holdings := []; filings_id_seq := 1 |} in
  let run := process_structured_data (fun _ => false)
               (Some (filings_df, infotable_df)) "data/2023_Q1" in
  holdings (run (run db).1).1
  = holdings (run db).1 ++ ingested_holdings filings_df infotable_df db.
Proof.
  intros filings_df infotable_df db run.
  apply (process_structured_data_rerun (fun _ => false) filings_df
           infotable_df "data/2023_Q1" db).
  - repeat split; try apply NoDup_nil_2; by intros x Hx%elem_of_nil.
  - reflexivity.
  - reflexivity.
Defined.

(** ** The dispatcher as a whole *)

(** X24. When [process_13f_data] returns, the progress file holds the
    tracker as it was saved last, and the next run, which starts from that
    file, takes for processed exactly what this run took for processed at
    its start and what the messages marked that the aggregator took, which
    are the first ones received and no more than there were tasks. *)
Theorem process_13f_data_finished STRUCTURED_DATA_DIR INDIVIDUAL_FILINGS_DIR
    listdir now now_end file quarters trace progress_tracker now' :
  process_13f_data STRUCTURED_DATA_DIR INDIVIDUAL_FILINGS_DIR listdir now
    now_end file quarters trace
  = Finished progress_tracker →
  ∃ paths messages,
    remaining_individual_filings INDIVIDUAL_FILINGS_DIR listdir quarters
      (init now file) = Some paths
    ∧ messages `prefix_of` received trace
    ∧ (length messages
       ≤ length (remaining_structured_data STRUCTURED_DATA_DIR quarters
                   (init now file))
         + length paths)%nat
    ∧ disk progress_tracker = Some (data progress_tracker)
    ∧ ∀ c y q item,
        is_processed c y q item (init now' (disk progress_tracker)) = true
        ↔ is_processed c y q item (init now file) = true
          ∨ ∃ t p y0 q0,
              (t, (c, p, y0, q0, item)) ∈ messages
              ∧ (c = structured_data
                 ∨ format y +:+ "_Q" +:+ format q
                   = format y0 +:+ "_" +:+ format q0).
Proof.
  unfold process_13f_data.
  destruct (remaining_individual_filings _ _ _ _) as [paths |]; [| done].
  destruct (aggregator_loop _ _ _ _) as [self |] eqn:Hloop; [| done].
  intros [= <-]. apply aggregator_loop_marks in Hloop.
  exists paths, (take
    (Z.to_nat
       (Z.of_nat
          (length (remaining_structured_data STRUCTURED_DATA_DIR quarters
                     (init now file)))
        + Z.of_nat (length paths) - 0))
    (received trace)).
  split; [done |]. split; [apply prefix_take |].
  split; [rewrite length_take; lia |]. split; [done |].
  intros c y q item.
  assert (is_processed c y q item
            (init now' (disk (save_progress now_end self)))
          = is_processed c y q item self) as -> by (by destruct c).
  by rewrite Hloop, is_processed_mark_all.
Qed.

Lemma process_13f_data_finished_witness :
  let message : progress_message :=
    (structured_data, "data/2023_Q1"%string, PyInt 2023, PyInt 1,
     "2023_Q1"%string) in
  let quarters : list (Z * Z) := [(2023, 1)] in
  ∃ paths messages,
    remaining_individual_filings "filings" (fun _ => None) quarters
      (init "t0" None) = Some paths
    ∧ messages `prefix_of` received [Got "t1" message]
    ∧ (length messages
       ≤ length (remaining_structured_data "data" quarters
                   (init "t0" None))
         + length paths)%nat
    ∧ disk (save_progress "t2" (mark_message "t1" message (init "t0" None)))
      = Some (data (save_progress "t2"
                      (mark_message "t1" message (init "t0" None))))
    ∧ ∀ c y q item,
        is_processed c y q item
          (init "t3"
             (disk (save_progress "t2"
                      (mark_message "t1" message (init "t0" None)))))
        = true
        ↔ is_processed c y q item (init "t0" None) = true
          ∨ ∃ t p y0 q0,
              (t, (c, p, y0, q0, item)) ∈ messages
              ∧ (c = structured_data
                 ∨ format y +:+ "_Q" +:+ format q
                   = format y0 +:+ "_" +:+ format q0).
Proof.
  intros message quarters.
  apply (process_13f_data_finished "data" "filings" (fun _ => None) "t0" "t2"
           None quarters [Got "t1" message]).
  reflexivity.
Defined.
